(** * A shallow embedding of the VRTQL WebSocket client engine

    The development follows [src/websocket.c], [src/socket.c] and
    [src/vrtql.c].  Machine integers are modelled as [Z] with the wrap-around
    written out, byte buffers as [list Z], C strings as the list of their
    characters, and the connection together with its thread environment as an
    explicit [world] threaded through a small state monad. *)

From Stdlib Require Import String Ascii.
From Stdlib Require Import ZArith List Lia Bool Arith.
Import Corelib.Init.Datatypes.
Import ListNotations.
Open Scope Z_scope.

(** ** Machine arithmetic *)

(** A value stored into an [unsigned char]. *)
Definition u8 (z : Z) : Z := z mod 256.

(** A value of type [size_t] / [uint64_t]. *)
Definition u64 (z : Z) : Z := z mod 2 ^ 64.

(** ** Frames *)

(** Modelled from the spec: the opcodes, whose declaration (websocket.h) is
    not among the sources: CONTINUATION 0x0, TEXT 0x1, BINARY 0x2, CLOSE 0x8,
    PING 0x9, PONG 0xA. *)
Definition CONTINUATION_FRAME : Z := 0.
Definition TEXT_FRAME : Z := 1.
Definition BINARY_FRAME : Z := 2.
Definition CLOSE_FRAME : Z := 8.
Definition PING_FRAME : Z := 9.
Definition PONG_FRAME : Z := 10.

(** Modelled from the spec: the frame structure [vws_frame] (websocket.h),
    with the fields the sources use: [fin], [opcode], [mask], the payload
    offset, the payload [size] and the payload bytes [data]. *)
Record vws_frame : Type := mk_frame {
  fin : Z;          (* unsigned char *)
  opcode : Z;       (* unsigned char *)
  mask : Z;         (* unsigned char *)
  offset : Z;
  size : Z;         (* size_t *)
  data : list Z     (* the bytes [data] points to *)
}.

Definition set_fin (v : Z) (f : vws_frame) : vws_frame :=
  mk_frame v (opcode f) (mask f) (offset f) (size f) (data f).
Definition set_opcode (v : Z) (f : vws_frame) : vws_frame :=
  mk_frame (fin f) v (mask f) (offset f) (size f) (data f).
Definition set_mask (v : Z) (f : vws_frame) : vws_frame :=
  mk_frame (fin f) (opcode f) v (offset f) (size f) (data f).
Definition set_offset (v : Z) (f : vws_frame) : vws_frame :=
  mk_frame (fin f) (opcode f) (mask f) v (size f) (data f).
Definition set_size (v : Z) (f : vws_frame) : vws_frame :=
  mk_frame (fin f) (opcode f) (mask f) (offset f) v (data f).
Definition set_data (v : list Z) (f : vws_frame) : vws_frame :=
  mk_frame (fin f) (opcode f) (mask f) (offset f) (size f) v.

(** [vws_frame_new(data, s, oc)]: a final, masked frame owning a copy of the
    first [s] bytes of [data] ([data] stays NULL when [s] is 0). *)
Definition vws_frame_new (d : list Z) (s : Z) (oc : Z) : vws_frame :=
  {| fin := 1;
     opcode := u8 oc;
     mask := 1;
     offset := 0;
     size := s;
     data := if 0 <? s then firstn (Z.to_nat s) d else [] |}.

(** The data-model invariant of a frame: [fin] and [mask] are booleans, the
    opcode is a 4-bit tag, [size] is the length of the payload, which is below
    2^63. *)
Record frame_wf (f : vws_frame) : Prop := {
  wf_fin : fin f = 0 \/ fin f = 1;
  wf_opcode : 0 <= opcode f < 16;
  wf_mask : mask f = 0 \/ mask f = 1;
  wf_size : size f = Z.of_nat (length (data f));
  wf_bound : size f < 2 ^ 63
}.

(** ** The frame codec *)

(** The four bytes of a masking key, [masking_key[0..3]]. *)
Definition key4 : Type := (Z * Z * Z * Z)%type.

Definition key_bytes (k : key4) : list Z :=
  let '(k0, k1, k2, k3) := k in [k0; k1; k2; k3].

(** [masking_key[i % 4]] *)
Definition key_at (k : key4) (i : nat) : Z :=
  let '(k0, k1, k2, k3) := k in
  match (i mod 4)%nat with
  | 0%nat => k0
  | 1%nat => k1
  | 2%nat => k2
  | _ => k3
  end.

(** The masking loop shared by both directions:
    [out[i] = in[i] ^ key[i % 4]] for [i] from the start index on. *)
Fixpoint xor_loop (k : key4) (i : nat) (d : list Z) : list Z :=
  match d with
  | [] => []
  | b :: d' => Z.lxor b (key_at k i) :: xor_loop k (S i) d'
  end.

(** Section 1 of [vws_serialize]: [header[1]] before the mask bit is set and
    the extended-length bytes [header[2..]]. *)
Definition length_field (payload_length : Z) : Z * list Z :=
  if payload_length <=? 125 then
    (u8 payload_length, [])
  else if payload_length <=? 65535 then
    (126, [Z.land (Z.shiftr payload_length 8) 255;
           Z.land payload_length 255])
  else
    (127, [Z.land (Z.shiftr payload_length 56) 255;
           Z.land (Z.shiftr payload_length 48) 255;
           Z.land (Z.shiftr payload_length 40) 255;
           Z.land (Z.shiftr payload_length 32) 255;
           Z.land (Z.shiftr payload_length 24) 255;
           Z.land (Z.shiftr payload_length 16) 255;
           Z.land (Z.shiftr payload_length 8) 255;
           Z.land payload_length 255]).

(** [header] as [vws_serialize] has it when it copies it into the frame:
    byte 0, byte 1 with the mask bit or-ed in, and the extended length. *)
Definition frame_header (f : vws_frame) : list Z :=
  let payload_length := size f in
  let header0 := u8 (Z.lor (Z.shiftl (fin f) 7) (opcode f)) in
  let '(header1, ext) := length_field payload_length in
  let header1 := if mask f =? 0 then header1 else u8 (Z.lor header1 128) in
  header0 :: header1 :: ext.

(** The [payload_length] bytes read from [f->data]. *)
Definition frame_payload (f : vws_frame) : list Z :=
  firstn (Z.to_nat (size f)) (data f).

(** [frame_data] of a masked frame once the key is known. *)
Definition masked_frame_data (f : vws_frame) (masking_key : key4) : list Z :=
  frame_header f ++ key_bytes masking_key
    ++ xor_loop masking_key 0 (frame_payload f).

(** [frame_data] of an unmasked frame. *)
Definition plain_frame_data (f : vws_frame) : list Z :=
  frame_header f ++ frame_payload f.

(** Modelled from the spec: the parse states [fs_t] (websocket.h): complete,
    incomplete, error. *)
Inductive fs_t : Type := FRAME_COMPLETE | FRAME_INCOMPLETE | FRAME_ERROR.

(** [f->size = (f->size << 8) | data[2 + i]] over the extended-length bytes. *)
Definition read_length (bytes : list Z) : Z :=
  fold_left (fun acc b => u64 (Z.lor (Z.shiftl acc 8) b)) bytes 0.

(** [vws_deserialize(data, size, f, consumed)].  The result carries the return
    code, the frame as the call leaves it and the value of [*consumed].
    [None] stands for a read past the [size] bytes of [data], which the C code
    performs when the bound check has been passed on a wrapped sum. *)
Definition vws_deserialize (d : list Z) (sz : Z) (f : vws_frame) (consumed : Z)
  : option (fs_t * vws_frame * Z) :=
  if sz <? 2 then Some (FRAME_INCOMPLETE, f, consumed) else
  let d0 := nth 0 d 0 in
  let d1 := nth 1 d 0 in
  let f := set_fin (Z.land (Z.shiftr d0 7) 1) f in
  let f := set_opcode (Z.land d0 15) f in
  let f := set_mask (Z.land (Z.shiftr d1 7) 1) f in
  let f := set_size (Z.land d1 127) f in
  let size_bytes :=
    if size f =? 126 then 2 else if size f =? 127 then 8 else 0 in
  let required_bytes := 2 + size_bytes in
  if sz <? required_bytes then Some (FRAME_INCOMPLETE, f, consumed) else
  let f :=
    if 0 <? size_bytes
    then set_size (read_length (firstn (Z.to_nat size_bytes) (skipn 2 d))) f
    else f in
  if negb (mask f =? 0) then
    let required_bytes := u64 (required_bytes + u64 (4 + size f)) in
    if sz <? required_bytes then Some (FRAME_INCOMPLETE, f, consumed) else
    let f := set_offset (2 + size_bytes + 4) f in
    let k := (nth (Z.to_nat (2 + size_bytes)) d 0,
              nth (Z.to_nat (2 + size_bytes + 1)) d 0,
              nth (Z.to_nat (2 + size_bytes + 2)) d 0,
              nth (Z.to_nat (2 + size_bytes + 3)) d 0) in
    if offset f + size f <=? Z.of_nat (length d) then
      let payload :=
        firstn (Z.to_nat (size f)) (skipn (Z.to_nat (offset f)) d) in
      Some (FRAME_COMPLETE, set_data (xor_loop k 0 payload) f, required_bytes)
    else None
  else
    let required_bytes := u64 (required_bytes + size f) in
    if sz <? required_bytes then Some (FRAME_INCOMPLETE, f, consumed) else
    let f := set_offset (2 + size_bytes) f in
    if offset f + size f <=? Z.of_nat (length d) then
      let payload :=
        firstn (Z.to_nat (size f)) (skipn (Z.to_nat (offset f)) d) in
      Some (FRAME_COMPLETE, set_data payload f, required_bytes)
    else None.


(** ** The connection, its thread environment and the outside world *)

(** Modelled from the spec: the error kinds of the thread-local last error
    ([vws.e.code]), declared in vrtql.h: NONE, WARN, TIMEOUT, SYS, RT,
    SOCKET, MEM, FATAL. *)
Inductive vws_error_code : Type :=
  VE_NONE | VE_WARN | VE_TIMEOUT | VE_SYS | VE_RT | VE_SOCKET | VE_MEM
| VE_FATAL.

(** Connection flags ([cnx_flags_t]). *)
Definition CNX_CLOSED : Z := 0.
Definition CNX_CONNECTED : Z := Z.shiftl 1 1.
Definition CNX_CLOSING : Z := Z.shiftl 1 2.
Definition CNX_SSL_INIT : Z := Z.shiftl 1 3.
Definition CNX_SERVER : Z := Z.shiftl 1 4.

Definition WS_CLOSE_NORMAL : Z := 1000.

(** The fields of [vws_url_data] that [cnx_connect] reads. *)
Record vws_url_data : Type := mk_url {
  host : option (list Z);
  protocol : list Z;
  port : option (list Z)
}.

(** What a call of [vws_socket_write] meets once it polls the socket:
    [poll] fails, [poll] times out, or [poll] reports [revents] and the
    following [send] (or [SSL_write]) returns [sent]. *)
Inductive net_event : Type :=
| PollFailed
| PollTimeout
| PollReady (revents : Z) (sent : Z).

(** One record holds the connection ([vws_cnx] with its embedded
    [vws_socket]), the thread's last error, the outcomes the network, the
    operating system and the random generator will deliver, and a log of what
    the code did to the outside: the calls of [vws_socket_write] with their
    return values and the frames handed to [vws_frame_free]. *)
Record world : Type := mk_world {
  sockfd : Z;                      (* c->base.sockfd *)
  ssl : bool;                      (* c->base.ssl != NULL *)
  buffer : list Z;                 (* c->base.buffer *)
  flags : Z;                       (* c->flags *)
  queue : list vws_frame;          (* c->queue, head first *)
  url : option vws_url_data;       (* c->url *)
  e_code : vws_error_code;         (* vws.e.code *)
  rand : nat -> option key4;       (* n-th RAND_bytes(key, 4), None: failed *)
  rand_ix : nat;
  net : nat -> net_event;          (* what the n-th poll for writing meets *)
  net_ix : nat;
  sys : nat -> Z;                  (* n-th return of close, SSL_shutdown *)
  sys_ix : nat;
  written : list (list Z * Z);     (* calls of vws_socket_write *)
  freed : list vws_frame           (* calls of vws_frame_free *)
}.

Definition set_sockfd (v : Z) (w : world) : world :=
  mk_world v (ssl w) (buffer w) (flags w) (queue w) (url w) (e_code w)
    (rand w) (rand_ix w) (net w) (net_ix w) (sys w) (sys_ix w) (written w)
    (freed w).
Definition set_ssl (v : bool) (w : world) : world :=
  mk_world (sockfd w) v (buffer w) (flags w) (queue w) (url w) (e_code w)
    (rand w) (rand_ix w) (net w) (net_ix w) (sys w) (sys_ix w) (written w)
    (freed w).
Definition set_buffer (v : list Z) (w : world) : world :=
  mk_world (sockfd w) (ssl w) v (flags w) (queue w) (url w) (e_code w)
    (rand w) (rand_ix w) (net w) (net_ix w) (sys w) (sys_ix w) (written w)
    (freed w).
Definition set_flags (v : Z) (w : world) : world :=
  mk_world (sockfd w) (ssl w) (buffer w) v (queue w) (url w) (e_code w)
    (rand w) (rand_ix w) (net w) (net_ix w) (sys w) (sys_ix w) (written w)
    (freed w).
Definition set_queue (v : list vws_frame) (w : world) : world :=
  mk_world (sockfd w) (ssl w) (buffer w) (flags w) v (url w) (e_code w)
    (rand w) (rand_ix w) (net w) (net_ix w) (sys w) (sys_ix w) (written w)
    (freed w).
Definition set_e_code (v : vws_error_code) (w : world) : world :=
  mk_world (sockfd w) (ssl w) (buffer w) (flags w) (queue w) (url w) v
    (rand w) (rand_ix w) (net w) (net_ix w) (sys w) (sys_ix w) (written w)
    (freed w).
Definition set_rand_ix (v : nat) (w : world) : world :=
  mk_world (sockfd w) (ssl w) (buffer w) (flags w) (queue w) (url w)
    (e_code w) (rand w) v (net w) (net_ix w) (sys w) (sys_ix w) (written w)
    (freed w).
Definition set_net_ix (v : nat) (w : world) : world :=
  mk_world (sockfd w) (ssl w) (buffer w) (flags w) (queue w) (url w)
    (e_code w) (rand w) (rand_ix w) (net w) v (sys w) (sys_ix w) (written w)
    (freed w).
Definition set_sys_ix (v : nat) (w : world) : world :=
  mk_world (sockfd w) (ssl w) (buffer w) (flags w) (queue w) (url w)
    (e_code w) (rand w) (rand_ix w) (net w) (net_ix w) (sys w) v (written w)
    (freed w).
Definition set_written (v : list (list Z * Z)) (w : world) : world :=
  mk_world (sockfd w) (ssl w) (buffer w) (flags w) (queue w) (url w)
    (e_code w) (rand w) (rand_ix w) (net w) (net_ix w) (sys w) (sys_ix w) v
    (freed w).
Definition set_freed (v : list vws_frame) (w : world) : world :=
  mk_world (sockfd w) (ssl w) (buffer w) (flags w) (queue w) (url w)
    (e_code w) (rand w) (rand_ix w) (net w) (net_ix w) (sys w) (sys_ix w)
    (written w) v.

(** ** A state monad with faults *)

(** A run ends with a value and a world, with a memory fault (a NULL pointer
    dereferenced, a read past a buffer), or without an end within the given
    number of loop iterations. *)
Inductive result (A : Type) : Type :=
| Done (a : A) (w : world)
| Fault
| OutOfFuel.
Arguments Done {A} a w.
Arguments Fault {A}.
Arguments OutOfFuel {A}.

Definition M (A : Type) : Type := world -> result A.

Definition ret {A} (a : A) : M A := fun w => Done a w.

Definition bind {A B} (m : M A) (k : A -> M B) : M B :=
  fun w =>
    match m w with
    | Done a w' => k a w'
    | Fault => Fault
    | OutOfFuel => OutOfFuel
    end.

Definition fault {A} : M A := fun _ => Fault.
Definition out_of_fuel {A} : M A := fun _ => OutOfFuel.
Definition gets {A} (p : world -> A) : M A := fun w => Done (p w) w.
Definition modify (g : world -> world) : M unit := fun w => Done tt (g w).

Declare Scope monad_scope.
Delimit Scope monad_scope with monad.
Notation "x <- m ;; k" := (bind m (fun x => k))
  (at level 61, m at next level, right associativity) : monad_scope.
Notation "m ;; k" := (bind m (fun _ => k))
  (at level 61, right associativity) : monad_scope.
Open Scope monad_scope.

(** ** The thread environment ([vrtql.c]) *)

(** [vws.error(code, message)]: the default handler records the error as the
    thread's last error. *)
Definition vws_error (code : vws_error_code) : M unit :=
  modify (set_e_code code).

(** Modelled from the spec: [vws.success()], whose definition is not among
    the sources, leaves NONE as the thread's last error, as
    [vrtql_error_clear_default] does. *)
Definition vws_success : M unit := modify (set_e_code VE_NONE).

(** [RAND_bytes(masking_key, 4)] *)
Definition RAND_bytes : M (option key4) :=
  fun w => Done (rand w (rand_ix w)) (set_rand_ix (S (rand_ix w)) w).

(** The next return code of [close] or [SSL_shutdown]. *)
Definition syscall : M Z :=
  fun w => Done (sys w (sys_ix w)) (set_sys_ix (S (sys_ix w)) w).

Definition vws_frame_free (f : vws_frame) : M unit :=
  modify (fun w => set_freed (freed w ++ [f]) w).

(** Modelled from the spec: [vws_set_flag(&c->flags, flag)], whose definition
    is not among the sources, sets the flag in the flag set. *)
Definition vws_set_flag (flag : Z) : M unit :=
  modify (fun w => set_flags (Z.lor (flags w) flag) w).

(** [vws_buffer_drain(c->base.buffer, size)] *)
Definition vws_buffer_drain (n : Z) : M unit :=
  modify (fun w =>
    let b := buffer w in
    match b with
    | [] => w
    | _ =>
        if n >=? Z.of_nat (length b) then set_buffer [] w
        else set_buffer (skipn (Z.to_nat n) b) w
    end).

(** ** The socket ([socket.c]) *)

Definition POLLOUT : Z := 4.

Definition vws_socket_is_connected : M bool :=
  gets (fun w => 0 <? sockfd w).

(** The next thing the network does to a write. *)
Definition poll_write : M net_event :=
  fun w => Done (net w (net_ix w)) (set_net_ix (S (net_ix w)) w).

(** [vws_socket_write(c, data, size)] up to its return; [data] is never NULL
    in the calls made here. *)
Definition vws_socket_write_body (d : list Z) (sz : Z) : M Z :=
  vws_success ;;
  c <- vws_socket_is_connected ;;
  if negb c then vws_error VE_RT ;; ret (-1)
  else if sz =? 0 then vws_error VE_WARN ;; ret (-1)
  else
    ev <- poll_write ;;
    match ev with
    | PollFailed => vws_error VE_SYS ;; ret (-1)
    | PollTimeout => vws_error VE_TIMEOUT ;; ret 0
    | PollReady revents bytes_sent =>
        if negb (Z.land revents POLLOUT =? 0) then
          s <- gets ssl ;;
          if s then ret bytes_sent
          else
            (if bytes_sent =? -1 then vws_error VE_SYS else ret tt) ;;
            ret bytes_sent
        else vws_error VE_SYS ;; ret (-1)
    end.

(** Every call is logged with the bytes offered and the value returned. *)
Definition vws_socket_write (d : list Z) (sz : Z) : M Z :=
  n <- vws_socket_write_body d sz ;;
  modify (fun w => set_written (written w ++ [(d, n)]) w) ;;
  ret n.

Definition vws_socket_close : M unit :=
  s <- gets ssl ;;
  (if s then
     rc <- syscall ;;
     rc <- (if rc =? 0 then syscall else ret rc) ;;
     (if negb (rc =? 1) then vws_error VE_WARN else ret tt) ;;
     modify (set_ssl false)
   else ret tt) ;;
  fd <- gets sockfd ;;
  if 0 <? fd then
    r <- syscall ;;
    (if r =? -1 then vws_error VE_SYS else ret tt) ;;
    modify (set_sockfd (-1))
  else ret tt.

Definition vws_socket_disconnect : M unit :=
  c <- vws_socket_is_connected ;;
  if negb c then ret tt
  else vws_socket_close ;; vws_success.

(** ** Serialization with its effects ([vws_serialize]) *)

(** A NULL frame is [None]; a NULL result is [None].  The buffer returned
    holds [frame_data] and its length is [frame_size]. *)
Definition vws_serialize (f : option vws_frame) : M (option (list Z)) :=
  match f with
  | None => vws_error VE_RT ;; ret None
  | Some f =>
      if negb (mask f =? 0) then
        r <- RAND_bytes ;;
        match r with
        | None => vws_error VE_RT ;; ret None
        | Some masking_key =>
            vws_frame_free f ;;
            vws_success ;;
            ret (Some (masked_frame_data f masking_key))
        end
      else
        vws_frame_free f ;;
        vws_success ;;
        ret (Some (plain_frame_data f))
  end.

(** The two bytes an [int16_t] holds after [htons(v)]. *)
Definition htons (v : Z) : list Z :=
  [Z.land (Z.shiftr v 8) 255; Z.land v 255].

Definition vws_generate_close_frame : M (option (list Z)) :=
  let sz := 2 in
  let d := htons WS_CLOSE_NORMAL in
  let f := vws_frame_new d sz CLOSE_FRAME in
  vws_serialize (Some f).

Definition vws_generate_pong_frame (ping_data : list Z) (s : Z)
  : M (option (list Z)) :=
  let f := vws_frame_new ping_data s PONG_FRAME in
  vws_serialize (Some f).

(** ** Dispatch of an inbound frame ([process_frame]) *)

(** Modelled from the spec: the queue of the [sc] library, which is not
    among the sources; [sc_queue_add_first] inserts at the head,
    [sc_queue_del_last] takes from the tail, [sc_queue_foreach] runs from the
    head to the tail. *)
Definition sc_queue_add_first (f : vws_frame) : M unit :=
  modify (fun w => set_queue (f :: queue w) w).

(** [sc_queue_del_last]; on an empty queue the C macro reads outside the
    queue. *)
Definition sc_queue_del_last : M vws_frame :=
  fun w =>
    match rev (queue w) with
    | [] => Fault
    | f :: r => Done f (set_queue (rev r) w)
    end.

(** [buffer->data], [buffer->size] of a buffer pointer that may be NULL. *)
Definition deref (b : option (list Z)) : M (list Z) :=
  match b with
  | None => fault
  | Some d => ret d
  end.

Definition process_frame (f : vws_frame) : M unit :=
  (if opcode f =? CLOSE_FRAME then
     vws_set_flag CNX_CLOSING ;;
     b <- vws_generate_close_frame ;;
     d <- deref b ;;
     vws_socket_write d (Z.of_nat (length d)) ;;
     vws_frame_free f
   else if (opcode f =? TEXT_FRAME) || (opcode f =? BINARY_FRAME)
           || (opcode f =? CONTINUATION_FRAME) then
     sc_queue_add_first f
   else if opcode f =? PING_FRAME then
     b <- vws_generate_pong_frame (data f) (size f) ;;
     d <- deref b ;;
     vws_socket_write d (Z.of_nat (length d)) ;;
     vws_frame_free f
   else if opcode f =? PONG_FRAME then
     vws_frame_free f
   else
     vws_frame_free f) ;;
  vws_success.

(** ** The ingress parser ([vws_cnx_ingress]) *)

(** The loop of [vws_cnx_ingress]; [process] is [c->process]. *)
Fixpoint ingress_loop (process : vws_frame -> M unit) (fuel : nat)
  (total_consumed : Z) : M Z :=
  match fuel with
  | O => out_of_fuel
  | S fuel' =>
      b <- gets buffer ;;
      if Z.of_nat (length b) =? 0 then
        vws_success ;; ret total_consumed
      else
        let consumed := 0 in
        let frame := vws_frame_new [] 0 TEXT_FRAME in
        match vws_deserialize b (Z.of_nat (length b)) frame consumed with
        | None => fault
        | Some (FRAME_ERROR, frame, _) =>
            vws_error VE_WARN ;; vws_frame_free frame ;; ret 0
        | Some (FRAME_INCOMPLETE, frame, _) =>
            vws_frame_free frame ;; ret 0
        | Some (FRAME_COMPLETE, frame, consumed) =>
            let total_consumed := u64 (total_consumed + consumed) in
            process frame ;;
            vws_buffer_drain consumed ;;
            ingress_loop process fuel' total_consumed
        end
  end.

Definition vws_cnx_ingress (process : vws_frame -> M unit) (fuel : nat)
  : M Z :=
  ingress_loop process fuel 0.

(** ** The message reassembler ([vws_msg_pop]) *)

(** Modelled from the spec: the message structure [vws_msg] (websocket.h):
    an opcode and the payload buffer. *)
Record vws_msg : Type := mk_msg {
  m_opcode : Z;
  m_data : list Z
}.

(** [vws_buffer_append(m->data, data, size)] *)
Definition vws_buffer_append (b : list Z) (d : list Z) (sz : Z) : list Z :=
  match d with
  | [] => b
  | _ => b ++ firstn (Z.to_nat sz) d
  end.

Definition has_complete_message : M bool :=
  gets (fun w => existsb (fun f => fin f =? 1) (queue w)).

(** The do-while loop of [vws_msg_pop]. *)
Fixpoint msg_pop_loop (fuel : nat) (m : vws_msg) : M vws_msg :=
  match fuel with
  | O => out_of_fuel
  | S fuel' =>
      f <- sc_queue_del_last ;;
      let m := if m_opcode m =? 100 then mk_msg (opcode f) (m_data m) else m in
      let m := mk_msg (m_opcode m)
                 (vws_buffer_append (m_data m) (data f) (size f)) in
      let complete := fin f =? 1 in
      vws_frame_free f ;;
      if complete then ret m else msg_pop_loop fuel' m
  end.

(** Every turn of the loop takes a frame off the queue, so one turn more than
    the queue is long is all the loop can make before it faults. *)
Definition vws_msg_pop : M (option vws_msg) :=
  c <- has_complete_message ;;
  if negb c then ret None
  else
    n <- gets (fun w => length (queue w)) ;;
    m <- msg_pop_loop (S n) (mk_msg 100 []) ;;
    ret (Some m).

(** ** Sending ([vws_frame_send] and its wrappers) *)

Definition vws_cnx_is_connected : M bool :=
  c <- vws_socket_is_connected ;;
  if negb c then vws_error VE_SOCKET ;; ret false
  else ret true.

Definition vws_frame_send (frame : vws_frame) : M Z :=
  c <- vws_cnx_is_connected ;;
  if negb c then ret (-1)
  else
    binary <- vws_serialize (Some frame) ;;
    d <- deref binary ;;
    n <- vws_socket_write d (Z.of_nat (length d)) ;;
    c <- vws_cnx_is_connected ;;
    if negb c then ret (-1)
    else vws_success ;; ret n.

(** [strlen]: the characters before the first NUL (or the end of the list,
    where the terminator sits). *)
Fixpoint strlen (s : list Z) : nat :=
  match s with
  | [] => 0
  | c :: s' => if c =? 0 then 0 else S (strlen s')
  end.

Definition vws_frame_send_data (d : list Z) (sz : Z) (oc : Z) : M Z :=
  vws_frame_send (vws_frame_new d sz oc).

Definition vws_msg_send_text (d : list Z) : M Z :=
  vws_frame_send_data d (Z.of_nat (strlen d)) 1.

Definition vws_msg_send_binary (d : list Z) (sz : Z) : M Z :=
  vws_frame_send_data d sz 2.

(** ** Graceful close ([vws_disconnect]) *)

(** The loop that writes the CLOSE frame. *)
Fixpoint disconnect_loop (fuel : nat) (b : list Z) (i : Z) : M unit :=
  match fuel with
  | O => out_of_fuel
  | S fuel' =>
      if i <? Z.of_nat (length b) then
        n <- vws_socket_write (skipn (Z.to_nat i) b)
               (Z.of_nat (length b) - i) ;;
        if n <? 0 then ret tt
        else disconnect_loop fuel' b (u64 (i + n))
      else ret tt
  end.

(** [disconnect] is [c->disconnect], [None] when it is NULL. *)
Definition vws_disconnect (disconnect : option (M unit)) (fuel : nat)
  : M unit :=
  c <- vws_cnx_is_connected ;;
  if negb c then ret tt
  else
    (match disconnect with
     | Some hook => hook
     | None => ret tt
     end) ;;
    modify (set_flags CNX_CLOSED) ;;
    b <- vws_generate_close_frame ;;
    d <- deref b ;;
    disconnect_loop fuel d 0 ;;
    vws_socket_disconnect.

(** ** Reconnecting ([cnx_connect], [vws_reconnect]) *)

Fixpoint strcmp (a b : list Z) : Z :=
  match a, b with
  | [], [] => 0
  | [], y :: _ => 0 - y
  | x :: _, [] => x
  | x :: a', y :: b' =>
      if x =? y then (if x =? 0 then 0 else strcmp a' b') else x - y
  end.

(** The characters of a string literal. *)
Definition lit (s : string) : list Z :=
  map (fun c => Z.of_N (N_of_ascii c)) (list_ascii_of_string s).

(** [atoi]: leading white space, an optional sign, then decimal digits up to
    the first character that is none.  The result is the number the digits
    denote; the C function returns an [int], and on digits that denote a
    number outside the range of [int] its behaviour is undefined. *)
Fixpoint atoi_digits (acc : Z) (s : list Z) : Z :=
  match s with
  | [] => acc
  | c :: s' =>
      if (48 <=? c) && (c <=? 57) then atoi_digits (10 * acc + (c - 48)) s'
      else acc
  end.

Fixpoint atoi (s : list Z) : Z :=
  match s with
  | [] => 0
  | c :: s' =>
      if (c =? 32) || ((9 <=? c) && (c <=? 13)) then atoi s'
      else if c =? 45 then - atoi_digits 0 s'
      else if c =? 43 then atoi_digits 0 s'
      else atoi_digits 0 s
  end.

Section Reconnect.

(** [vws_socket_connect(c, host, port, ssl)] resolves the host, opens the
    socket, runs TLS and the handshake hook: whether it succeeds is up to
    the network, so the connection code is read against any behaviour of
    it. *)
Variable vws_socket_connect : list Z -> Z -> bool -> M bool.

Definition cnx_connect : M bool :=
  u <- gets url ;;
  match u with
  | None => fault
  | Some u =>
      match host u with
      | None => vws_error VE_MEM ;; ret false
      | Some h =>
          let default_port :=
            if strcmp (protocol u) (lit "wss") =? 0
            then lit "443" else lit "80" in
          let p :=
            match port u with
            | Some p => p
            | None => default_port
            end in
          let ssl := if strcmp (protocol u) (lit "wss") =? 0
                     then true else false in
          vws_socket_connect h (atoi p) ssl
      end
  end.

Definition vws_reconnect : M bool :=
  c <- vws_cnx_is_connected ;;
  if c then ret true
  else
    u <- gets url ;;
    (match u with
     | Some _ => cnx_connect ;; ret tt
     | None => ret tt
     end) ;;
    ret false.

End Reconnect.

(** ** The accept key ([vws_accept_key], [verify_handshake]) *)

(** *** SHA-1, as OpenSSL's [SHA1] computes it (FIPS 180-4) *)

Module Sha1.

Definition w32 (z : Z) : Z := z mod 2 ^ 32.

Definition rotl (n : Z) (x : Z) : Z :=
  Z.lor (w32 (Z.shiftl x n)) (Z.shiftr x (32 - n)).

Definition add (a b : Z) : Z := w32 (a + b).

Definition lnot (x : Z) : Z := Z.lxor x 4294967295.

(** Big-endian bytes of a value, [n] of them. *)
Fixpoint be_bytes (n : nat) (v : Z) : list Z :=
  match n with
  | O => []
  | S n' => be_bytes n' (Z.shiftr v 8) ++ [Z.land v 255]
  end.

Definition be_word (bs : list Z) : Z :=
  fold_left (fun acc b => acc * 256 + b) bs 0.

(** Padding: 0x80, zeros up to 56 modulo 64, the bit length on 8 bytes. *)
Definition pad (msg : list Z) : list Z :=
  let l := length msg in
  let zeros := ((64 - ((l + 9) mod 64)) mod 64)%nat in
  msg ++ [128] ++ repeat 0 zeros ++ be_bytes 8 (8 * Z.of_nat l).

Fixpoint words (n : nat) (bs : list Z) : list Z :=
  match n with
  | O => []
  | S n' => be_word (firstn 4 bs) :: words n' (skipn 4 bs)
  end.

(** The message schedule, most recent word first. *)
Fixpoint schedule (n : nat) (ws : list Z) : list Z :=
  match n with
  | O => ws
  | S n' =>
      let w := rotl 1 (Z.lxor (Z.lxor (nth 2 ws 0) (nth 7 ws 0))
                             (Z.lxor (nth 13 ws 0) (nth 15 ws 0))) in
      schedule n' (w :: ws)
  end.

Definition f_k (t : nat) (b c d : Z) : Z * Z :=
  if (t <? 20)%nat then
    (Z.lor (Z.land b c) (Z.land (lnot b) d), 1518500249)
  else if (t <? 40)%nat then
    (Z.lxor (Z.lxor b c) d, 1859775393)
  else if (t <? 60)%nat then
    (Z.lor (Z.lor (Z.land b c) (Z.land b d)) (Z.land c d), 2400959708)
  else
    (Z.lxor (Z.lxor b c) d, 3395469782).

Definition state : Type := (Z * Z * Z * Z * Z)%type.

Fixpoint rounds (t : nat) (ws : list Z) (s : state) : state :=
  match ws with
  | [] => s
  | w :: ws' =>
      let '(a, b, c, d, e) := s in
      let '(f, k) := f_k t b c d in
      let tmp := add (add (add (add (rotl 5 a) f) e) k) w in
      rounds (S t) ws' (tmp, a, rotl 30 b, c, d)
  end.

Definition block (s : state) (bs : list Z) : state :=
  let ws := rev (schedule 64 (rev (words 16 bs))) in
  let '(a, b, c, d, e) := rounds 0 ws s in
  let '(h0, h1, h2, h3, h4) := s in
  (add h0 a, add h1 b, add h2 c, add h3 d, add h4 e).

Fixpoint blocks (n : nat) (s : state) (bs : list Z) : state :=
  match n with
  | O => s
  | S n' => blocks n' (block s (firstn 64 bs)) (skipn 64 bs)
  end.

Definition init : state :=
  (1732584193, 4023233417, 2562383102, 271733878, 3285377520).

Definition SHA1 (msg : list Z) : list Z :=
  let p := pad msg in
  let '(h0, h1, h2, h3, h4) := blocks (length p / 64) init p in
  be_bytes 4 h0 ++ be_bytes 4 h1 ++ be_bytes 4 h2 ++ be_bytes 4 h3
    ++ be_bytes 4 h4.

End Sha1.

(** *** Base64, as the [BIO_f_base64] filter without newlines produces it
    (RFC 4648, padding kept) *)

Definition base64_char (i : Z) : Z :=
  if i <? 26 then 65 + i
  else if i <? 52 then 97 + (i - 26)
  else if i <? 62 then 48 + (i - 52)
  else if i =? 62 then 43
  else 47.

Fixpoint vws_base64_encode (d : list Z) : list Z :=
  match d with
  | [] => []
  | [a] =>
      [base64_char (Z.shiftr a 2);
       base64_char (Z.shiftl (Z.land a 3) 4);
       61; 61]
  | [a; b] =>
      [base64_char (Z.shiftr a 2);
       base64_char (Z.lor (Z.shiftl (Z.land a 3) 4) (Z.shiftr b 4));
       base64_char (Z.shiftl (Z.land b 15) 2);
       61]
  | a :: b :: c :: d' =>
      base64_char (Z.shiftr a 2)
      :: base64_char (Z.lor (Z.shiftl (Z.land a 3) 4) (Z.shiftr b 4))
      :: base64_char (Z.lor (Z.shiftl (Z.land b 15) 2) (Z.shiftr c 6))
      :: base64_char (Z.land c 63)
      :: vws_base64_encode d'
  end.

(** *** The accept key *)

(** The [n] characters [strncpy(dst, src, n)] writes: those of [src], padded
    with NULs when [src] is shorter. *)
Definition strncpy (src : list Z) (n : nat) : list Z :=
  let s := firstn n (firstn (strlen src) src) in
  s ++ repeat 0 (n - length s).

(** A store of [bytes] at offset [off] of a buffer. *)
Definition store (buf : list Z) (off : nat) (bytes : list Z) : list Z :=
  firstn off buf ++ bytes ++ skipn (off + length bytes) buf.

Definition websocket_guid : list Z :=
  lit "258EAFA5-E914-47DA-95CA-C5AB0DC85B11".

Definition vws_accept_key (key : list Z) : list Z :=
  let key_length := strlen key in
  let guid_length := strlen websocket_guid in
  let input_length := (key_length + guid_length)%nat in
  let input := repeat 0 (input_length + 1) in
  let input := store input 0 (strncpy key key_length) in
  let input := store input key_length (strncpy websocket_guid guid_length) in
  let input := store input input_length [0] in
  let hash := Sha1.SHA1 (firstn input_length input) in
  vws_base64_encode hash.

Definition verify_handshake (key response : list Z) : bool :=
  let hash := vws_accept_key key in
  let result := strcmp hash response in
  result =? 0.

(** * Vocabulary of the statements and concrete inputs *)

Definition is_byte (b : Z) : Prop := 0 <= b < 256.

(** The number a byte sequence denotes in big-endian order. *)
Definition be_value (bs : list Z) : Z :=
  fold_left (fun acc b => acc * 256 + b) bs 0.

(** How byte 1 and the extended length describe a payload length [n]. *)
Definition length_coded (b1 : Z) (ext : list Z) (n : Z) : Prop :=
  (Z.land b1 127 = n /\ n <= 125 /\ ext = []) \/
  (Z.land b1 127 = 126 /\ length ext = 2%nat /\ Forall is_byte ext
   /\ be_value ext = n) \/
  (Z.land b1 127 = 127 /\ length ext = 8%nat /\ Forall is_byte ext
   /\ be_value ext = n).

(** The encoding the serializer chooses for a payload length [n]: the length
    field [lf] and the extended-length bytes [ext]. *)
Definition length_canonical (lf : Z) (ext : list Z) (n : Z) : Prop :=
  (n <= 125 /\ lf = n /\ ext = []) \/
  (125 < n <= 65535 /\ lf = 126 /\ length ext = 2%nat /\ Forall is_byte ext
   /\ be_value ext = n) \/
  (65535 < n /\ lf = 127 /\ length ext = 8%nat /\ Forall is_byte ext
   /\ be_value ext = n).

(** What [vws_serialize] does to the world. *)
Definition serialized_world (f : vws_frame) (w : world) : world :=
  set_e_code VE_NONE (set_freed (freed w ++ [f]) w).

Definition hello_frame : vws_frame :=
  vws_frame_new (lit "hello") 5 TEXT_FRAME.

Definition idle_world : world :=
  {| sockfd := 3; ssl := false; buffer := []; flags := CNX_CLOSED;
     queue := []; url := None; e_code := VE_NONE;
     rand := fun _ => Some (1, 2, 3, 4); rand_ix := 0;
     net := fun _ => PollReady POLLOUT 8; net_ix := 0;
     sys := fun _ => 0; sys_ix := 0;
     written := []; freed := [] |}.

(** A complete 10-byte header of an unmasked binary frame that declares a
    payload of 2^64 - 10 bytes, with no payload byte behind it. *)
Definition wrapping_header : list Z :=
  [130; 127; 255; 255; 255; 255; 255; 255; 255; 246].

(** The same with the mask bit set and a declared length of 2^64 - 14. *)
Definition wrapping_header_masked : list Z :=
  [130; 255; 255; 255; 255; 255; 255; 255; 255; 242].

(** What the reassembler relies on in a queued frame: the opcode is not 100,
    the value the loop takes for "no opcode yet", and [size] is the length of
    the payload. *)
Definition queued_ok (f : vws_frame) : Prop :=
  opcode f <> 100 /\ size f = Z.of_nat (length (data f)).

(** The message the loop builds from the frames [fs] it dequeues, starting
    from the message [m]. *)
Definition collect (m : vws_msg) (fs : list vws_frame) : vws_msg :=
  mk_msg (if m_opcode m =? 100
          then match fs with f :: _ => opcode f | [] => 100 end
          else m_opcode m)
         (m_data m ++ concat (map data fs)).

Definition text_ab : vws_frame :=
  {| fin := 0; opcode := TEXT_FRAME; mask := 0; offset := 2; size := 2;
     data := lit "ab" |}.

Definition continuation_cd : vws_frame :=
  {| fin := 1; opcode := CONTINUATION_FRAME; mask := 0; offset := 2;
     size := 2; data := lit "cd" |}.

(** A connection that has received the two fragments of a text message. *)
Definition two_fragments : world :=
  set_queue [continuation_cd; text_ab] idle_world.

(** The fields of the connection proper. *)
Definition same_connection (w w' : world) : Prop :=
  sockfd w' = sockfd w /\ ssl w' = ssl w /\ buffer w' = buffer w /\
  flags w' = flags w /\ queue w' = queue w /\ url w' = url w.

(** A buffer that parses, whatever the frame and counter handed in, as one
    whole final frame of the given opcode and payload. *)
Definition serialized_frame (buf : list Z) (oc : Z) (payload : list Z)
  : Prop :=
  forall f0 c0, exists f',
    vws_deserialize buf (Z.of_nat (length buf)) f0 c0
    = Some (FRAME_COMPLETE, f', Z.of_nat (length buf)) /\
    fin f' = 1 /\ opcode f' = oc /\ data f' = payload /\
    size f' = Z.of_nat (length payload).

Definition ping_x : vws_frame :=
  {| fin := 1; opcode := PING_FRAME; mask := 0; offset := 2; size := 1;
     data := lit "x" |}.

(** The receive buffer holds a whole unmasked empty TEXT frame and the first
    byte of the next frame. *)
Definition frame_and_a_byte : world :=
  set_buffer [129; 0; 129] idle_world.

(** The receive buffer holds two whole unmasked empty TEXT frames. *)
Definition two_frames : world :=
  set_buffer [129; 0; 129; 0] idle_world.

Definition empty_text : vws_frame :=
  {| fin := 1; opcode := TEXT_FRAME; mask := 0; offset := 2; size := 0;
     data := [] |}.

Definition cstring (s : list Z) : Prop := ~ In 0 s.

(** A connection whose socket is closed. *)
Definition closed_world : world := set_sockfd (-1) idle_world.

(** A closed connection that remembers the URL [ws://echo.example/path]. *)
Definition closed_with_url : world :=
  {| sockfd := -1; ssl := false; buffer := []; flags := CNX_CLOSED;
     queue := [];
     url := Some {| host := Some (lit "echo.example");
                    protocol := lit "ws"; port := None |};
     e_code := VE_NONE;
     rand := fun _ => Some (1, 2, 3, 4); rand_ix := 0;
     net := fun _ => PollReady POLLOUT 8; net_ix := 0;
     sys := fun _ => 0; sys_ix := 0;
     written := []; freed := [] |}.

(** A network on which every connection attempt succeeds. *)
Definition connect_succeeds : list Z -> Z -> bool -> M bool :=
  fun _ _ _ w => Done true (set_e_code VE_NONE (set_sockfd 4 w)).

(** A disconnect callback that drops what is left in the receive buffer. *)
Definition note_disconnect : M unit := modify (set_buffer []).

(** What the user's disconnect callback does when it is called. *)
Definition run_hook (disconnect : option (M unit)) : M unit :=
  match disconnect with
  | Some hook => hook
  | None => ret tt
  end.

(** The receive buffer after [vws_buffer_drain] has taken [n] bytes. *)
Definition drained (n : Z) (b : list Z) : list Z :=
  match b with
  | [] => []
  | _ => if n >=? Z.of_nat (length b) then [] else skipn (Z.to_nat n) b
  end.

(** A buffer on which the parser finds no whole frame: it is empty or
    [vws_deserialize] calls it incomplete. *)
Definition incomplete_rest (r : list Z) : Prop :=
  r = [] \/
  (r <> [] /\
   exists f c,
     vws_deserialize r (Z.of_nat (length r)) (vws_frame_new [] 0 TEXT_FRAME) 0
     = Some (FRAME_INCOMPLETE, f, c)).

(** [parsed b fs r]: the buffer [b] holds the whole frames [fs], each with
    the number of bytes it takes, followed by the rest [r]. *)
Inductive parsed : list Z -> list (vws_frame * Z) -> list Z -> Prop :=
| parsed_rest (r : list Z) : incomplete_rest r -> parsed r [] r
| parsed_frame (b : list Z) (f : vws_frame) (c : Z)
    (fs : list (vws_frame * Z)) (r : list Z) :
    b <> [] ->
    vws_deserialize b (Z.of_nat (length b)) (vws_frame_new [] 0 TEXT_FRAME) 0
    = Some (FRAME_COMPLETE, f, c) ->
    parsed (drained c b) fs r ->
    parsed b ((f, c) :: fs) r.

(** Handing the frames to [process] one after the other, draining the bytes
    of each one once it has been handled. *)
Fixpoint dispatch_all (process : vws_frame -> M unit)
  (fs : list (vws_frame * Z)) : M unit :=
  match fs with
  | [] => ret tt
  | (f, c) :: fs' =>
      process f ;; vws_buffer_drain c ;; dispatch_all process fs'
  end.

(** [total_consumed] after the frames [fs], starting from [t]. *)
Definition consumed_total (t : Z) (fs : list (vws_frame * Z)) : Z :=
  fold_left (fun a fc => u64 (a + snd fc)) fs t.

(** * Further code *)

(** ** Reading from the socket ([vws_socket_read]) *)

Definition POLLIN : Z := 1.

(** What a call of [vws_socket_read] meets: [poll] fails, [poll] times out,
    or [poll] reports [revents] and the following [recv] (or [SSL_read])
    returns [n], having put [received] at the start of [data]. *)
Inductive read_event : Type :=
| ReadFailed
| ReadTimeout
| ReadReady (revents : Z) (n : Z) (received : list Z).

(** [vws_socket_read(c)].  When [revents] lacks POLLIN the C code uses [n]
    without having set it: that run is a fault. *)
Definition vws_socket_read (ev : read_event) : M Z :=
  vws_success ;;
  match ev with
  | ReadFailed => vws_error VE_RT ;; ret (-1)
  | ReadTimeout => vws_error VE_WARN ;; ret 0
  | ReadReady revents n received =>
      if negb (Z.land revents POLLIN =? 0) then
        s <- gets ssl ;;
        (if s then ret tt
         else if n =? -1 then vws_error VE_WARN else ret tt) ;;
        (if 0 <? n then
           modify (fun w =>
             set_buffer (vws_buffer_append (buffer w) received n) w)
         else vws_error VE_WARN) ;;
        ret n
      else fault
  end.

(** ** Waiting for frames ([socket_wait_for_frame], [vws_frame_recv],
    [vws_msg_recv]) *)

(** The reads to come are handed in as a list and what is left of it is
    handed back; a read past the end of the list is a run that has not ended.
    [process] is [c->process], [fuel] bounds the turns of the ingress loop. *)
Fixpoint wait_loop (process : vws_frame -> M unit) (fuel : nat)
  (evs : list read_event) : M (Z * list read_event) :=
  match evs with
  | [] => out_of_fuel
  | ev :: evs' =>
      n <- vws_socket_read ev ;;
      if n <=? 0 then ret (n, evs')
      else
        r <- vws_cnx_ingress process fuel ;;
        if 0 <? r then ret (n, evs') else wait_loop process fuel evs'
  end.

Definition socket_wait_for_frame (process : vws_frame -> M unit)
  (fuel : nat) (evs : list read_event) : M (Z * list read_event) :=
  vws_success ;;
  c <- vws_cnx_is_connected ;;
  if negb c then ret (-1, evs) else wait_loop process fuel evs.

(** The loop of [vws_frame_recv].  A turn that does not return has taken at
    least one read off the list, so [turns] is set to one more than the list
    is long. *)
Fixpoint frame_recv_loop (process : vws_frame -> M unit) (fuel : nat)
  (turns : nat) (evs : list read_event)
  : M (option vws_frame * list read_event) :=
  match turns with
  | O => out_of_fuel
  | S turns' =>
      q <- gets queue ;;
      if 0 <? Z.of_nat (length q) then
        f <- sc_queue_del_last ;; ret (Some f, evs)
      else
        r <- socket_wait_for_frame process fuel evs ;;
        if fst r <=? 0 then ret (None, snd r)
        else frame_recv_loop process fuel turns' (snd r)
  end.

Definition vws_frame_recv (process : vws_frame -> M unit) (fuel : nat)
  (evs : list read_event) : M (option vws_frame * list read_event) :=
  vws_success ;;
  c <- vws_cnx_is_connected ;;
  if negb c then ret (None, evs)
  else frame_recv_loop process fuel (S (length evs)) evs.

Fixpoint msg_recv_loop (process : vws_frame -> M unit) (fuel : nat)
  (turns : nat) (evs : list read_event)
  : M (option vws_msg * list read_event) :=
  match turns with
  | O => out_of_fuel
  | S turns' =>
      msg <- vws_msg_pop ;;
      match msg with
      | Some m => ret (Some m, evs)
      | None =>
          r <- socket_wait_for_frame process fuel evs ;;
          if fst r <=? 0 then ret (None, snd r)
          else msg_recv_loop process fuel turns' (snd r)
      end
  end.

Definition vws_msg_recv (process : vws_frame -> M unit) (fuel : nat)
  (evs : list read_event) : M (option vws_msg * list read_event) :=
  vws_success ;;
  c <- vws_cnx_is_connected ;;
  if negb c then ret (None, evs)
  else msg_recv_loop process fuel (S (length evs)) evs.

(** ** Keys and identifiers ([generate_websocket_key],
    [vrtql_generate_uuid]) *)

(** [random_bytes] is what [RAND_bytes(random_bytes, 16)] delivered, [None]
    when it failed. *)
Definition generate_websocket_key (random_bytes : option (list Z))
  : option (list Z) :=
  match random_bytes with
  | None => None
  | Some r => Some (vws_base64_encode r)
  end.

(** The loop of [vrtql_generate_uuid] over the encoded characters. *)
Definition uuid_char (c : Z) : Z :=
  if (c =? 61) || (c =? 10) || (c =? 13) || (c =? 45) then 95 else c.

Definition vrtql_generate_uuid (random_bytes : option (list Z))
  : option (list Z) :=
  match random_bytes with
  | None => None
  | Some uuid =>
      let uuid := store uuid 6 [Z.lor (Z.land (nth 6 uuid 0) 15) 64] in
      let uuid := store uuid 8 [Z.lor (Z.land (nth 8 uuid 0) 63) 128] in
      let encoded_uuid := vws_base64_encode uuid in
      let encoded_uuid_length := strlen encoded_uuid in
      Some (map uuid_char (firstn encoded_uuid_length encoded_uuid)
            ++ skipn encoded_uuid_length encoded_uuid)
  end.

(** ** URLs ([vrtql_url_parse], [vrtql_url_build]) *)

Record vrtql_url : Type := mk_vrtql_url {
  url_scheme : option (list Z);
  url_host : option (list Z);
  url_port : option (list Z);
  url_path : option (list Z);
  url_query : option (list Z);
  url_fragment : option (list Z)
}.

Fixpoint is_prefix (p s : list Z) : bool :=
  match p, s with
  | [], _ => true
  | _ :: _, [] => false
  | x :: p', y :: s' => (x =? y) && is_prefix p' s'
  end.

(** [strstr(s, sep)]: the offset of the first place where [sep] starts. *)
Fixpoint strstr (s sep : list Z) : option nat :=
  if is_prefix sep s then Some O
  else
    match s with
    | [] => None
    | _ :: s' =>
        match strstr s' sep with
        | Some i => Some (S i)
        | None => None
        end
    end.

(** [strchr(s, c)]: the offset of the first [c]. *)
Fixpoint strchr (s : list Z) (c : Z) : option nat :=
  match s with
  | [] => None
  | x :: s' =>
      if x =? c then Some O
      else
        match strchr s' c with
        | Some i => Some (S i)
        | None => None
        end
  end.

(** [url_extract_part(url, sep, rest)]: the part before [sep] and, in
    [*rest], a copy of what follows [sep]; NULL, with [*rest] untouched, when
    [sep] does not occur. *)
Definition url_extract_part (url sep : list Z)
  : option (list Z * list Z) :=
  match strstr url sep with
  | None => None
  | Some part_length =>
      Some (strncpy url part_length,
            skipn (part_length + strlen sep) url)
  end.

(** [vrtql_url_extract_port(&host)]: the port and the host as it is left. *)
Definition vrtql_url_extract_port (h : list Z)
  : option (list Z) * list Z :=
  match strchr h 58 with
  | None => (None, h)
  | Some i => (Some (skipn (S i) h), firstn i h)
  end.

(** [vrtql_url_parse(url)].  When no [/] is left to end the host, the code
    copies [url] into the host, frees [url] and then takes [strlen(url)]:
    that run is a fault. *)
Definition vrtql_url_parse (url : list Z) : M vrtql_url :=
  let '(scheme, url) :=
    match url_extract_part url (lit "://") with
    | Some (part, rest) => (Some part, rest)
    | None => (None, url)
    end in
  let '(fragment, url) :=
    match url_extract_part url (lit "#") with
    | Some (part, rest) => (Some part, rest)
    | None => (None, url)
    end in
  let '(query, url) :=
    match url_extract_part url (lit "?") with
    | Some (part, rest) => (Some part, rest)
    | None => (None, url)
    end in
  match url_extract_part url (lit "/") with
  | Some (h, rest) =>
      let url := rest in
      let path :=
        if nth 0 url 0 =? 47 then url else 47 :: url in
      let '(p, h) := vrtql_url_extract_port h in
      ret {| url_scheme := scheme; url_host := Some h; url_port := p;
             url_path := Some path; url_query := query;
             url_fragment := fragment |}
  | None => vws_error VE_MEM ;; fault
  end.

(** [snprintf(dst, n, ...)] keeps at most [n - 1] characters. *)
Definition snprintf (n : nat) (s : list Z) : list Z := firstn (n - 1) s.

Definition opt_strlen (prefix : nat) (s : option (list Z)) : nat :=
  match s with
  | Some s => (strlen s + prefix)%nat
  | None => 0%nat
  end.

Definition vrtql_url_build (parts : vrtql_url) : list Z :=
  let total_length :=
    (1 + opt_strlen 3 (url_scheme parts) + opt_strlen 0 (url_host parts)
     + opt_strlen 1 (url_port parts) + opt_strlen 0 (url_path parts)
     + opt_strlen 1 (url_query parts)
     + opt_strlen 1 (url_fragment parts))%nat in
  let url := [] in
  let url :=
    match url_scheme parts with
    | Some s => url ++ snprintf total_length (s ++ lit "://")
    | None => url
    end in
  let url :=
    match url_host parts with
    | Some s => url ++ snprintf total_length s
    | None => url
    end in
  let url :=
    match url_port parts with
    | Some s => url ++ snprintf total_length (lit ":" ++ s)
    | None => url
    end in
  let url :=
    match url_path parts with
    | Some s => url ++ snprintf total_length s
    | None => url
    end in
  let url :=
    match url_query parts with
    | Some s => url ++ snprintf total_length (lit "?" ++ s)
    | None => url
    end in
  match url_fragment parts with
  | Some s => url ++ snprintf total_length (lit "#" ++ s)
  | None => url
  end.

(** ** Buffers with their allocation ([vrtql_buffer_append],
    [vrtql_buffer_drain]) *)

(** A buffer as [vrtql.c] keeps it: [data] is NULL or a block of [allocated]
    bytes, of which the first [size] are the content. *)
Record vrtql_buffer : Type := mk_buffer {
  b_data : option (list Z);
  b_allocated : Z;
  b_size : Z
}.

Definition vrtql_buffer_new : vrtql_buffer := mk_buffer None 0 0.

Definition vrtql_buffer_clear (buffer : vrtql_buffer) : vrtql_buffer :=
  mk_buffer None 0 0.

(** [(size_t)(n * 1.5)], the product taken in [double], for [n] below 2^52.
    A product below 2^52 is held exactly and loses its half in the
    conversion; from 2^52 on a [double] holds whole numbers only, and a
    product with a half is rounded to the even one of its neighbours. *)
Definition times_one_and_a_half (n : Z) : Z :=
  let q := n * 3 / 2 in
  if (n * 3 <? 2 ^ 53) || Z.even (n * 3) || Z.even q then q else q + 1.

Section Allocation.

(** What the memory that [malloc] and [realloc] hand out holds: unknown. *)
Variable junk : list Z.

(** [realloc(data, n)] (or [malloc(n)] when [data] is NULL): a block of [n]
    bytes that starts with the old bytes. *)
Definition realloc (blk : option (list Z)) (n : Z) : list Z :=
  let old := match blk with Some l => l | None => [] end in
  firstn (Z.to_nat n) (old ++ junk ++ repeat 0 (Z.to_nat n)).

(** [vrtql_buffer_append(buffer, data, size)], [None] when the [memcpy]
    leaves the block or the source. *)
Definition vrtql_buffer_append (buffer : vrtql_buffer)
  (data : option (list Z)) (size : Z) : option vrtql_buffer :=
  match data with
  | None => Some buffer
  | Some src =>
      let total_size := u64 (b_size buffer + size) in
      let '(blk, allocated) :=
        if b_allocated buffer <? total_size then
          let allocated := times_one_and_a_half total_size in
          (Some (realloc (b_data buffer) allocated), allocated)
        else (b_data buffer, b_allocated buffer) in
      match blk with
      | None =>
          if size =? 0 then Some (mk_buffer None allocated total_size)
          else None
      | Some l =>
          if (b_size buffer + size <=? Z.of_nat (length l))
             && (size <=? Z.of_nat (length src))
          then
            Some (mk_buffer
                    (Some (store l (Z.to_nat (b_size buffer))
                             (firstn (Z.to_nat size) src)))
                    allocated total_size)
          else None
      end
  end.

End Allocation.

(** [vrtql_buffer_drain(buffer, size)], [None] when the [memmove] or the
    store of the terminator leaves the block. *)
Definition vrtql_buffer_drain (buffer : vrtql_buffer) (size : Z)
  : option vrtql_buffer :=
  match b_data buffer with
  | None => Some buffer
  | Some l =>
      if size >=? b_size buffer then Some (vrtql_buffer_clear buffer)
      else
        let n := b_size buffer - size in
        if b_size buffer <=? Z.of_nat (length l) then
          let l1 :=
            store l 0 (firstn (Z.to_nat n) (skipn (Z.to_nat size) l)) in
          if n <? Z.of_nat (length l1) then
            Some (mk_buffer (Some (store l1 (Z.to_nat n) [0]))
                    (b_allocated buffer) n)
          else None
        else None
  end.

(** * Vocabulary of the further statements *)

(** The bytes of a frame on the wire: with the key and the xor-ed payload
    when the frame is masked. *)
Definition wire (f : vws_frame) (k : key4) : list Z :=
  if mask f =? 0 then plain_frame_data f else masked_frame_data f k.

(** A frame as the parser hands it on: the offset is where the payload
    starts in the raw frame. *)
Definition received (f : vws_frame) : vws_frame :=
  mk_frame (fin f) (opcode f) (mask f)
    (Z.of_nat (length (frame_header f)) + (if mask f =? 0 then 0 else 4))
    (size f) (data f).

(** The bytes of a run of frames on the wire, each with its key. *)
Definition stream (fs : list (vws_frame * key4)) : list Z :=
  concat (map (fun fk => wire (fst fk) (snd fk)) fs).

Definition data_frame (f : vws_frame) : Prop :=
  opcode f = TEXT_FRAME \/ opcode f = BINARY_FRAME
  \/ opcode f = CONTINUATION_FRAME.

(** The frames of a run as the parser reports them, each with the number of
    bytes it takes. *)
Definition reported (fs : list (vws_frame * key4))
  : list (vws_frame * Z) :=
  map (fun fk => (received (fst fk),
                  Z.of_nat (length (wire (fst fk) (snd fk))))) fs.

(** A read that finds the socket readable and receives the bytes [c]. *)
Definition arrives (c : list Z) : read_event :=
  ReadReady POLLIN (Z.of_nat (length c)) c.

(** [free_of cs s]: none of the characters [cs] occurs in [s]. *)
Definition free_of (cs s : list Z) : Prop :=
  forall c, In c cs -> ~ In c s.

Definition opt_cstring (s : option (list Z)) : Prop :=
  match s with
  | Some s => cstring s
  | None => True
  end.

(** The text [:port], when there is a port. *)
Definition port_text (p : option (list Z)) : list Z :=
  match p with
  | Some p => lit ":" ++ p
  | None => []
  end.

(** The components of a URL written one after the other, each with its
    separator. *)
Definition url_text (parts : vrtql_url) : list Z :=
  match url_scheme parts with Some s => s ++ lit "://" | None => [] end
  ++ match url_host parts with Some s => s | None => [] end
  ++ port_text (url_port parts)
  ++ match url_path parts with Some s => s | None => [] end
  ++ match url_query parts with Some s => lit "?" ++ s | None => [] end
  ++ match url_fragment parts with Some s => lit "#" ++ s | None => [] end.

Definition with_fragment (x : option (list Z)) (parts : vrtql_url)
  : vrtql_url :=
  mk_vrtql_url (url_scheme parts) (url_host parts) (url_port parts)
    (url_path parts) (url_query parts) x.

Definition with_query (x : option (list Z)) (parts : vrtql_url)
  : vrtql_url :=
  mk_vrtql_url (url_scheme parts) (url_host parts) (url_port parts)
    (url_path parts) x (url_fragment parts).

(** What a write that polls the socket returns, by what the network does. *)
Definition write_outcome (ev : net_event) : Z :=
  match ev with
  | PollFailed => -1
  | PollTimeout => 0
  | PollReady revents bytes_sent =>
      if Z.land revents POLLOUT =? 0 then -1 else bytes_sent
  end.

(** The 64 characters that stand for a digit in Base64: letters, digits,
    [+] and [/]. *)
Definition base64_alphabet (c : Z) : Prop :=
  65 <= c <= 90 \/ 97 <= c <= 122 \/ 48 <= c <= 57 \/ c = 43 \/ c = 47.

(** The invariant of a buffer: without a block it is empty, with one the
    block has [allocated] bytes and the content fits. *)
Definition buffer_wf (b : vrtql_buffer) : Prop :=
  0 <= b_size b /\
  match b_data b with
  | None => b_size b = 0 /\ b_allocated b = 0
  | Some l => Z.of_nat (length l) = b_allocated b /\ b_size b <= b_allocated b
  end.

(** The content of a buffer: the first [size] bytes of its block. *)
Definition content (b : vrtql_buffer) : list Z :=
  match b_data b with
  | None => []
  | Some l => firstn (Z.to_nat (b_size b)) l
  end.

(** What a call of [vws_socket_write] put on the wire, by the entry it left
    in the log: [send] takes the first [n] bytes of what it is offered, and
    nothing when the call returns 0 or fails. *)
Definition taken (e : list Z * Z) : list Z :=
  firstn (Z.to_nat (snd e)) (fst e).

(** What the peer finds on the wire after one call that offered [buf] and
    returned [r]: the buffer itself when the call took all of it, and
    otherwise bytes in which the parser finds no whole frame. *)
Definition whole_or_incomplete (buf : list Z) (r : Z) : Prop :=
  (Z.of_nat (length buf) <= r -> taken (buf, r) = buf) /\
  (r < Z.of_nat (length buf) ->
   forall f0 c0, exists f',
     vws_deserialize (taken (buf, r))
       (Z.of_nat (length (taken (buf, r)))) f0 c0
     = Some (FRAME_INCOMPLETE, f', c0)).

(** The calls of a loop that offers [b] from the offset [i] on, one call for
    each event of the network, and moves on by what each call returns. *)
Fixpoint offered (b : list Z) (i : Z) (evs : list net_event)
  : list (list Z * Z) :=
  match evs with
  | [] => []
  | ev :: evs' =>
      (skipn (Z.to_nat i) b, write_outcome ev)
      :: offered b (i + write_outcome ev) evs'
  end.

(** [delivers n evs]: over the events [evs] the network takes [n] bytes, the
    last of them with the last event.  A poll may time out and a [send] may
    take a part of what it is offered, or nothing; no poll fails, the socket
    is writable whenever the poll says something, and no [send] fails. *)
Fixpoint delivers (n : Z) (evs : list net_event) : Prop :=
  match evs with
  | [] => False
  | ev :: evs' =>
      match ev with
      | PollFailed => False
      | PollTimeout => delivers n evs'
      | PollReady revents bytes_sent =>
          Z.land revents POLLOUT <> 0 /\ 0 <= bytes_sent < 2 ^ 63 /\
          if n <=? bytes_sent then evs' = [] else delivers (n - bytes_sent) evs'
      end
  end.

(** The CLOSE frame of [vws_generate_close_frame] as serialized with the
    key [k]. *)
Definition close_frame_bytes (k : key4) : list Z :=
  masked_frame_data (vws_frame_new (htons WS_CLOSE_NORMAL) 2 CLOSE_FRAME) k.

(** A network on which the first poll times out and the socket then takes
    three bytes, and five with every later write. *)
Definition hesitant_world : world :=
  {| sockfd := 3; ssl := false; buffer := []; flags := CNX_CLOSED;
     queue := []; url := None; e_code := VE_NONE;
     rand := fun _ => Some (1, 2, 3, 4); rand_ix := 0;
     net := fun i => match i with
                     | O => PollTimeout
                     | S O => PollReady POLLOUT 3
                     | _ => PollReady POLLOUT 5
                     end;
     net_ix := 0;
     sys := fun _ => 0; sys_ix := 0;
     written := []; freed := [] |}.

(** * Properties *)

(** ** Lists and machine arithmetic *)

Lemma firstn_length_app (A : Type) (a b : list A) :
  firstn (length a) (a ++ b) = a.
Proof.
  induction a as [|x a IH]; simpl; [reflexivity | now rewrite IH].
Qed.

Lemma xor_loop_length (k : key4) (d : list Z) (i : nat) :
  length (xor_loop k i d) = length d.
Proof.
  revert i; induction d as [|b d IH]; intro i; simpl;
    [reflexivity | now rewrite IH].
Qed.

(** Masking twice with the same key gives the payload back. *)
Lemma xor_loop_involutive (k : key4) (d : list Z) (i : nat) :
  xor_loop k i (xor_loop k i d) = d.
Proof.
  revert i; induction d as [|b d IH]; intro i; simpl; [reflexivity|].
  rewrite IH, Z.lxor_assoc, Z.lxor_nilpotent, Z.lxor_0_r. reflexivity.
Qed.

Lemma lor_shiftl_8 (a b : Z) :
  0 <= a -> 0 <= b < 256 -> Z.lor (Z.shiftl a 8) b = a * 256 + b.
Proof.
  intros Ha Hb.
  rewrite Z.shiftl_mul_pow2 by lia.
  change (2 ^ 8) with 256.
  rewrite <- Z.lxor_lor, <- Z.add_nocarry_lxor; try reflexivity;
    apply Z.bits_inj'; intros n Hn; rewrite Z.land_spec, Z.bits_0;
    destruct (Z.ltb_spec n 8) as [Hlt|Hge].
  - change 256 with (2 ^ 8). rewrite Z.mul_pow2_bits_low by lia. reflexivity.
  - rewrite (Z.bits_above_log2 b n), andb_false_r; [reflexivity|lia|].
    destruct (Z.eq_dec b 0) as [->|Hb0]; [simpl; lia|].
    apply Z.log2_lt_pow2; [lia|].
    apply Z.lt_le_trans with (2 ^ 8); [simpl; lia|].
    apply Z.pow_le_mono_r; lia.
  - change 256 with (2 ^ 8). rewrite Z.mul_pow2_bits_low by lia. reflexivity.
  - rewrite (Z.bits_above_log2 b n), andb_false_r; [reflexivity|lia|].
    destruct (Z.eq_dec b 0) as [->|Hb0]; [simpl; lia|].
    apply Z.log2_lt_pow2; [lia|].
    apply Z.lt_le_trans with (2 ^ 8); [simpl; lia|].
    apply Z.pow_le_mono_r; lia.
Qed.

Lemma land_255 (z : Z) : Z.land z 255 = z mod 256.
Proof. change 255 with (Z.ones 8). now rewrite Z.land_ones by lia. Qed.

Lemma shiftr_div (z n : Z) : 0 <= n -> Z.shiftr z n = z / 2 ^ n.
Proof. intro. now rewrite Z.shiftr_div_pow2. Qed.

Lemma u64_small (z : Z) : 0 <= z < 2 ^ 64 -> u64 z = z.
Proof. intro H. unfold u64. now apply Z.mod_small. Qed.

Lemma fold_be_bounds (bs : list Z) (acc : Z) :
  Forall is_byte bs -> 0 <= acc ->
  0 <= fold_left (fun a b => a * 256 + b) bs acc
    < (acc + 1) * 256 ^ Z.of_nat (length bs).
Proof.
  revert acc; induction bs as [|b bs IH]; intros acc Hb Hacc.
  - simpl. lia.
  - inversion Hb as [|? ? Hb1 Hb2]; subst. unfold is_byte in Hb1.
    cbn [fold_left length]. rewrite Nat2Z.inj_succ, Z.pow_succ_r by lia.
    specialize (IH (acc * 256 + b) Hb2 ltac:(lia)).
    assert (0 < 256 ^ Z.of_nat (length bs)) by (apply Z.pow_pos_nonneg; lia).
    split; [lia|]. nia.
Qed.

(** On at most eight bytes the shift-and-or loop of the parser computes the
    big-endian value without wrapping. *)
Lemma read_length_fold (bs : list Z) (acc : Z) :
  Forall is_byte bs -> 0 <= acc ->
  (acc + 1) * 256 ^ Z.of_nat (length bs) <= 2 ^ 64 ->
  fold_left (fun a b => u64 (Z.lor (Z.shiftl a 8) b)) bs acc
  = fold_left (fun a b => a * 256 + b) bs acc.
Proof.
  revert acc; induction bs as [|b bs IH]; intros acc Hb Hacc Hlim.
  - reflexivity.
  - inversion Hb as [|? ? Hb1 Hb2]; subst. unfold is_byte in Hb1.
    cbn [fold_left length] in *.
    rewrite Nat2Z.inj_succ, Z.pow_succ_r in Hlim by lia.
    assert (Hp : 0 < 256 ^ Z.of_nat (length bs))
      by (apply Z.pow_pos_nonneg; lia).
    rewrite lor_shiftl_8 by lia.
    rewrite u64_small by nia.
    apply IH; [assumption | lia | nia].
Qed.

Lemma read_length_be (bs : list Z) :
  Forall is_byte bs -> (length bs <= 8)%nat ->
  read_length bs = be_value bs.
Proof.
  intros Hb Hl. unfold read_length, be_value.
  apply read_length_fold; [assumption | lia |].
  rewrite Z.mul_1_l. change (2 ^ 64) with (256 ^ 8).
  apply Z.pow_le_mono_r; lia.
Qed.

Lemma is_byte_land (z : Z) : is_byte (Z.land z 255).
Proof. rewrite land_255. apply Z.mod_pos_bound. lia. Qed.

(** What the serializer writes as extended length denotes the length. *)
Lemma length_field_value (n : Z) :
  0 <= n < 2 ^ 64 ->
  (n <= 125 -> length_field n = (n, [])) /\
  (125 < n ->
   exists ext, length_field n = ((if n <=? 65535 then 126 else 127), ext) /\
     length ext = (if n <=? 65535 then 2%nat else 8%nat) /\
     Forall is_byte ext /\ be_value ext = n).
Proof.
  intros Hn. unfold length_field. split.
  - intro H. destruct (Z.leb_spec n 125); [|lia].
    unfold u8. now rewrite Z.mod_small by lia.
  - intro H. destruct (Z.leb_spec n 125); [lia|].
    destruct (Z.leb_spec n 65535).
    + eexists; split; [reflexivity|]. split; [reflexivity|].
      split; [repeat constructor; apply is_byte_land|].
      unfold be_value; cbn [fold_left].
      rewrite !land_255, !shiftr_div by lia.
      change (2 ^ 8) with 256.
      Z.to_euclidean_division_equations; lia.
    + eexists; split; [reflexivity|]. split; [reflexivity|].
      split; [repeat constructor; apply is_byte_land|].
      unfold be_value; cbn [fold_left].
      rewrite !land_255, !shiftr_div by lia.
      change (2 ^ 64) with 18446744073709551616 in Hn.
      change (2 ^ 8) with 256. change (2 ^ 16) with 65536.
      change (2 ^ 24) with 16777216. change (2 ^ 32) with 4294967296.
      change (2 ^ 40) with 1099511627776.
      change (2 ^ 48) with 281474976710656.
      change (2 ^ 56) with 72057594037927936.
      Z.to_euclidean_division_equations; lia.
Qed.

(** A property of the numbers below a bound, checked by running through
    them. *)
Lemma range_check (p : Z -> bool) (n : nat) :
  forallb p (map Z.of_nat (seq 0 n)) = true ->
  forall z, 0 <= z < Z.of_nat n -> p z = true.
Proof.
  intros H z Hz. rewrite forallb_forall in H. apply H.
  apply in_map_iff. exists (Z.to_nat z). split; [lia|].
  apply in_seq. lia.
Qed.

(** Byte 0 of a header gives [fin] and [opcode] back. *)
Lemma header0_bits (fi op : Z) :
  fi = 0 \/ fi = 1 -> 0 <= op < 16 ->
  let b := u8 (Z.lor (Z.shiftl fi 7) op) in
  Z.land (Z.shiftr b 7) 1 = fi /\ Z.land b 15 = op /\ is_byte b.
Proof.
  intros Hf Ho b. subst b.
  assert (Hb : is_byte (u8 (Z.lor (Z.shiftl fi 7) op)))
    by (apply Z.mod_pos_bound; lia).
  destruct Hf as [-> | ->].
  - pose proof (range_check
      (fun o => let b := u8 (Z.lor (Z.shiftl 0 7) o) in
                (Z.land (Z.shiftr b 7) 1 =? 0) && (Z.land b 15 =? o))
      16 eq_refl op Ho) as H.
    cbv beta zeta in H. apply andb_prop in H. destruct H as [H1 H2].
    apply Z.eqb_eq in H1, H2. auto.
  - pose proof (range_check
      (fun o => let b := u8 (Z.lor (Z.shiftl 1 7) o) in
                (Z.land (Z.shiftr b 7) 1 =? 1) && (Z.land b 15 =? o))
      16 eq_refl op Ho) as H.
    cbv beta zeta in H. apply andb_prop in H. destruct H as [H1 H2].
    apply Z.eqb_eq in H1, H2. auto.
Qed.

(** Byte 1 of a header gives the mask bit and the length field back. *)
Lemma header1_bits_masked (h : Z) :
  0 <= h < 128 ->
  let b := u8 (Z.lor h 128) in
  Z.land (Z.shiftr b 7) 1 = 1 /\ Z.land b 127 = h /\ is_byte b.
Proof.
  intros Hh b. subst b.
  assert (Hb : is_byte (u8 (Z.lor h 128))) by (apply Z.mod_pos_bound; lia).
  pose proof (range_check
    (fun x => let b := u8 (Z.lor x 128) in
              (Z.land (Z.shiftr b 7) 1 =? 1) && (Z.land b 127 =? x))
    128 eq_refl h Hh) as H.
  cbv beta zeta in H. apply andb_prop in H. destruct H as [H1 H2].
  apply Z.eqb_eq in H1, H2. auto.
Qed.

Lemma header1_bits_plain (h : Z) :
  0 <= h < 128 ->
  Z.land (Z.shiftr h 7) 1 = 0 /\ Z.land h 127 = h.
Proof.
  intros Hh.
  pose proof (range_check
    (fun x => (Z.land (Z.shiftr x 7) 1 =? 0) && (Z.land x 127 =? x))
    128 eq_refl h Hh) as H.
  cbv beta in H. apply andb_prop in H. destruct H as [H1 H2].
  apply Z.eqb_eq in H1, H2. auto.
Qed.

(** ** The parser on a well-formed frame followed by more bytes *)

Ltac frame_fields :=
  cbn [fin opcode mask offset size data
       set_fin set_opcode set_mask set_offset set_size set_data].

Ltac pow64 :=
  change (2 ^ 64) with 18446744073709551616 in *;
  change (2 ^ 63) with 9223372036854775808 in *.

Lemma ext_2 (ext : list Z) :
  length ext = 2%nat -> exists e1 e2, ext = [e1; e2].
Proof.
  destruct ext as [|e1 [|e2 [|]]]; try discriminate. eauto.
Qed.

Lemma ext_8 (ext : list Z) :
  length ext = 8%nat ->
  exists e1 e2 e3 e4 e5 e6 e7 e8, ext = [e1; e2; e3; e4; e5; e6; e7; e8].
Proof.
  destruct ext as [|e1 [|e2 [|e3 [|e4 [|e5 [|e6 [|e7 [|e8 [|]]]]]]]]];
    try discriminate.
  eauto 10.
Qed.

Lemma be_value_bounds (ext : list Z) :
  Forall is_byte ext -> 0 <= be_value ext.
Proof.
  intro H. unfold be_value.
  pose proof (fold_be_bounds ext 0 H ltac:(lia)). lia.
Qed.

Lemma deserialize_masked (b0 b1 : Z) (ext payload rest : list Z) (k : key4)
  (f0 : vws_frame) (c0 n : Z) :
  n = Z.of_nat (length payload) -> n < 2 ^ 63 ->
  Z.land (Z.shiftr b1 7) 1 = 1 ->
  length_coded b1 ext n ->
  let d := b0 :: b1 :: ext ++ key_bytes k ++ payload ++ rest in
  vws_deserialize d (Z.of_nat (length d)) f0 c0
  = Some (FRAME_COMPLETE,
          mk_frame (Z.land (Z.shiftr b0 7) 1) (Z.land b0 15) 1
            (2 + Z.of_nat (length ext) + 4) n (xor_loop k 0 payload),
          2 + Z.of_nat (length ext) + 4 + n).
Proof.
  intros Hn Hlim Hm Hc d.
  destruct k as [[[k0 k1] k2] k3].
  assert (Hlen : Z.of_nat (length d)
                 = 2 + Z.of_nat (length ext) + 4 + n + Z.of_nat (length rest)).
  { subst d. cbn [length]. rewrite !length_app. cbn [key_bytes length]. lia. }
  pow64.
  unfold vws_deserialize.
  destruct (Z.ltb_spec (Z.of_nat (length d)) 2) as [Hlt|_]; [lia|].
  frame_fields.
  change (nth 0 d 0) with b0. change (nth 1 d 0) with b1.
  rewrite Hm.
  destruct Hc as [(Hl & Hle & ->)
                 | [(Hl & Hex & Hby & Hv) | (Hl & Hex & Hby & Hv)]];
    rewrite Hl.
  - destruct (Z.eqb_spec n 126) as [|_]; [lia|].
    destruct (Z.eqb_spec n 127) as [|_]; [lia|].
    cbn [length] in *. change (Z.of_nat 0) with 0 in *.
    destruct (Z.ltb_spec (Z.of_nat (length d)) (2 + 0)) as [|_]; [lia|].
    change (0 <? 0) with false. cbv iota. frame_fields.
    change (negb (1 =? 0)) with true. cbv iota.
    rewrite (u64_small (4 + n)) by (pow64; lia).
    rewrite u64_small by (pow64; lia).
    destruct (Z.ltb_spec (Z.of_nat (length d)) (2 + 0 + (4 + n))) as [|_];
      [lia|].
    destruct (Z.leb_spec (2 + 0 + 4 + n) (Z.of_nat (length d))) as [_|];
      [|lia].
    subst d. cbn [app key_bytes].
    change (Z.to_nat (2 + 0 + 4)) with 6%nat. cbn [skipn].
    change (Z.to_nat (2 + 0)) with 2%nat.
    change (Z.to_nat (2 + 0 + 1)) with 3%nat.
    change (Z.to_nat (2 + 0 + 2)) with 4%nat.
    change (Z.to_nat (2 + 0 + 3)) with 5%nat. cbn [nth].
    rewrite Hn, Nat2Z.id, firstn_length_app.
    unfold set_data, set_offset; frame_fields.
    apply f_equal. apply f_equal2; [reflexivity | lia].
  - destruct (ext_2 ext Hex) as (e1 & e2 & ->).
    assert (Hr : read_length [e1; e2] = n)
      by (rewrite read_length_be; [assumption | assumption | simpl; lia]).
    pose proof (be_value_bounds _ Hby) as Hpos.
    change (126 =? 126) with true. cbv iota.
    cbn [length] in *. change (Z.of_nat 2) with 2 in *.
    destruct (Z.ltb_spec (Z.of_nat (length d)) (2 + 2)) as [|_]; [lia|].
    change (0 <? 2) with true. cbv iota.
    change (Z.to_nat 2) with 2%nat.
    replace (firstn 2 (skipn 2 d)) with [e1; e2] by reflexivity.
    rewrite Hr. frame_fields.
    change (negb (1 =? 0)) with true. cbv iota.
    rewrite (u64_small (4 + n)) by (pow64; lia).
    rewrite u64_small by (pow64; lia).
    destruct (Z.ltb_spec (Z.of_nat (length d)) (2 + 2 + (4 + n))) as [|_];
      [lia|].
    destruct (Z.leb_spec (2 + 2 + 4 + n) (Z.of_nat (length d))) as [_|];
      [|lia].
    subst d. cbn [app key_bytes].
    change (Z.to_nat (2 + 2 + 4)) with 8%nat. cbn [skipn].
    change (Z.to_nat (2 + 2)) with 4%nat.
    change (Z.to_nat (2 + 2 + 1)) with 5%nat.
    change (Z.to_nat (2 + 2 + 2)) with 6%nat.
    change (Z.to_nat (2 + 2 + 3)) with 7%nat. cbn [nth].
    rewrite Hn, Nat2Z.id, firstn_length_app.
    unfold set_data, set_offset; frame_fields.
    apply f_equal. apply f_equal2; [reflexivity | lia].
  - destruct (ext_8 ext Hex) as (e1 & e2 & e3 & e4 & e5 & e6 & e7 & e8 & ->).
    assert (Hr : read_length [e1; e2; e3; e4; e5; e6; e7; e8] = n)
      by (rewrite read_length_be; [assumption | assumption | simpl; lia]).
    pose proof (be_value_bounds _ Hby) as Hpos.
    change (127 =? 126) with false. change (127 =? 127) with true. cbv iota.
    cbn [length] in *. change (Z.of_nat 8) with 8 in *.
    destruct (Z.ltb_spec (Z.of_nat (length d)) (2 + 8)) as [|_]; [lia|].
    change (0 <? 8) with true. cbv iota.
    change (Z.to_nat 8) with 8%nat.
    replace (firstn 8 (skipn 2 d)) with [e1; e2; e3; e4; e5; e6; e7; e8]
      by reflexivity.
    rewrite Hr. frame_fields.
    change (negb (1 =? 0)) with true. cbv iota.
    rewrite (u64_small (4 + n)) by (pow64; lia).
    rewrite u64_small by (pow64; lia).
    destruct (Z.ltb_spec (Z.of_nat (length d)) (2 + 8 + (4 + n))) as [|_];
      [lia|].
    destruct (Z.leb_spec (2 + 8 + 4 + n) (Z.of_nat (length d))) as [_|];
      [|lia].
    subst d. cbn [app key_bytes].
    change (Z.to_nat (2 + 8 + 4)) with 14%nat. cbn [skipn].
    change (Z.to_nat (2 + 8)) with 10%nat.
    change (Z.to_nat (2 + 8 + 1)) with 11%nat.
    change (Z.to_nat (2 + 8 + 2)) with 12%nat.
    change (Z.to_nat (2 + 8 + 3)) with 13%nat. cbn [nth].
    rewrite Hn, Nat2Z.id, firstn_length_app.
    unfold set_data, set_offset; frame_fields.
    apply f_equal. apply f_equal2; [reflexivity | lia].
Qed.

Lemma length_canonical_coded (b1 : Z) (ext : list Z) (n : Z) :
  length_canonical (Z.land b1 127) ext n -> length_coded b1 ext n.
Proof.
  unfold length_canonical, length_coded. intuition.
Qed.

(** The header of a well-formed frame, byte by byte. *)
Lemma frame_header_shape (f : vws_frame) :
  frame_wf f ->
  exists b1 ext,
    frame_header f = Z.lor (Z.shiftl (fin f) 7) (opcode f) :: b1 :: ext /\
    Z.land (Z.shiftr (Z.lor (Z.shiftl (fin f) 7) (opcode f)) 7) 1 = fin f /\
    Z.land (Z.lor (Z.shiftl (fin f) 7) (opcode f)) 15 = opcode f /\
    Z.land (Z.shiftr b1 7) 1 = mask f /\
    b1 = Z.lor (Z.shiftl (mask f) 7) (Z.land b1 127) /\
    length_canonical (Z.land b1 127) ext (size f).
Proof.
  intros [Hfin Hop Hmask Hsize Hbound].
  assert (Hpos : 0 <= size f) by lia.
  destruct (header0_bits (fin f) (opcode f) Hfin Hop) as (Hb1 & Hb2 & Hb3).
  assert (Hu : u8 (Z.lor (Z.shiftl (fin f) 7) (opcode f))
               = Z.lor (Z.shiftl (fin f) 7) (opcode f)).
  { destruct Hfin as [-> | ->].
    - change (Z.shiftl 0 7) with 0. rewrite Z.lor_0_l.
      unfold u8. apply Z.mod_small. lia.
    - pose proof (range_check
        (fun o => u8 (Z.lor (Z.shiftl 1 7) o) =? Z.lor (Z.shiftl 1 7) o)
        16 eq_refl (opcode f) Hop) as H.
      now apply Z.eqb_eq in H. }
  rewrite Hu in Hb1, Hb2.
  assert (H64 : 0 <= size f < 2 ^ 64) by (pow64; lia).
  destruct (length_field_value (size f) H64) as [Hsmall Hlarge].
  assert (Hfield : exists h ext,
             length_field (size f) = (h, ext) /\ 0 <= h < 128 /\
             length_canonical h ext (size f)).
  { destruct (Z.leb_spec (size f) 125) as [Hle|Hgt].
    - exists (size f), []. rewrite (Hsmall Hle). repeat split; try lia.
      left. repeat split; lia.
    - destruct (Hlarge Hgt) as (ext & He & Hl & Hb & Hv).
      destruct (Z.leb_spec (size f) 65535).
      + exists 126, ext. repeat split; try lia; try assumption.
        right; left. repeat split; try assumption; lia.
      + exists 127, ext. repeat split; try lia; try assumption.
        right; right. repeat split; try assumption; lia. }
  destruct Hfield as (h & ext & He & Hh & Hcases).
  unfold frame_header. rewrite He, Hu.
  destruct Hmask as [Hm | Hm]; rewrite Hm.
  - change (0 =? 0) with true. cbv iota.
    destruct (header1_bits_plain h Hh) as (Hp1 & Hp2).
    exists h, ext. repeat split; try assumption.
    + change (Z.shiftl 0 7) with 0. now rewrite Z.lor_0_l, Hp2.
    + rewrite Hp2. exact Hcases.
  - change (1 =? 0) with false. cbv iota.
    destruct (header1_bits_masked h Hh) as (Hp1 & Hp2 & Hp3).
    exists (u8 (Z.lor h 128)), ext. repeat split; try assumption.
    + rewrite Hp2.
      pose proof (range_check
        (fun x => u8 (Z.lor x 128) =? Z.lor (Z.shiftl 1 7) x)
        128 eq_refl h Hh) as H.
      now apply Z.eqb_eq in H.
    + rewrite Hp2. exact Hcases.
Qed.

Lemma frame_payload_wf (f : vws_frame) :
  frame_wf f -> frame_payload f = data f.
Proof.
  intros Hwf. unfold frame_payload.
  rewrite (wf_size f Hwf), Nat2Z.id. apply firstn_all.
Qed.

(** Parsing what the serializer built for a masked frame gives the frame
    back and consumes the whole buffer, whatever follows it. *)
Lemma roundtrip_masked (f : vws_frame) (k : key4) (rest : list Z)
  (f0 : vws_frame) (c0 : Z) :
  frame_wf f -> mask f = 1 ->
  let buf := masked_frame_data f k in
  vws_deserialize (buf ++ rest) (Z.of_nat (length (buf ++ rest))) f0 c0
  = Some (FRAME_COMPLETE,
          mk_frame (fin f) (opcode f) 1
            (Z.of_nat (length buf) - size f) (size f) (data f),
          Z.of_nat (length buf)).
Proof.
  intros Hwf Hm buf.
  destruct (frame_header_shape f Hwf)
    as (b1 & ext & Hh & H1 & H2 & H3 & _ & Hc).
  subst buf. unfold masked_frame_data.
  rewrite (frame_payload_wf f Hwf), Hh.
  cbn [app]. rewrite <- !app_assoc.
  assert (Hk : length (key_bytes k) = 4%nat)
    by (destruct k as [[[? ?] ?] ?]; reflexivity).
  rewrite (deserialize_masked _ b1 ext (xor_loop k 0 (data f)) rest k f0 c0
             (size f)).
  - rewrite H1, H2, xor_loop_involutive.
    cbn [length]. rewrite !length_app, Hk, xor_loop_length.
    rewrite (wf_size f Hwf).
    apply f_equal. apply f_equal2; [f_equal; f_equal; lia | lia].
  - rewrite xor_loop_length. exact (wf_size f Hwf).
  - exact (wf_bound f Hwf).
  - now rewrite H3.
  - apply length_canonical_coded. exact Hc.
Qed.

Lemma vws_serialize_masked (f : vws_frame) (k : key4) (w : world) :
  mask f = 1 -> rand w (rand_ix w) = Some k ->
  vws_serialize (Some f) w
  = Done (Some (masked_frame_data f k))
      (serialized_world f (set_rand_ix (S (rand_ix w)) w)).
Proof.
  intros Hm Hk. unfold vws_serialize. rewrite Hm.
  change (negb (1 =? 0)) with true. cbv iota.
  unfold bind at 1. unfold RAND_bytes. rewrite Hk. reflexivity.
Qed.

Lemma vws_serialize_plain (f : vws_frame) (w : world) :
  mask f = 0 ->
  vws_serialize (Some f) w
  = Done (Some (plain_frame_data f)) (serialized_world f w).
Proof.
  intros Hm. unfold vws_serialize. rewrite Hm. reflexivity.
Qed.

(** ** C1: round trip of a masked frame *)

(** C1.  For every frame with the mask flag set (any [fin], any opcode, a
    payload shorter than 2^63) and every key the random generator delivers,
    [vws_serialize] returns a buffer, and [vws_deserialize] on that buffer
    completes with a frame whose [fin], [opcode], [size] and [data] are those
    of the input, [consumed] being the size of the buffer. *)
Theorem C1_roundtrip (f : vws_frame) (k : key4) (w : world)
  (f0 : vws_frame) (c0 : Z) :
  frame_wf f -> mask f = 1 -> rand w (rand_ix w) = Some k ->
  exists buf w' f',
    vws_serialize (Some f) w = Done (Some buf) w' /\
    vws_deserialize buf (Z.of_nat (length buf)) f0 c0
      = Some (FRAME_COMPLETE, f', Z.of_nat (length buf)) /\
    fin f' = fin f /\ opcode f' = opcode f /\
    size f' = size f /\ data f' = data f.
Proof.
  intros Hwf Hm Hk.
  rewrite (vws_serialize_masked f k w Hm Hk).
  eexists. eexists. eexists. split; [reflexivity|].
  pose proof (roundtrip_masked f k [] f0 c0 Hwf Hm) as H.
  cbv zeta in H. rewrite app_nil_r in H.
  split; [exact H|]. cbn. auto.
Qed.

Lemma hello_frame_wf : frame_wf hello_frame.
Proof.
  constructor; cbn; try lia. reflexivity.
Qed.

Lemma C1_roundtrip_witness :
  exists buf w' f',
    vws_serialize (Some hello_frame) idle_world = Done (Some buf) w' /\
    vws_deserialize buf (Z.of_nat (length buf)) (vws_frame_new [] 0 1) 0
      = Some (FRAME_COMPLETE, f', Z.of_nat (length buf)) /\
    fin f' = fin hello_frame /\ opcode f' = opcode hello_frame /\
    size f' = size hello_frame /\ data f' = data hello_frame.
Proof.
  apply (C1_roundtrip hello_frame (1, 2, 3, 4) idle_world).
  - constructor; cbn; try lia; reflexivity.
  - reflexivity.
  - reflexivity.
Defined.

(** ** C2: the layout of a serialized frame *)

Lemma key_at_nth (k : key4) (i : nat) :
  key_at k i = nth (i mod 4) (key_bytes k) 0.
Proof.
  destruct k as [[[k0 k1] k2] k3]. unfold key_at, key_bytes.
  assert (H : (i mod 4 < 4)%nat) by (apply Nat.mod_upper_bound; lia).
  destruct (i mod 4)%nat as [|[|[|[|n]]]]; try reflexivity. lia.
Qed.

Lemma xor_loop_nth (k : key4) (d : list Z) (j i : nat) :
  (i < length d)%nat ->
  nth i (xor_loop k j d) 0 = Z.lxor (nth i d 0) (key_at k (j + i)).
Proof.
  revert j i; induction d as [|b d IH]; intros j i Hi; simpl in Hi; [lia|].
  destruct i as [|i]; cbn [xor_loop nth].
  - now rewrite Nat.add_0_r.
  - rewrite IH by lia. do 2 f_equal. lia.
Qed.

(** C2.  For every frame of the data model, [vws_serialize] returns a buffer
    (given that the random generator delivers when the frame is masked) whose
    byte 0 is [(fin << 7) | opcode], whose byte 1 is
    [(mask << 7) | length_field], where the length field is the payload
    length up to 125, 126 followed by the length on two big-endian bytes up
    to 65535 and 127 followed by the length on eight big-endian bytes above;
    the four key bytes follow exactly when the frame is masked, then the
    payload, each byte xor-ed with [key[i mod 4]] when masked; the size of the
    buffer is 2 + extended length + 4 if masked + payload length. *)
Theorem C2_layout (f : vws_frame) (w : world) :
  frame_wf f ->
  (mask f = 1 -> rand w (rand_ix w) <> None) ->
  exists buf w' lf ext key payload,
    vws_serialize (Some f) w = Done (Some buf) w' /\
    buf = Z.lor (Z.shiftl (fin f) 7) (opcode f)
          :: Z.lor (Z.shiftl (mask f) 7) lf :: ext ++ key ++ payload /\
    (size f <= 125 -> lf = size f /\ ext = []) /\
    (125 < size f <= 65535 ->
     lf = 126 /\ length ext = 2%nat /\ be_value ext = size f) /\
    (65535 < size f ->
     lf = 127 /\ length ext = 8%nat /\ be_value ext = size f) /\
    Forall is_byte ext /\
    (mask f = 0 -> key = [] /\ payload = data f) /\
    (mask f = 1 ->
     (exists k, rand w (rand_ix w) = Some k /\ key = key_bytes k) /\
     length key = 4%nat /\
     length payload = length (data f) /\
     forall i, (i < length (data f))%nat ->
       nth i payload 0 = Z.lxor (nth i (data f) 0) (nth (i mod 4) key 0)) /\
    Z.of_nat (length buf)
    = 2 + Z.of_nat (length ext) + 4 * mask f + size f.
Proof.
  intros Hwf Hrand.
  destruct (frame_header_shape f Hwf)
    as (b1 & ext & Hh & _ & _ & _ & Hb1 & Hc).
  assert (Hext : Forall is_byte ext).
  { destruct Hc as [(_ & _ & ->) | [(_ & _ & _ & H & _) | (_ & _ & _ & H & _)]];
      [constructor | exact H | exact H]. }
  assert (Hranges :
    (size f <= 125 -> Z.land b1 127 = size f /\ ext = []) /\
    (125 < size f <= 65535 ->
     Z.land b1 127 = 126 /\ length ext = 2%nat /\ be_value ext = size f) /\
    (65535 < size f ->
     Z.land b1 127 = 127 /\ length ext = 8%nat /\ be_value ext = size f)).
  { destruct Hc as [(? & ? & ?) | [(? & ? & ? & ? & ?) | (? & ? & ? & ? & ?)]];
      repeat split; intros; try lia; assumption. }
  destruct Hranges as (Hr1 & Hr2 & Hr3).
  destruct (wf_mask f Hwf) as [Hm | Hm].
  - rewrite (vws_serialize_plain f w Hm).
    exists (plain_frame_data f), (serialized_world f w), (Z.land b1 127), ext,
      [], (data f).
    unfold plain_frame_data. rewrite (frame_payload_wf f Hwf), Hh.
    split; [reflexivity|].
    split; [cbn [app]; now rewrite <- Hb1|].
    repeat (split; [assumption|]).
    split; [auto|]. split; [intro; lia|].
    cbn [length app]. rewrite length_app, (wf_size f Hwf). lia.
  - destruct (rand w (rand_ix w)) as [k|] eqn:Hk; [|now elim Hrand].
    rewrite (vws_serialize_masked f k w Hm Hk).
    exists (masked_frame_data f k),
      (serialized_world f (set_rand_ix (S (rand_ix w)) w)), (Z.land b1 127),
      ext, (key_bytes k), (xor_loop k 0 (data f)).
    unfold masked_frame_data. rewrite (frame_payload_wf f Hwf), Hh.
    split; [reflexivity|].
    split; [cbn [app]; now rewrite <- Hb1|].
    repeat (split; [assumption|]).
    split; [intro; lia|].
    split.
    + intros _. split; [eauto|].
      split; [destruct k as [[[? ?] ?] ?]; reflexivity|].
      split; [apply xor_loop_length|].
      intros i Hi. rewrite xor_loop_nth by assumption.
      now rewrite key_at_nth.
    + cbn [length app]. rewrite !length_app, xor_loop_length.
      rewrite (wf_size f Hwf).
      assert (length (key_bytes k) = 4%nat)
        by (destruct k as [[[? ?] ?] ?]; reflexivity).
      lia.
Qed.

Lemma C2_layout_witness :
  exists buf w' lf ext key payload,
    vws_serialize (Some hello_frame) idle_world = Done (Some buf) w' /\
    buf = Z.lor (Z.shiftl (fin hello_frame) 7) (opcode hello_frame)
          :: Z.lor (Z.shiftl (mask hello_frame) 7) lf
          :: ext ++ key ++ payload /\
    (size hello_frame <= 125 -> lf = size hello_frame /\ ext = []) /\
    (125 < size hello_frame <= 65535 ->
     lf = 126 /\ length ext = 2%nat /\ be_value ext = size hello_frame) /\
    (65535 < size hello_frame ->
     lf = 127 /\ length ext = 8%nat /\ be_value ext = size hello_frame) /\
    Forall is_byte ext /\
    (mask hello_frame = 0 -> key = [] /\ payload = data hello_frame) /\
    (mask hello_frame = 1 ->
     (exists k, rand idle_world (rand_ix idle_world) = Some k
                /\ key = key_bytes k) /\
     length key = 4%nat /\
     length payload = length (data hello_frame) /\
     forall i, (i < length (data hello_frame))%nat ->
       nth i payload 0
       = Z.lxor (nth i (data hello_frame) 0) (nth (i mod 4) key 0)) /\
    Z.of_nat (length buf)
    = 2 + Z.of_nat (length ext) + 4 * mask hello_frame + size hello_frame.
Proof.
  apply (C2_layout hello_frame idle_world).
  - constructor; cbn; try lia; reflexivity.
  - intros _. discriminate.
Defined.

(** ** C3: short input *)

(** A slice shorter than the two fixed header bytes is incomplete. *)
Lemma deserialize_no_header (d : list Z) (f0 : vws_frame) (c0 : Z) :
  (length d < 2)%nat ->
  vws_deserialize d (Z.of_nat (length d)) f0 c0
  = Some (FRAME_INCOMPLETE, f0, c0).
Proof.
  intro H. unfold vws_deserialize.
  destruct (Z.ltb_spec (Z.of_nat (length d)) 2); [reflexivity | lia].
Qed.

(** A slice that ends inside the extended length is incomplete. *)
Lemma deserialize_short_header (b0 b1 : Z) (ext : list Z) (f0 : vws_frame)
  (c0 : Z) :
  (Z.land b1 127 = 126 /\ (length ext < 2)%nat) \/
  (Z.land b1 127 = 127 /\ (length ext < 8)%nat) ->
  exists f,
    vws_deserialize (b0 :: b1 :: ext) (Z.of_nat (length (b0 :: b1 :: ext)))
      f0 c0
    = Some (FRAME_INCOMPLETE, f, c0).
Proof.
  intros H. unfold vws_deserialize. cbn [length].
  destruct (Z.ltb_spec (Z.of_nat (S (S (length ext)))) 2); [lia|].
  frame_fields. cbn [nth].
  destruct H as [[-> Hl] | [-> Hl]].
  - change (126 =? 126) with true. cbv iota.
    destruct (Z.ltb_spec (Z.of_nat (S (S (length ext)))) (2 + 2)); [|lia].
    eauto.
  - change (127 =? 126) with false. change (127 =? 127) with true. cbv iota.
    destruct (Z.ltb_spec (Z.of_nat (S (S (length ext)))) (2 + 8)); [|lia].
    eauto.
Qed.

(** A slice with a whole header whose declared length does not make the sum
    of the sizes wrap, and with fewer bytes after the header than the key and
    the payload take, is incomplete, and [*consumed] keeps its value. *)
Lemma deserialize_short_payload (b0 b1 : Z) (ext tail : list Z)
  (f0 : vws_frame) (c0 n m : Z) :
  length_coded b1 ext n -> 0 <= n < 2 ^ 63 ->
  Z.land (Z.shiftr b1 7) 1 = m -> m = 0 \/ m = 1 ->
  Z.of_nat (length tail) < 4 * m + n ->
  let d := b0 :: b1 :: ext ++ tail in
  exists f,
    vws_deserialize d (Z.of_nat (length d)) f0 c0
    = Some (FRAME_INCOMPLETE, f, c0).
Proof.
  intros Hc Hn Hm Hm01 Hshort d.
  assert (Hlen : Z.of_nat (length d)
                 = 2 + Z.of_nat (length ext) + Z.of_nat (length tail)).
  { subst d. cbn [length]. rewrite !length_app. lia. }
  pow64.
  unfold vws_deserialize.
  destruct (Z.ltb_spec (Z.of_nat (length d)) 2) as [Hlt|_]; [lia|].
  frame_fields.
  change (nth 0 d 0) with b0. change (nth 1 d 0) with b1.
  rewrite Hm.
  destruct Hc as [(Hl & Hle & ->)
                 | [(Hl & Hex & Hby & Hv) | (Hl & Hex & Hby & Hv)]];
    rewrite Hl.
  - destruct (Z.eqb_spec n 126) as [|_]; [lia|].
    destruct (Z.eqb_spec n 127) as [|_]; [lia|].
    cbn [length] in *. change (Z.of_nat 0) with 0 in *.
    destruct (Z.ltb_spec (Z.of_nat (length d)) (2 + 0)) as [|_]; [lia|].
    change (0 <? 0) with false. cbv iota. frame_fields.
    destruct Hm01 as [-> | ->].
    + change (negb (0 =? 0)) with false. cbv iota.
      rewrite u64_small by (pow64; lia).
      destruct (Z.ltb_spec (Z.of_nat (length d)) (2 + 0 + n)); [|lia]. eauto.
    + change (negb (1 =? 0)) with true. cbv iota.
      rewrite (u64_small (4 + n)) by (pow64; lia).
      rewrite u64_small by (pow64; lia).
      destruct (Z.ltb_spec (Z.of_nat (length d)) (2 + 0 + (4 + n))); [|lia].
      eauto.
  - destruct (ext_2 ext Hex) as (e1 & e2 & ->).
    assert (Hr : read_length [e1; e2] = n)
      by (rewrite read_length_be; [assumption | assumption | simpl; lia]).
    change (126 =? 126) with true. cbv iota.
    cbn [length] in *. change (Z.of_nat 2) with 2 in *.
    destruct (Z.ltb_spec (Z.of_nat (length d)) (2 + 2)) as [|_]; [lia|].
    change (0 <? 2) with true. cbv iota.
    change (Z.to_nat 2) with 2%nat.
    replace (firstn 2 (skipn 2 d)) with [e1; e2] by reflexivity.
    rewrite Hr. frame_fields.
    destruct Hm01 as [-> | ->].
    + change (negb (0 =? 0)) with false. cbv iota.
      rewrite u64_small by (pow64; lia).
      destruct (Z.ltb_spec (Z.of_nat (length d)) (2 + 2 + n)); [|lia]. eauto.
    + change (negb (1 =? 0)) with true. cbv iota.
      rewrite (u64_small (4 + n)) by (pow64; lia).
      rewrite u64_small by (pow64; lia).
      destruct (Z.ltb_spec (Z.of_nat (length d)) (2 + 2 + (4 + n))); [|lia].
      eauto.
  - destruct (ext_8 ext Hex) as (e1 & e2 & e3 & e4 & e5 & e6 & e7 & e8 & ->).
    assert (Hr : read_length [e1; e2; e3; e4; e5; e6; e7; e8] = n)
      by (rewrite read_length_be; [assumption | assumption | simpl; lia]).
    change (127 =? 126) with false. change (127 =? 127) with true. cbv iota.
    cbn [length] in *. change (Z.of_nat 8) with 8 in *.
    destruct (Z.ltb_spec (Z.of_nat (length d)) (2 + 8)) as [|_]; [lia|].
    change (0 <? 8) with true. cbv iota.
    change (Z.to_nat 8) with 8%nat.
    replace (firstn 8 (skipn 2 d)) with [e1; e2; e3; e4; e5; e6; e7; e8]
      by reflexivity.
    rewrite Hr. frame_fields.
    destruct Hm01 as [-> | ->].
    + change (negb (0 =? 0)) with false. cbv iota.
      rewrite u64_small by (pow64; lia).
      destruct (Z.ltb_spec (Z.of_nat (length d)) (2 + 8 + n)); [|lia]. eauto.
    + change (negb (1 =? 0)) with true. cbv iota.
      rewrite (u64_small (4 + n)) by (pow64; lia).
      rewrite u64_small by (pow64; lia).
      destruct (Z.ltb_spec (Z.of_nat (length d)) (2 + 8 + (4 + n))); [|lia].
      eauto.
Qed.

(** C3.  On a complete header that declares more payload than the slice
    holds, [vws_deserialize] is to return [FRAME_INCOMPLETE] and leave
    [*consumed] alone.  With a declared length of 2^64 - 10 (2^64 - 14 when
    masked) the sum [required_bytes] wraps to 0, the comparison with [size]
    lets the call through, and the payload copy reads past the slice: no
    [FRAME_INCOMPLETE] is returned. *)
Theorem C3_wrapped_length_not_incomplete :
  let f0 := vws_frame_new [] 0 TEXT_FRAME in
  vws_deserialize wrapping_header 10 f0 0 = None /\
  vws_deserialize wrapping_header_masked 10 f0 0 = None /\
  (forall f c, vws_deserialize wrapping_header 10 f0 0
               <> Some (FRAME_INCOMPLETE, f, c)).
Proof.
  cbv zeta. split; [vm_compute; reflexivity|].
  split; [vm_compute; reflexivity|].
  intros f c. vm_compute. discriminate.
Qed.

(** ** C4: the message reassembler *)

(** The first element satisfying a test splits a list. *)
Lemma first_match (A : Type) (p : A -> bool) (l : list A) :
  existsb p l = true ->
  exists pre x post,
    l = pre ++ x :: post /\ Forall (fun y => p y = false) pre /\ p x = true.
Proof.
  induction l as [|a l IH]; simpl; [discriminate|].
  destruct (p a) eqn:Ha.
  - intros _. exists [], a, l. repeat split; [constructor | assumption].
  - simpl. intro H. destruct (IH H) as (pre & x & post & -> & Hpre & Hx).
    exists (a :: pre), x, post. repeat split; [constructor|]; assumption.
Qed.

Lemma existsb_rev (A : Type) (p : A -> bool) (l : list A) :
  existsb p (rev l) = existsb p l.
Proof.
  destruct (existsb p l) eqn:H.
  - apply existsb_exists in H. destruct H as (x & Hin & Hx).
    apply existsb_exists. exists x. split; [now apply in_rev in Hin | exact Hx].
  - destruct (existsb p (rev l)) eqn:H'; [|reflexivity].
    apply existsb_exists in H'. destruct H' as (x & Hin & Hx).
    apply in_rev in Hin.
    assert (existsb p l = true) by (apply existsb_exists; eauto).
    congruence.
Qed.

Lemma vws_buffer_append_wf (b : list Z) (f : vws_frame) :
  queued_ok f -> vws_buffer_append b (data f) (size f) = b ++ data f.
Proof.
  intros [_ Hsz]. unfold vws_buffer_append.
  rewrite Hsz, Nat2Z.id, firstn_all.
  destruct (data f); [now rewrite app_nil_r | reflexivity].
Qed.

Lemma sc_queue_del_last_rev (w : world) (f : vws_frame) (r : list vws_frame) :
  rev (queue w) = f :: r ->
  sc_queue_del_last w = Done f (set_queue (rev r) w).
Proof.
  intro H. unfold sc_queue_del_last. now rewrite H.
Qed.

(** The loop takes the frames off the tail of the queue up to the first one
    with [fin] set. *)
Lemma msg_pop_loop_spec (pre : list vws_frame) :
  forall (f : vws_frame) (post : list vws_frame) (fuel : nat) (m : vws_msg)
         (w : world),
    rev (queue w) = pre ++ f :: post ->
    Forall (fun g => (fin g =? 1) = false) pre -> fin f = 1 ->
    Forall queued_ok (pre ++ [f]) ->
    (length pre < fuel)%nat ->
    msg_pop_loop fuel m w
    = Done (collect m (pre ++ [f]))
        (set_freed (freed w ++ pre ++ [f]) (set_queue (rev post) w)).
Proof.
  induction pre as [|g pre IH]; intros f post fuel m w Hq Hpre Hf Hwf Hfuel.
  - destruct fuel as [|fuel]; [simpl in Hfuel; lia|].
    cbn [msg_pop_loop app] in *. unfold bind at 1.
    rewrite (sc_queue_del_last_rev w f post Hq).
    inversion Hwf as [|? ? Hwf1 _]; subst.
    rewrite vws_buffer_append_wf by assumption.
    rewrite Hf. change (1 =? 1) with true. cbv iota.
    unfold bind, vws_frame_free, modify, ret, collect.
    cbn [map concat m_opcode m_data]. rewrite app_nil_r.
    destruct (m_opcode m =? 100); reflexivity.
  - destruct fuel as [|fuel]; [simpl in Hfuel; lia|].
    cbn [msg_pop_loop app] in *. unfold bind at 1.
    rewrite (sc_queue_del_last_rev w g (pre ++ f :: post) Hq).
    inversion Hwf as [|? ? Hwf1 Hwf2]; subst.
    inversion Hpre as [|? ? Hg Hpre']; subst.
    rewrite vws_buffer_append_wf by assumption.
    rewrite Hg.
    unfold bind at 1. unfold vws_frame_free at 1. unfold modify at 1.
    cbv iota.
    rewrite (IH f post fuel _ _); try assumption.
    + f_equal.
      * unfold collect. cbn [map concat m_opcode m_data].
        rewrite <- app_assoc.
        destruct (m_opcode m =? 100) eqn:Hs; cbn [m_opcode].
        -- assert (Ho : (opcode g =? 100) = false).
           { apply Z.eqb_neq. exact (proj1 Hwf1). }
           rewrite Ho. reflexivity.
        -- rewrite Hs. reflexivity.
      * cbn [freed set_freed set_queue]. rewrite <- app_assoc. reflexivity.
    + cbn [queue set_freed set_queue]. now rewrite rev_involutive.
    + simpl in Hfuel. lia.
Qed.

(** C4.  For every queue (of frames whose opcode is not the sentinel 100 and
    whose [size] is the length of their payload): when no queued frame has
    [fin] set, [vws_msg_pop] returns NULL and leaves everything as it is.
    Otherwise the queue, read from its tail (oldest frame first), starts with
    frames [pre] without [fin], then a frame [f] with [fin]; the message
    returned has the opcode of the first frame taken off and as payload the
    payloads of [pre] and [f] in that order; exactly these frames leave the
    queue and are freed. *)
Theorem C4_msg_pop (w : world) :
  Forall queued_ok (queue w) ->
  ((forall g, In g (queue w) -> fin g <> 1) ->
   vws_msg_pop w = Done None w) /\
  ((exists g, In g (queue w) /\ fin g = 1) ->
   exists pre f post,
     rev (queue w) = pre ++ f :: post /\
     (forall g, In g pre -> fin g <> 1) /\ fin f = 1 /\
     vws_msg_pop w
     = Done (Some (mk_msg (opcode (hd f pre))
                          (concat (map data (pre ++ [f])))))
         (set_freed (freed w ++ pre ++ [f]) (set_queue (rev post) w))).
Proof.
  intros Hwf. split.
  - intros Hno. unfold vws_msg_pop, bind, has_complete_message, gets.
    assert (H : existsb (fun f => fin f =? 1) (queue w) = false).
    { destruct (existsb _ (queue w)) eqn:E; [|reflexivity].
      apply existsb_exists in E. destruct E as (x & Hin & Hx).
      apply Z.eqb_eq in Hx. now elim (Hno x Hin). }
    rewrite H. reflexivity.
  - intros (g & Hin & Hg).
    assert (H : existsb (fun f => fin f =? 1) (queue w) = true).
    { apply existsb_exists. exists g. split; [assumption|].
      now apply Z.eqb_eq. }
    pose proof H as H'. rewrite <- existsb_rev in H'.
    destruct (first_match _ _ _ H') as (pre & f & post & Hq & Hpre & Hf).
    apply Z.eqb_eq in Hf.
    exists pre, f, post. split; [assumption|]. split.
    { intros x Hx Hfx. rewrite Forall_forall in Hpre.
      specialize (Hpre x Hx). apply Z.eqb_neq in Hpre. contradiction. }
    split; [assumption|].
    assert (Hwf' : Forall queued_ok (pre ++ [f])).
    { apply Forall_forall. intros x Hx.
      rewrite Forall_forall in Hwf. apply Hwf. apply in_rev. rewrite Hq.
      apply in_app_or in Hx. apply in_or_app.
      destruct Hx as [Hx | [<- | []]]; [now left | right; now left]. }
    assert (Hlen : (length pre < S (length (queue w)))%nat).
    { rewrite <- (length_rev (queue w)), Hq, length_app. simpl. lia. }
    unfold vws_msg_pop, bind, has_complete_message, gets.
    rewrite H. cbv iota. cbn [negb].
    rewrite (msg_pop_loop_spec pre f post _ _ w Hq Hpre Hf Hwf' Hlen).
    unfold ret. f_equal. f_equal. unfold collect.
    cbn [m_opcode m_data app]. change (100 =? 100) with true. cbv iota.
    destruct pre; reflexivity.
Qed.

Ltac concrete_frame_wf :=
  constructor; cbn;
  unfold CONTINUATION_FRAME, TEXT_FRAME, BINARY_FRAME, CLOSE_FRAME,
    PING_FRAME, PONG_FRAME;
  lia.

Lemma C4_msg_pop_witness :
  ((forall g, In g (queue two_fragments) -> fin g <> 1) ->
   vws_msg_pop two_fragments = Done None two_fragments) /\
  ((exists g, In g (queue two_fragments) /\ fin g = 1) ->
   exists pre f post,
     rev (queue two_fragments) = pre ++ f :: post /\
     (forall g, In g pre -> fin g <> 1) /\ fin f = 1 /\
     vws_msg_pop two_fragments
     = Done (Some (mk_msg (opcode (hd f pre))
                          (concat (map data (pre ++ [f])))))
         (set_freed (freed two_fragments ++ pre ++ [f])
            (set_queue (rev post) two_fragments))).
Proof.
  apply (C4_msg_pop two_fragments).
  apply Forall_cons; [split; [discriminate | reflexivity]|].
  apply Forall_cons; [split; [discriminate | reflexivity]|].
  apply Forall_nil.
Defined.

(** ** C5: dispatch of inbound frames *)

Ltac write_done :=
  do 2 eexists; split; [reflexivity|]; cbn;
  repeat split; try reflexivity; auto.

(** A write returns, logs the call, and leaves the connection, the frames
    freed and the random generator as they are. *)
Lemma vws_socket_write_log (d : list Z) (sz : Z) (w : world) :
  exists n w',
    vws_socket_write d sz w = Done n w' /\
    written w' = written w ++ [(d, n)] /\
    freed w' = freed w /\ same_connection w w' /\
    rand w' = rand w /\ rand_ix w' = rand_ix w /\
    net w' = net w /\ sys w' = sys w /\ sys_ix w' = sys_ix w.
Proof.
  unfold vws_socket_write, vws_socket_write_body, bind, vws_success,
    vws_socket_is_connected, vws_error, poll_write, modify, gets, ret,
    same_connection.
  cbn [sockfd set_e_code].
  destruct (0 <? sockfd w); cbn [negb].
  - destruct (sz =? 0).
    + write_done.
    + cbn [net net_ix set_e_code].
      destruct (net w (net_ix w)) as [| |revents sent].
      * write_done.
      * write_done.
      * destruct (Z.land revents POLLOUT =? 0); cbn [negb].
        -- write_done.
        -- cbn [ssl set_net_ix set_e_code]. destruct (ssl w) eqn:Hs.
           ++ write_done.
           ++ destruct (sent =? -1); write_done.
  - write_done.
Qed.

Ltac write_case :=
  do 2 eexists; split; [reflexivity|]; cbn;
  repeat split; try reflexivity; try discriminate; intros;
  repeat match goal with
  | E : PollReady _ _ = PollReady _ _ |- _ => injection E as ? ?; subst
  end; try contradiction; try reflexivity; auto.

(** A write on an open socket with something to write polls once and returns
    what the network decides. *)
Lemma vws_socket_write_connected (d : list Z) (sz : Z) (w : world) :
  0 < sockfd w -> sz <> 0 ->
  exists n w',
    vws_socket_write d sz w = Done n w' /\
    written w' = written w ++ [(d, n)] /\
    freed w' = freed w /\ same_connection w w' /\
    rand w' = rand w /\ rand_ix w' = rand_ix w /\
    net w' = net w /\ net_ix w' = S (net_ix w) /\
    (net w (net_ix w) = PollTimeout -> n = 0 /\ e_code w' = VE_TIMEOUT) /\
    (net w (net_ix w) = PollFailed -> n = -1 /\ e_code w' = VE_SYS) /\
    (forall r s, net w (net_ix w) = PollReady r s ->
       (Z.land r POLLOUT <> 0 -> n = s) /\
       (Z.land r POLLOUT = 0 -> n = -1 /\ e_code w' = VE_SYS)).
Proof.
  intros Hc Hsz.
  unfold vws_socket_write, vws_socket_write_body, bind, vws_success,
    vws_socket_is_connected, vws_error, poll_write, modify, gets, ret,
    same_connection.
  cbn [sockfd set_e_code].
  destruct (Z.ltb_spec 0 (sockfd w)) as [_|]; [|lia]. cbn [negb].
  destruct (Z.eqb_spec sz 0) as [|_]; [contradiction|].
  cbn [net net_ix set_e_code].
  destruct (net w (net_ix w)) as [| |revents sent] eqn:Hev.
  - write_case.
  - write_case.
  - destruct (Z.eqb_spec (Z.land revents POLLOUT) 0) as [Hz|Hz]; cbn [negb].
    + write_case.
    + cbn [ssl set_net_ix set_e_code].
      destruct (ssl w) eqn:Hs; [write_case|].
      destruct (sent =? -1); write_case.
Qed.

Lemma write_outcome_connected (d : list Z) (sz n : Z) (w w' : world) :
  0 < sockfd w -> sz <> 0 ->
  vws_socket_write d sz w = Done n w' ->
  n = write_outcome (net w (net_ix w)).
Proof.
  intros Hc Hsz Hrun.
  destruct (vws_socket_write_connected d sz w Hc Hsz)
    as (n' & w2 & Hrun' & _ & _ & _ & _ & _ & _ & _ & Ht & Hf & Hr).
  rewrite Hrun in Hrun'. injection Hrun' as <- <-.
  unfold write_outcome.
  destruct (net w (net_ix w)) as [| |r s].
  - exact (proj1 (Hf eq_refl)).
  - exact (proj1 (Ht eq_refl)).
  - destruct (Z.eqb_spec (Z.land r POLLOUT) 0) as [Hz|Hz].
    + exact (proj1 (proj2 (Hr r s eq_refl) Hz)).
    + exact (proj1 (Hr r s eq_refl) Hz).
Qed.

Lemma vws_frame_new_wf (d : list Z) (oc : Z) :
  0 <= oc < 16 -> Z.of_nat (length d) < 2 ^ 63 ->
  let f := vws_frame_new d (Z.of_nat (length d)) oc in
  frame_wf f /\ data f = d /\ mask f = 1 /\ fin f = 1 /\ opcode f = oc.
Proof.
  intros Ho Hl f. subst f. unfold vws_frame_new.
  assert (Hd : (if 0 <? Z.of_nat (length d)
                then firstn (Z.to_nat (Z.of_nat (length d))) d else []) = d).
  { rewrite Nat2Z.id, firstn_all. destruct d; reflexivity. }
  assert (Hoc : u8 oc = oc) by (apply Z.mod_small; lia).
  split; [|cbn; auto].
  constructor; cbn [fin opcode mask size data]; try lia.
  now rewrite Hd.
Qed.

Lemma masked_frame_new_serialized (d : list Z) (oc : Z) (k : key4) :
  0 <= oc < 16 -> Z.of_nat (length d) < 2 ^ 63 ->
  serialized_frame
    (masked_frame_data (vws_frame_new d (Z.of_nat (length d)) oc) k) oc d.
Proof.
  intros Ho Hl f0 c0.
  destruct (vws_frame_new_wf d oc Ho Hl) as (Hwf & Hd & Hm & Hf & Hop).
  pose proof (roundtrip_masked _ k [] f0 c0 Hwf Hm) as H.
  cbv zeta in H. rewrite app_nil_r in H.
  eexists. split; [exact H|].
  cbn [fin opcode data size]. rewrite Hf, Hop, Hd.
  repeat split; reflexivity.
Qed.

Lemma close_frame_generated (k : key4) (w : world) :
  rand w (rand_ix w) = Some k ->
  exists buf,
    vws_generate_close_frame w
    = Done (Some buf)
        (serialized_world (vws_frame_new (htons WS_CLOSE_NORMAL) 2 CLOSE_FRAME)
           (set_rand_ix (S (rand_ix w)) w)) /\
    serialized_frame buf CLOSE_FRAME (htons WS_CLOSE_NORMAL).
Proof.
  intro Hk. unfold vws_generate_close_frame.
  rewrite (vws_serialize_masked
             (vws_frame_new (htons WS_CLOSE_NORMAL) 2 CLOSE_FRAME) k w
             eq_refl Hk).
  eexists. split; [reflexivity|].
  apply (masked_frame_new_serialized (htons WS_CLOSE_NORMAL) CLOSE_FRAME k).
  - unfold CLOSE_FRAME. lia.
  - simpl. lia.
Qed.


Lemma land_lor_absorb (x y : Z) : Z.land (Z.lor x y) y = y.
Proof.
  apply Z.bits_inj'. intros i Hi.
  rewrite Z.land_spec, Z.lor_spec.
  destruct (Z.testbit x i), (Z.testbit y i); reflexivity.
Qed.

(** Without a masking key there is no reply buffer, and [process_frame]
    dereferences the NULL pointer [vws_serialize] returned. *)
Lemma process_frame_no_key (f : vws_frame) (w : world) :
  opcode f = PING_FRAME \/ opcode f = CLOSE_FRAME ->
  rand w (rand_ix w) = None ->
  process_frame f w = Fault.
Proof.
  intros Ho Hk.
  unfold process_frame, bind, vws_set_flag, vws_generate_close_frame,
    vws_generate_pong_frame, vws_serialize, RAND_bytes, vws_error, modify,
    ret.
  destruct Ho as [Ho | Ho]; rewrite Ho; cbn; rewrite Hk; reflexivity.
Qed.

(** The four ways through [process_frame]. *)
Lemma process_frame_ping (f : vws_frame) (w : world) (k : key4) :
  opcode f = PING_FRAME -> rand w (rand_ix w) = Some k ->
  exists n w',
    process_frame f w = Done tt w' /\
    written w' = written w
      ++ [(masked_frame_data (vws_frame_new (data f) (size f) PONG_FRAME) k,
           n)] /\
    freed w' = freed w
               ++ [vws_frame_new (data f) (size f) PONG_FRAME; f] /\
    same_connection w w'.
Proof.
  intros Ho Hk.
  pose proof (vws_serialize_masked
                (vws_frame_new (data f) (size f) PONG_FRAME) k w eq_refl Hk)
    as Hgen.
  set (buf := masked_frame_data _ k) in *.
  set (w1 := serialized_world _ _) in Hgen.
  destruct (vws_socket_write_log buf (Z.of_nat (length buf)) w1)
    as (n & w2 & Hw & Hlog & Hfr & Hsame & _).
  exists n, (set_e_code VE_NONE (set_freed (freed w2 ++ [f]) w2)).
  split.
  - unfold process_frame. rewrite Ho.
    cbn [Z.eqb PING_FRAME CLOSE_FRAME TEXT_FRAME BINARY_FRAME
         CONTINUATION_FRAME Pos.eqb orb].
    unfold bind, vws_generate_pong_frame. rewrite Hgen. cbn [deref ret].
    rewrite Hw. reflexivity.
  - cbn [written freed set_e_code set_freed].
    rewrite Hlog, Hfr. subst w1.
    split; [reflexivity|].
    split; [cbn; now rewrite <- app_assoc|].
    unfold same_connection in *. cbn in *. exact Hsame.
Qed.

Lemma process_frame_close (f : vws_frame) (w : world) (k : key4) :
  opcode f = CLOSE_FRAME -> rand w (rand_ix w) = Some k ->
  exists n w',
    process_frame f w = Done tt w' /\
    flags w' = Z.lor (flags w) CNX_CLOSING /\
    written w' = written w
      ++ [(masked_frame_data
             (vws_frame_new (htons WS_CLOSE_NORMAL) 2 CLOSE_FRAME) k, n)] /\
    freed w' = freed w
               ++ [vws_frame_new (htons WS_CLOSE_NORMAL) 2 CLOSE_FRAME; f] /\
    queue w' = queue w /\ buffer w' = buffer w /\ sockfd w' = sockfd w.
Proof.
  intros Ho Hk.
  set (w0 := set_flags (Z.lor (flags w) CNX_CLOSING) w).
  assert (Hk0 : rand w0 (rand_ix w0) = Some k) by exact Hk.
  pose proof (vws_serialize_masked
                (vws_frame_new (htons WS_CLOSE_NORMAL) 2 CLOSE_FRAME) k w0
                eq_refl Hk0) as Hgen.
  set (buf := masked_frame_data _ k) in *.
  set (w1 := serialized_world _ _) in Hgen.
  destruct (vws_socket_write_log buf (Z.of_nat (length buf)) w1)
    as (n & w2 & Hw & Hlog & Hfr & Hsame & _).
  exists n, (set_e_code VE_NONE (set_freed (freed w2 ++ [f]) w2)).
  split.
  - unfold process_frame. rewrite Ho. cbn [Z.eqb CLOSE_FRAME Pos.eqb].
    unfold bind, vws_set_flag, modify, vws_generate_close_frame. fold w0.
    rewrite Hgen. cbn [deref ret]. rewrite Hw. reflexivity.
  - cbn [written freed flags queue buffer sockfd set_e_code set_freed].
    destruct Hsame as (Hs1 & Hs2 & Hs3 & Hs4 & Hs5 & Hs6).
    rewrite Hlog, Hfr, Hs4, Hs5, Hs3, Hs1. subst w1 w0. cbn.
    repeat split; try reflexivity. now rewrite <- app_assoc.
Qed.

(** A serialized frame has at least its two header bytes. *)
Lemma masked_frame_data_nonzero (f : vws_frame) (k : key4) :
  Z.of_nat (length (masked_frame_data f k)) <> 0.
Proof.
  unfold masked_frame_data, frame_header.
  destruct (length_field (size f)) as [h ext]. cbn [length app]. lia.
Qed.

(** A call that took the whole buffer put the buffer on the wire. *)
Lemma taken_whole (buf : list Z) (n : Z) :
  Z.of_nat (length buf) <= n -> taken (buf, n) = buf.
Proof.
  intro H. unfold taken. cbn [fst snd]. apply firstn_all2. lia.
Qed.

(** On an open socket the reply of [process_frame] goes into one polling
    write, whose value is what the network decides. *)
Lemma process_frame_ping_open (f : vws_frame) (w : world) (k : key4) :
  opcode f = PING_FRAME -> 0 < sockfd w -> rand w (rand_ix w) = Some k ->
  exists w',
    process_frame f w = Done tt w' /\
    written w' = written w
      ++ [(masked_frame_data (vws_frame_new (data f) (size f) PONG_FRAME) k,
           write_outcome (net w (net_ix w)))] /\
    net_ix w' = S (net_ix w) /\
    freed w' = freed w
               ++ [vws_frame_new (data f) (size f) PONG_FRAME; f] /\
    same_connection w w'.
Proof.
  intros Ho Hc Hk.
  pose proof (vws_serialize_masked
                (vws_frame_new (data f) (size f) PONG_FRAME) k w eq_refl Hk)
    as Hgen.
  set (buf := masked_frame_data _ k) in *.
  set (w1 := serialized_world _ _) in Hgen.
  assert (Hc1 : 0 < sockfd w1) by exact Hc.
  assert (Hsz : Z.of_nat (length buf) <> 0)
    by apply masked_frame_data_nonzero.
  destruct (vws_socket_write_connected buf (Z.of_nat (length buf)) w1 Hc1 Hsz)
    as (n & w2 & Hw & Hlog & Hfr & Hsame & _ & _ & _ & Hix & _).
  pose proof (write_outcome_connected _ _ _ _ _ Hc1 Hsz Hw) as Hn.
  change (net w1 (net_ix w1)) with (net w (net_ix w)) in Hn. subst n.
  exists (set_e_code VE_NONE (set_freed (freed w2 ++ [f]) w2)).
  split.
  - unfold process_frame. rewrite Ho.
    cbn [Z.eqb PING_FRAME CLOSE_FRAME TEXT_FRAME BINARY_FRAME
         CONTINUATION_FRAME Pos.eqb orb].
    unfold bind, vws_generate_pong_frame. rewrite Hgen. cbn [deref ret].
    rewrite Hw. reflexivity.
  - cbn [written freed net_ix set_e_code set_freed].
    rewrite Hlog, Hfr, Hix. subst w1.
    split; [reflexivity|]. split; [reflexivity|].
    split; [cbn; now rewrite <- app_assoc|].
    unfold same_connection in *. cbn in *. exact Hsame.
Qed.

Lemma process_frame_close_open (f : vws_frame) (w : world) (k : key4) :
  opcode f = CLOSE_FRAME -> 0 < sockfd w -> rand w (rand_ix w) = Some k ->
  exists w',
    process_frame f w = Done tt w' /\
    flags w' = Z.lor (flags w) CNX_CLOSING /\
    written w' = written w
      ++ [(close_frame_bytes k, write_outcome (net w (net_ix w)))] /\
    net_ix w' = S (net_ix w) /\
    freed w' = freed w
               ++ [vws_frame_new (htons WS_CLOSE_NORMAL) 2 CLOSE_FRAME; f] /\
    queue w' = queue w /\ buffer w' = buffer w /\ sockfd w' = sockfd w.
Proof.
  intros Ho Hc Hk.
  set (w0 := set_flags (Z.lor (flags w) CNX_CLOSING) w).
  assert (Hk0 : rand w0 (rand_ix w0) = Some k) by exact Hk.
  pose proof (vws_serialize_masked
                (vws_frame_new (htons WS_CLOSE_NORMAL) 2 CLOSE_FRAME) k w0
                eq_refl Hk0) as Hgen.
  fold (close_frame_bytes k) in Hgen.
  set (buf := close_frame_bytes k) in *.
  set (w1 := serialized_world _ _) in Hgen.
  assert (Hc1 : 0 < sockfd w1) by exact Hc.
  assert (Hsz : Z.of_nat (length buf) <> 0)
    by apply masked_frame_data_nonzero.
  destruct (vws_socket_write_connected buf (Z.of_nat (length buf)) w1 Hc1 Hsz)
    as (n & w2 & Hw & Hlog & Hfr & Hsame & _ & _ & _ & Hix & _).
  pose proof (write_outcome_connected _ _ _ _ _ Hc1 Hsz Hw) as Hn.
  change (net w1 (net_ix w1)) with (net w (net_ix w)) in Hn. subst n.
  exists (set_e_code VE_NONE (set_freed (freed w2 ++ [f]) w2)).
  split.
  - unfold process_frame. rewrite Ho. cbn [Z.eqb CLOSE_FRAME Pos.eqb].
    unfold bind, vws_set_flag, modify, vws_generate_close_frame. fold w0.
    rewrite Hgen. cbn [deref ret]. rewrite Hw. reflexivity.
  - cbn [written freed flags queue buffer sockfd net_ix set_e_code
         set_freed].
    destruct Hsame as (Hs1 & Hs2 & Hs3 & Hs4 & Hs5 & Hs6).
    rewrite Hlog, Hfr, Hix, Hs4, Hs5, Hs3, Hs1. subst w1 w0. cbn.
    repeat split; try reflexivity. now rewrite <- app_assoc.
Qed.

Lemma process_frame_pong (f : vws_frame) (w : world) :
  opcode f = PONG_FRAME ->
  process_frame f w
  = Done tt (set_e_code VE_NONE (set_freed (freed w ++ [f]) w)).
Proof.
  intro Ho. unfold process_frame. rewrite Ho. reflexivity.
Qed.

Lemma process_frame_data (f : vws_frame) (w : world) :
  opcode f = TEXT_FRAME \/ opcode f = BINARY_FRAME
  \/ opcode f = CONTINUATION_FRAME ->
  process_frame f w
  = Done tt (set_e_code VE_NONE (set_queue (f :: queue w) w)).
Proof.
  intro Ho. unfold process_frame.
  destruct Ho as [Ho | [Ho | Ho]]; rewrite Ho; reflexivity.
Qed.

Lemma process_frame_other (f : vws_frame) (w : world) :
  opcode f <> CLOSE_FRAME -> opcode f <> TEXT_FRAME ->
  opcode f <> BINARY_FRAME -> opcode f <> CONTINUATION_FRAME ->
  opcode f <> PING_FRAME ->
  process_frame f w
  = Done tt (set_e_code VE_NONE (set_freed (freed w ++ [f]) w)).
Proof.
  intros H1 H2 H3 H4 H5. unfold process_frame.
  apply Z.eqb_neq in H1, H2, H3, H4, H5.
  rewrite H1, H2, H3, H4, H5. cbn [orb].
  destruct (opcode f =? PONG_FRAME); reflexivity.
Qed.

(** C5.  [process_frame] on a PING with payload P writes to the socket, in
    one call of [vws_socket_write] that polls the socket once, a serialized
    final PONG frame with payload P, and frees the input frame; on a PONG it
    frees the frame and writes nothing; on a CLOSE it sets CNX_CLOSING and
    writes in the same way a serialized CLOSE frame whose payload is the
    status 1000 on two big-endian bytes; a TEXT, BINARY or CONTINUATION frame
    goes to the head of the queue.  The value of the write is what the
    network decides, and the reply is on the wire whole when the write took
    all of it.  (The socket is open, and the replies are masked, so a key has
    to come from the random generator.) *)
Theorem C5_process_frame (f : vws_frame) (w : world) :
  frame_wf f ->
  (opcode f = PING_FRAME -> 0 < sockfd w ->
   forall k, rand w (rand_ix w) = Some k ->
   exists buf n w',
     process_frame f w = Done tt w' /\
     written w' = written w ++ [(buf, n)] /\
     n = write_outcome (net w (net_ix w)) /\
     net_ix w' = S (net_ix w) /\
     (Z.of_nat (length buf) <= n -> taken (buf, n) = buf) /\
     serialized_frame buf PONG_FRAME (data f) /\
     freed w' = freed w
                ++ [vws_frame_new (data f) (size f) PONG_FRAME; f] /\
     same_connection w w') /\
  (opcode f = PONG_FRAME ->
   exists w',
     process_frame f w = Done tt w' /\
     written w' = written w /\ freed w' = freed w ++ [f] /\
     same_connection w w') /\
  (opcode f = CLOSE_FRAME -> 0 < sockfd w ->
   forall k, rand w (rand_ix w) = Some k ->
   exists buf n w',
     process_frame f w = Done tt w' /\
     flags w' = Z.lor (flags w) CNX_CLOSING /\
     Z.land (flags w') CNX_CLOSING = CNX_CLOSING /\
     written w' = written w ++ [(buf, n)] /\
     n = write_outcome (net w (net_ix w)) /\
     net_ix w' = S (net_ix w) /\
     (Z.of_nat (length buf) <= n -> taken (buf, n) = buf) /\
     (exists payload,
        serialized_frame buf CLOSE_FRAME payload /\
        length payload = 2%nat /\ be_value payload = 1000) /\
     freed w' = freed w
                ++ [vws_frame_new (htons WS_CLOSE_NORMAL) 2 CLOSE_FRAME; f] /\
     queue w' = queue w /\ buffer w' = buffer w /\ sockfd w' = sockfd w) /\
  (opcode f = TEXT_FRAME \/ opcode f = BINARY_FRAME
   \/ opcode f = CONTINUATION_FRAME ->
   exists w',
     process_frame f w = Done tt w' /\
     queue w' = f :: queue w /\
     written w' = written w /\ freed w' = freed w /\
     flags w' = flags w /\ buffer w' = buffer w /\ sockfd w' = sockfd w).
Proof.
  intros Hwf. split; [|split; [|split]].
  - (* PING *)
    intros Ho Hc k Hk.
    destruct (process_frame_ping_open f w k Ho Hc Hk)
      as (w' & Hrun & Hlog & Hix & Hfr & Hsame).
    exists (masked_frame_data (vws_frame_new (data f) (size f) PONG_FRAME) k),
      (write_outcome (net w (net_ix w))), w'.
    split; [exact Hrun|]. split; [exact Hlog|]. split; [reflexivity|].
    split; [exact Hix|]. split; [apply taken_whole|].
    split; [|split; assumption].
    rewrite (wf_size f Hwf).
    apply (masked_frame_new_serialized (data f) PONG_FRAME k).
    + unfold PONG_FRAME. lia.
    + rewrite <- (wf_size f Hwf). exact (wf_bound f Hwf).
  - (* PONG *)
    intros Ho. eexists. split; [exact (process_frame_pong f w Ho)|].
    unfold same_connection. cbn. repeat split; reflexivity.
  - (* CLOSE *)
    intros Ho Hc k Hk.
    destruct (process_frame_close_open f w k Ho Hc Hk)
      as (w' & Hrun & Hfl & Hlog & Hix & Hfr & Hq & Hb & Hs).
    exists (close_frame_bytes k), (write_outcome (net w (net_ix w))), w'.
    split; [exact Hrun|]. split; [exact Hfl|].
    split; [rewrite Hfl; apply land_lor_absorb|].
    split; [exact Hlog|]. split; [reflexivity|]. split; [exact Hix|].
    split; [apply taken_whole|].
    split; [|split; [exact Hfr|split; [exact Hq|split; assumption]]].
    exists (htons WS_CLOSE_NORMAL). split; [|split; reflexivity].
    apply (masked_frame_new_serialized (htons WS_CLOSE_NORMAL) CLOSE_FRAME k).
    + unfold CLOSE_FRAME. lia.
    + simpl. lia.
  - (* data frames *)
    intros Ho. eexists. split; [exact (process_frame_data f w Ho)|].
    cbn. repeat split; reflexivity.
Qed.

Lemma C5_process_frame_witness :
  exists buf n w',
    process_frame ping_x idle_world = Done tt w' /\
    written w' = written idle_world ++ [(buf, n)] /\
    n = write_outcome (net idle_world (net_ix idle_world)) /\
    net_ix w' = S (net_ix idle_world) /\
    (Z.of_nat (length buf) <= n -> taken (buf, n) = buf) /\
    serialized_frame buf PONG_FRAME (data ping_x) /\
    freed w' = freed idle_world
               ++ [vws_frame_new (data ping_x) (size ping_x) PONG_FRAME;
                   ping_x] /\
    same_connection idle_world w'.
Proof.
  assert (Hwf : frame_wf ping_x) by concrete_frame_wf.
  assert (Hfd : 0 < sockfd idle_world) by (cbn; lia).
  destruct (C5_process_frame ping_x idle_world Hwf) as [Hping _].
  exact (Hping eq_refl Hfd (1, 2, 3, 4) eq_refl).
Defined.

(** ** C6: the ingress parser *)

Lemma vws_buffer_drain_buffer (c : Z) (w : world) :
  exists w',
    vws_buffer_drain c w = Done tt w' /\ buffer w' = drained c (buffer w) /\
    written w' = written w /\ freed w' = freed w /\ queue w' = queue w /\
    flags w' = flags w /\ sockfd w' = sockfd w /\ e_code w' = e_code w.
Proof.
  unfold vws_buffer_drain, modify, drained.
  destruct (buffer w) as [|x b] eqn:E.
  - exists w. rewrite E. repeat split; reflexivity.
  - destruct (c >=? Z.of_nat (length (x :: b)));
      eexists; (split; [reflexivity|]); cbn; repeat split; reflexivity.
Qed.

(** What [vws_cnx_ingress] does on a buffer that parses into the frames [fs]
    and the rest [r], with handlers that return and leave the receive buffer
    alone: every frame is handed to [process] in order and its bytes are
    drained, the rest stays in the buffer; the value returned is the number
    of bytes consumed when the rest is empty, and 0 when it is not. *)
Lemma ingress_loop_parsed (process : vws_frame -> M unit)
  (b : list Z) (fs : list (vws_frame * Z)) (r : list Z) :
  parsed b fs r ->
  (forall f w w1, process f w = Done tt w1 -> buffer w1 = buffer w) ->
  forall (fuel : nat) (t : Z) (w w1 : world),
    buffer w = b ->
    dispatch_all process fs w = Done tt w1 ->
    (length fs < fuel)%nat ->
    exists w',
      ingress_loop process fuel t w
      = Done (match r with [] => consumed_total t fs | _ => 0 end) w' /\
      buffer w' = r /\ queue w' = queue w1 /\ written w' = written w1 /\
      flags w' = flags w1 /\
      (r = [] -> w' = set_e_code VE_NONE w1) /\
      (r <> [] -> exists f, w' = set_freed (freed w1 ++ [f]) w1).
Proof.
  intros Hparsed Hpres.
  induction Hparsed as [r Hrest | b f c fs r Hne Hdes Hparsed IH];
    intros fuel t w w1 Hb Hdisp Hfuel.
  - cbn [dispatch_all] in Hdisp. injection Hdisp as <-.
    destruct fuel as [|fuel]; [simpl in Hfuel; lia|].
    cbn [ingress_loop consumed_total fold_left]. unfold bind at 1, gets.
    rewrite Hb.
    destruct Hrest as [-> | (Hne & f & c & Hdes)].
    + cbn [length]. change (Z.of_nat 0 =? 0) with true. cbv iota.
      eexists. split; [reflexivity|]. cbn.
      repeat split; try assumption; try reflexivity. congruence.
    + destruct r as [|x r]; [congruence|].
      destruct (Z.eqb_spec (Z.of_nat (length (x :: r))) 0) as [E|_];
        [simpl in E; lia|].
      rewrite Hdes.
      eexists. split; [reflexivity|]. cbn.
      repeat split; try assumption; try reflexivity; try congruence.
      intros _. eexists. reflexivity.
  - destruct fuel as [|fuel]; [simpl in Hfuel; lia|].
    cbn [dispatch_all] in Hdisp. unfold bind in Hdisp.
    destruct (process f w) as [[] wa| |] eqn:Hpf; try discriminate.
    destruct (vws_buffer_drain_buffer c wa) as (wb & Hdr & Hbuf & _).
    rewrite Hdr in Hdisp.
    cbn [ingress_loop]. unfold bind at 1, gets. rewrite Hb.
    destruct b as [|x b]; [congruence|].
    destruct (Z.eqb_spec (Z.of_nat (length (x :: b))) 0) as [E|_];
      [simpl in E; lia|].
    rewrite Hdes. unfold bind. rewrite Hpf, Hdr.
    assert (Hwb : buffer wb = drained c (x :: b)).
    { rewrite Hbuf, (Hpres f w wa Hpf), Hb. reflexivity. }
    destruct (IH fuel (u64 (t + c)) wb w1 Hwb Hdisp) as (w' & Hrun & Hrest);
      [simpl in Hfuel; lia|].
    exists w'. split; [|exact Hrest].
    rewrite Hrun. destruct r; reflexivity.
Qed.

(** [process_frame] returns only with the receive buffer as it found it. *)
Lemma process_frame_buffer (f : vws_frame) (w w1 : world) :
  process_frame f w = Done tt w1 -> buffer w1 = buffer w.
Proof.
  intro H.
  destruct (Z.eq_dec (opcode f) CLOSE_FRAME) as [Hc|Hc].
  { destruct (rand w (rand_ix w)) as [k|] eqn:Hk.
    - destruct (process_frame_close f w k Hc Hk)
        as (n & w' & Hrun & _ & _ & _ & _ & Hb & _).
      congruence.
    - rewrite (process_frame_no_key f w (or_intror Hc) Hk) in H.
      discriminate. }
  destruct (Z.eq_dec (opcode f) PING_FRAME) as [Hp|Hp].
  { destruct (rand w (rand_ix w)) as [k|] eqn:Hk.
    - destruct (process_frame_ping f w k Hp Hk)
        as (n & w' & Hrun & _ & _ & Hsame).
      destruct Hsame as (_ & _ & Hb & _). congruence.
    - rewrite (process_frame_no_key f w (or_introl Hp) Hk) in H.
      discriminate. }
  destruct (Z.eq_dec (opcode f) TEXT_FRAME) as [Ht|Ht].
  { rewrite (process_frame_data f w (or_introl Ht)) in H.
    injection H as <-. reflexivity. }
  destruct (Z.eq_dec (opcode f) BINARY_FRAME) as [Hb|Hb].
  { rewrite (process_frame_data f w (or_intror (or_introl Hb))) in H.
    injection H as <-. reflexivity. }
  destruct (Z.eq_dec (opcode f) CONTINUATION_FRAME) as [Hn|Hn].
  { rewrite (process_frame_data f w (or_intror (or_intror Hn))) in H.
    injection H as <-. reflexivity. }
  rewrite (process_frame_other f w Hc Ht Hb Hn Hp) in H.
  injection H as <-. reflexivity.
Qed.

(** The same for [vws_cnx_ingress] with [process_frame] as handler. *)
Lemma vws_cnx_ingress_parsed (b : list Z) (fs : list (vws_frame * Z))
  (r : list Z) (fuel : nat) (w w1 : world) :
  parsed b fs r -> buffer w = b ->
  dispatch_all process_frame fs w = Done tt w1 ->
  (length fs < fuel)%nat ->
  exists w',
    vws_cnx_ingress process_frame fuel w
    = Done (match r with [] => consumed_total 0 fs | _ => 0 end) w' /\
    buffer w' = r /\ queue w' = queue w1 /\ written w' = written w1 /\
    flags w' = flags w1 /\
    (r = [] -> w' = set_e_code VE_NONE w1) /\
    (r <> [] -> exists f, w' = set_freed (freed w1 ++ [f]) w1).
Proof.
  intros Hp Hb Hd Hf. unfold vws_cnx_ingress.
  exact (ingress_loop_parsed process_frame b fs r Hp process_frame_buffer
           fuel 0 w w1 Hb Hd Hf).
Qed.

(** C6.  [vws_cnx_ingress] is to return the number of bytes it consumed.  On
    a buffer with one complete frame and one more byte it dispatches the
    frame, drains its two bytes and leaves the byte in the buffer, but
    returns 0, not 2; the count is returned only when the buffer ends with a
    complete frame. *)
Theorem C6_ingress_returns_zero :
  (exists w',
     vws_cnx_ingress process_frame 3 frame_and_a_byte = Done 0 w' /\
     queue w' = [empty_text] /\ buffer w' = [129]) /\
  (exists w',
     vws_cnx_ingress process_frame 3 two_frames = Done 4 w' /\
     queue w' = [empty_text; empty_text] /\ buffer w' = []).
Proof.
  split; eexists; (split; [vm_compute; reflexivity|]);
    split; vm_compute; reflexivity.
Qed.

(** ** C7: the accept key *)

Lemma strlen_cstring (s : list Z) : cstring s -> strlen s = length s.
Proof.
  unfold cstring. induction s as [|c s IH]; intro H; simpl; [reflexivity|].
  destruct (Z.eqb_spec c 0) as [->|_]; [elim H; now left|].
  f_equal. apply IH. intro Hin. apply H. now right.
Qed.

Lemma strncpy_cstring (s : list Z) :
  cstring s -> strncpy s (strlen s) = s.
Proof.
  intro H. unfold strncpy. rewrite (strlen_cstring s H), !firstn_all.
  rewrite Nat.sub_diag. apply app_nil_r.
Qed.

Lemma store_key_guid (k g : list Z) :
  firstn (length k + length g)
    (store (store (store (repeat 0 (length k + length g + 1)) 0 k)
              (length k) g) (length k + length g) [0])
  = k ++ g.
Proof.
  unfold store. cbn [firstn app Nat.add].
  assert (H1 : forall n, skipn (length k) (k ++ n) = n)
    by (intro n; now rewrite skipn_app, skipn_all, Nat.sub_diag).
  assert (H2 : firstn (length k)
                 (k ++ skipn (length k) (repeat 0 (length k + length g + 1)))
               = k) by apply firstn_length_app.
  rewrite H2.
  replace (firstn (length k + length g)
             (k ++ g ++ skipn (length k + length g)
                (k ++ skipn (length k)
                   (repeat 0 (length k + length g + 1)))))
    with (k ++ g).
  - rewrite <- length_app. rewrite firstn_length_app. reflexivity.
  - rewrite <- length_app, app_assoc. now rewrite firstn_length_app.
Qed.

Lemma websocket_guid_cstring : cstring websocket_guid.
Proof.
  unfold cstring. vm_compute. intuition discriminate.
Qed.

Lemma vws_accept_key_spec (k : list Z) :
  cstring k ->
  vws_accept_key k = vws_base64_encode (Sha1.SHA1 (k ++ websocket_guid)).
Proof.
  intro Hk. unfold vws_accept_key.
  rewrite (strncpy_cstring k Hk),
    (strncpy_cstring websocket_guid websocket_guid_cstring).
  rewrite (strlen_cstring k Hk),
    (strlen_cstring websocket_guid websocket_guid_cstring).
  now rewrite store_key_guid.
Qed.

(** [strcmp] returns 0 exactly on equal strings. *)
Lemma strcmp_eq (a : list Z) :
  forall b, cstring a -> cstring b -> (strcmp a b = 0 <-> a = b).
Proof.
  unfold cstring.
  induction a as [|x a IH]; intros [|y b] Ha Hb; simpl.
  - tauto.
  - split; [|discriminate]. intro H. elim Hb. left. lia.
  - split; [|discriminate]. intro H. elim Ha. now left.
  - destruct (Z.eqb_spec x y) as [->|Hne].
    + destruct (Z.eqb_spec y 0) as [->|_]; [elim Ha; now left|].
      rewrite IH; [| intro; apply Ha; now right | intro; apply Hb; now right].
      split; [now intros -> | now inversion 1].
    + split; [lia | inversion 1; contradiction].
Qed.

Lemma base64_char_pos (i : Z) : 0 <= i -> 0 < base64_char i.
Proof.
  intro H. unfold base64_char.
  repeat match goal with
         | |- context [?a <? ?b] => destruct (Z.ltb_spec a b)
         | |- context [?a =? ?b] => destruct (Z.eqb_spec a b)
         end; lia.
Qed.

Lemma base64_positive (n : nat) :
  forall d, (length d <= n)%nat -> Forall (fun b => 0 <= b) d ->
            Forall (fun c => 0 < c) (vws_base64_encode d).
Proof.
  induction n as [|n IH]; intros d Hl Hd.
  - destruct d; [constructor | simpl in Hl; lia].
  - destruct d as [|a [|b [|c d]]]; cbn [vws_base64_encode].
    + constructor.
    + inversion Hd; subst.
      repeat constructor; try lia; apply base64_char_pos;
        try apply Z.shiftr_nonneg; try apply Z.shiftl_nonneg;
        try apply Z.land_nonneg; lia.
    + inversion Hd as [|? ? Ha Hd1]; subst. inversion Hd1; subst.
      repeat constructor; try lia; apply base64_char_pos;
        try apply Z.lor_nonneg; try split;
        try apply Z.shiftr_nonneg; try apply Z.shiftl_nonneg;
        try apply Z.land_nonneg; lia.
    + inversion Hd as [|? ? Ha Hd1]; subst.
      inversion Hd1 as [|? ? Hb Hd2]; subst.
      inversion Hd2 as [|? ? Hc Hd3]; subst.
      repeat (apply Forall_cons);
        try (apply base64_char_pos;
             try apply Z.lor_nonneg; try split;
             try apply Z.shiftr_nonneg; try apply Z.shiftl_nonneg;
             try apply Z.land_nonneg; lia).
      apply IH; [simpl in Hl; lia | assumption].
Qed.

Lemma be_bytes_nonneg (n : nat) :
  forall v, Forall (fun b => 0 <= b) (Sha1.be_bytes n v).
Proof.
  induction n as [|n IH]; intro v; cbn [Sha1.be_bytes]; [constructor|].
  apply Forall_app. split; [apply IH|].
  constructor; [|constructor].
  pose proof (is_byte_land v) as H. unfold is_byte in H. lia.
Qed.

Lemma SHA1_nonneg (msg : list Z) : Forall (fun b => 0 <= b) (Sha1.SHA1 msg).
Proof.
  unfold Sha1.SHA1.
  destruct (Sha1.blocks _ _ _) as [[[[h0 h1] h2] h3] h4].
  rewrite !Forall_app. repeat split; apply be_bytes_nonneg.
Qed.

Lemma vws_accept_key_cstring (k : list Z) : cstring (vws_accept_key k).
Proof.
  unfold cstring, vws_accept_key. intro Hin.
  pose proof (base64_positive _ _ (Nat.le_refl _) (SHA1_nonneg
    (firstn (strlen k + strlen websocket_guid)
       (store (store (store
          (repeat 0 (strlen k + strlen websocket_guid + 1)) 0
          (strncpy k (strlen k))) (strlen k)
          (strncpy websocket_guid (strlen websocket_guid)))
          (strlen k + strlen websocket_guid) [0])))) as H.
  rewrite Forall_forall in H. specialize (H 0 Hin). lia.
Qed.

(** C7.  For every client key, [vws_accept_key] is the Base64 encoding of the
    SHA-1 hash of the key followed by the WebSocket GUID;
    [verify_handshake] succeeds exactly when the response equals that value
    byte for byte; and the key of the RFC 6455 example gives the accept value
    of the RFC. *)
Theorem C7_accept_key (k r : list Z) :
  cstring k -> cstring r ->
  vws_accept_key k
  = vws_base64_encode
      (Sha1.SHA1 (k ++ lit "258EAFA5-E914-47DA-95CA-C5AB0DC85B11")) /\
  (verify_handshake k r = true <-> r = vws_accept_key k) /\
  vws_accept_key (lit "dGhlIHNhbXBsZSBub25jZQ==")
  = lit "s3pPLMBiTxaQ9kYGzzhZRbK+xOo=".
Proof.
  intros Hk Hr. split; [exact (vws_accept_key_spec k Hk)|]. split.
  - unfold verify_handshake. rewrite Z.eqb_eq.
    rewrite (strcmp_eq _ r (vws_accept_key_cstring k) Hr).
    split; intro H; now symmetry.
  - vm_compute. reflexivity.
Qed.

Lemma C7_accept_key_witness :
  vws_accept_key (lit "dGhlIHNhbXBsZSBub25jZQ==")
  = vws_base64_encode
      (Sha1.SHA1 (lit "dGhlIHNhbXBsZSBub25jZQ=="
                  ++ lit "258EAFA5-E914-47DA-95CA-C5AB0DC85B11")) /\
  (verify_handshake (lit "dGhlIHNhbXBsZSBub25jZQ==")
     (lit "s3pPLMBiTxaQ9kYGzzhZRbK+xOo=") = true
   <-> lit "s3pPLMBiTxaQ9kYGzzhZRbK+xOo="
       = vws_accept_key (lit "dGhlIHNhbXBsZSBub25jZQ==")) /\
  vws_accept_key (lit "dGhlIHNhbXBsZSBub25jZQ==")
  = lit "s3pPLMBiTxaQ9kYGzzhZRbK+xOo=".
Proof.
  apply (C7_accept_key (lit "dGhlIHNhbXBsZSBub25jZQ==")
           (lit "s3pPLMBiTxaQ9kYGzzhZRbK+xOo="));
    unfold cstring; vm_compute; intuition discriminate.
Defined.

(** ** C8: sending on a closed connection *)

Lemma vws_cnx_is_connected_closed (w : world) :
  sockfd w <= 0 ->
  vws_cnx_is_connected w = Done false (set_e_code VE_SOCKET w).
Proof.
  intro H. unfold vws_cnx_is_connected, bind, vws_socket_is_connected, gets.
  destruct (Z.ltb_spec 0 (sockfd w)); [lia | reflexivity].
Qed.

Lemma vws_cnx_is_connected_open (w : world) :
  0 < sockfd w -> vws_cnx_is_connected w = Done true w.
Proof.
  intro H. unfold vws_cnx_is_connected, bind, vws_socket_is_connected, gets.
  destruct (Z.ltb_spec 0 (sockfd w)); [reflexivity | lia].
Qed.

Lemma vws_frame_send_closed (f : vws_frame) (w : world) :
  sockfd w <= 0 ->
  vws_frame_send f w = Done (-1) (set_e_code VE_SOCKET w).
Proof.
  intro H. unfold vws_frame_send, bind.
  now rewrite (vws_cnx_is_connected_closed w H).
Qed.

(** C8, as stated, fails: a send on a closed connection returns -1, but the
    last error it leaves is SOCKET, not RT. *)
Lemma C8_counterexample :
  vws_frame_send hello_frame closed_world
  = Done (-1) (set_e_code VE_SOCKET closed_world) /\
  e_code (set_e_code VE_SOCKET closed_world) <> VE_RT.
Proof.
  split; [vm_compute; reflexivity | discriminate].
Qed.

(** C8, amended.  On a connection whose socket is not connected,
    [vws_frame_send], [vws_msg_send_text] and [vws_msg_send_binary] return -1
    at once: nothing is serialized or written, and the only change is the
    thread's last error, which [vws_cnx_is_connected] sets to SOCKET. *)
Theorem C8_send_closed (w : world) (f : vws_frame) (d : list Z) (sz : Z) :
  sockfd w <= 0 ->
  vws_frame_send f w = Done (-1) (set_e_code VE_SOCKET w) /\
  vws_msg_send_text d w = Done (-1) (set_e_code VE_SOCKET w) /\
  vws_msg_send_binary d sz w = Done (-1) (set_e_code VE_SOCKET w) /\
  e_code (set_e_code VE_SOCKET w) = VE_SOCKET /\
  written (set_e_code VE_SOCKET w) = written w.
Proof.
  intro H. repeat split;
    try (unfold vws_msg_send_text, vws_msg_send_binary, vws_frame_send_data);
    apply vws_frame_send_closed; assumption.
Qed.

Lemma C8_send_closed_witness :
  vws_frame_send hello_frame closed_world
  = Done (-1) (set_e_code VE_SOCKET closed_world) /\
  vws_msg_send_text (lit "hello") closed_world
  = Done (-1) (set_e_code VE_SOCKET closed_world) /\
  vws_msg_send_binary [1; 2; 3] 3 closed_world
  = Done (-1) (set_e_code VE_SOCKET closed_world) /\
  e_code (set_e_code VE_SOCKET closed_world) = VE_SOCKET /\
  written (set_e_code VE_SOCKET closed_world) = written closed_world.
Proof.
  apply (C8_send_closed closed_world hello_frame (lit "hello") 3).
  simpl. lia.
Defined.

(** ** C10: reconnecting *)

(** C10.  On a connection that is not connected [vws_reconnect] returns
    false, whatever the connection attempt it makes through [cnx_connect]
    returns, true included; it returns true only when the connection was
    connected at the call, and then does nothing else. *)
Theorem C10_reconnect (vws_socket_connect : list Z -> Z -> bool -> M bool)
  (w : world) :
  (0 < sockfd w -> vws_reconnect vws_socket_connect w = Done true w) /\
  (sockfd w <= 0 ->
   (url w = None ->
    vws_reconnect vws_socket_connect w
    = Done false (set_e_code VE_SOCKET w)) /\
   (forall b w',
      url w <> None ->
      cnx_connect vws_socket_connect (set_e_code VE_SOCKET w) = Done b w' ->
      vws_reconnect vws_socket_connect w = Done false w')) /\
  (forall w',
     vws_reconnect vws_socket_connect w = Done true w' -> 0 < sockfd w).
Proof.
  split; [|split].
  - intro H. unfold vws_reconnect, bind.
    now rewrite (vws_cnx_is_connected_open w H).
  - intro H. split.
    + intro Hu. unfold vws_reconnect, bind.
      rewrite (vws_cnx_is_connected_closed w H).
      unfold gets. cbn [url set_e_code]. rewrite Hu. reflexivity.
    + intros b w' Hu Hc. unfold vws_reconnect, bind.
      rewrite (vws_cnx_is_connected_closed w H).
      unfold gets. cbn [url set_e_code].
      destruct (url w) as [u|] eqn:E; [|contradiction].
      rewrite Hc. reflexivity.
  - intros w' Hr.
    destruct (Z.ltb_spec 0 (sockfd w)) as [|Hle]; [assumption|].
    exfalso. unfold vws_reconnect, bind in Hr.
    rewrite (vws_cnx_is_connected_closed w Hle) in Hr.
    unfold gets in Hr. cbn [url set_e_code] in Hr.
    destruct (url w) as [u|].
    + destruct (cnx_connect vws_socket_connect (set_e_code VE_SOCKET w));
        discriminate.
    + discriminate.
Qed.

Lemma C10_reconnect_witness :
  cnx_connect connect_succeeds (set_e_code VE_SOCKET closed_with_url)
  = Done true (set_e_code VE_NONE (set_sockfd 4 closed_with_url)) /\
  vws_reconnect connect_succeeds closed_with_url
  = Done false (set_e_code VE_NONE (set_sockfd 4 closed_with_url)).
Proof.
  assert (Hc : cnx_connect connect_succeeds
                 (set_e_code VE_SOCKET closed_with_url)
               = Done true (set_e_code VE_NONE (set_sockfd 4 closed_with_url)))
    by reflexivity.
  split; [exact Hc|].
  destruct (C10_reconnect connect_succeeds closed_with_url) as (_ & H & _).
  assert (Hfd : sockfd closed_with_url <= 0) by (simpl; lia).
  destruct (H Hfd) as [_ H2].
  apply (H2 true _); [discriminate | exact Hc].
Defined.

(** ** C9: graceful close *)

Lemma same_connection_trans (w1 w2 w3 : world) :
  same_connection w1 w2 -> same_connection w2 w3 -> same_connection w1 w3.
Proof.
  unfold same_connection. intuition congruence.
Qed.

(** The write loop on a network that delivers what is left of the buffer:
    it makes one call for each event, each with the tail of the buffer from
    where the calls before it got to, and between them the calls take that
    tail whole. *)
Lemma disconnect_loop_delivers (evs : list net_event) :
  forall (b : list Z) (i : Z) (w : world) (fuel : nat),
    0 < sockfd w -> 0 <= i < Z.of_nat (length b) ->
    Z.of_nat (length b) < 2 ^ 63 ->
    delivers (Z.of_nat (length b) - i) evs ->
    (forall j, (j < length evs)%nat ->
               net w (net_ix w + j) = nth j evs PollFailed) ->
    (length evs < fuel)%nat ->
    exists w',
      disconnect_loop fuel b i w = Done tt w' /\
      written w' = written w ++ offered b i evs /\
      concat (map taken (offered b i evs)) = skipn (Z.to_nat i) b /\
      freed w' = freed w /\ same_connection w w' /\
      rand w' = rand w /\ rand_ix w' = rand_ix w.
Proof.
  induction evs as [|ev evs IH]; intros b i w fuel Hc Hi Hb Hd Hnet Hfuel;
    [contradiction|].
  destruct fuel as [|fuel]; [simpl in Hfuel; lia|].
  cbn [disconnect_loop].
  destruct (Z.ltb_spec i (Z.of_nat (length b))) as [_|]; [|lia].
  assert (Hsz : Z.of_nat (length b) - i <> 0) by lia.
  destruct (vws_socket_write_connected (skipn (Z.to_nat i) b)
              (Z.of_nat (length b) - i) w Hc Hsz)
    as (n & w2 & Hw & Hlog & Hfr & Hsame & Hr & Hrix & Hnet2 & Hix2 & _).
  pose proof (write_outcome_connected _ _ _ _ _ Hc Hsz Hw) as Hn.
  assert (Hev : net w (net_ix w) = ev).
  { pose proof (Hnet 0%nat) as H0. rewrite Nat.add_0_r in H0.
    apply H0. simpl. lia. }
  rewrite Hev in Hn.
  assert (Hc2 : 0 < sockfd w2)
    by (destruct Hsame as (E & _); rewrite E; exact Hc).
  assert (Hnet' : forall j, (j < length evs)%nat ->
                    net w2 (net_ix w2 + j) = nth j evs PollFailed).
  { intros j Hj. rewrite Hnet2, Hix2.
    pose proof (Hnet (S j)) as HS. cbn [nth length] in HS.
    rewrite <- HS by lia. f_equal. lia. }
  assert (Hlim : 2 ^ 63 + 2 ^ 63 = 2 ^ 64) by reflexivity.
  unfold bind at 1. rewrite Hw. cbn [offered map concat].
  destruct ev as [| |r s]; cbn [delivers write_outcome] in Hd, Hn |- *.
  - contradiction.
  - (* the poll timed out *)
    subst n. change (0 <? 0) with false. cbv iota.
    rewrite Z.add_0_r, u64_small by lia.
    destruct (IH b i w2 fuel Hc2 Hi Hb Hd Hnet')
      as (w' & Hrun & Hlog' & Hcat & Hfr' & Hsame' & Hr' & Hrix');
      [simpl in Hfuel; lia|].
    exists w'. split; [exact Hrun|].
    split; [rewrite Hlog', Hlog, <- app_assoc; reflexivity|].
    split; [unfold taken at 1; cbn [fst snd Z.to_nat firstn app];
            exact Hcat|].
    split; [congruence|].
    split; [exact (same_connection_trans _ _ _ Hsame Hsame')|].
    split; congruence.
  - (* the socket took [s] bytes *)
    destruct Hd as (Hpo & Hs & Hd).
    destruct (Z.eqb_spec (Z.land r POLLOUT) 0) as [|_]; [contradiction|].
    subst n. destruct (Z.ltb_spec s 0) as [|_]; [lia|].
    rewrite u64_small by lia.
    destruct (Z.leb_spec (Z.of_nat (length b) - i) s) as [Hdone|Hmore].
    + (* the last of the buffer *)
      subst evs. destruct fuel as [|fuel]; [simpl in Hfuel; lia|].
      cbn [disconnect_loop offered map concat].
      destruct (Z.ltb_spec (i + s) (Z.of_nat (length b))) as [|_]; [lia|].
      exists w2. split; [reflexivity|]. split; [exact Hlog|].
      split.
      { rewrite app_nil_r. apply taken_whole. rewrite length_skipn. lia. }
      split; [exact Hfr|]. split; [exact Hsame|]. split; assumption.
    + destruct (IH b (i + s) w2 fuel Hc2) as
        (w' & Hrun & Hlog' & Hcat & Hfr' & Hsame' & Hr' & Hrix');
        [lia | exact Hb
         | replace (Z.of_nat (length b) - (i + s))
             with (Z.of_nat (length b) - i - s) by lia; exact Hd
         | exact Hnet' | simpl in Hfuel; lia |].
      exists w'. split; [exact Hrun|].
      split; [rewrite Hlog', Hlog, <- app_assoc; reflexivity|].
      split.
      { rewrite Hcat. unfold taken. cbn [fst snd].
        replace (Z.to_nat (i + s)) with (Z.to_nat s + Z.to_nat i)%nat
          by lia.
        rewrite <- skipn_skipn. apply firstn_skipn. }
      split; [congruence|].
      split; [exact (same_connection_trans _ _ _ Hsame Hsame')|].
      split; congruence.
Qed.

(** Closing the socket leaves it disconnected and touches neither the flags,
    the queue, the receive buffer nor the logs. *)
Lemma vws_socket_disconnect_spec (w : world) :
  exists w',
    vws_socket_disconnect w = Done tt w' /\
    sockfd w' <= 0 /\ flags w' = flags w /\ queue w' = queue w /\
    buffer w' = buffer w /\ written w' = written w /\ freed w' = freed w.
Proof.
  unfold vws_socket_disconnect, vws_socket_close, bind,
    vws_socket_is_connected, vws_success, vws_error, syscall, modify, gets,
    ret.
  destruct (Z.ltb_spec 0 (sockfd w)) as [Hc|Hc]; cbn [negb].
  - destruct (ssl w).
    + destruct (sys w (sys_ix w) =? 0).
      * cbn [sys sys_ix set_sys_ix].
        destruct (negb (sys w (S (sys_ix w)) =? 1));
          cbn [sockfd set_ssl set_e_code set_sys_ix];
          (destruct (Z.ltb_spec 0 (sockfd w)); [|lia]);
          cbn [sys sys_ix set_ssl set_e_code set_sys_ix];
          match goal with
          | |- context [if ?c then _ else _] => destruct c
          end;
          eexists; (split; [reflexivity|]); cbn; repeat split; lia.
      * destruct (negb (sys w (sys_ix w) =? 1));
          cbn [sockfd set_ssl set_e_code set_sys_ix];
          (destruct (Z.ltb_spec 0 (sockfd w)); [|lia]);
          cbn [sys sys_ix set_ssl set_e_code set_sys_ix];
          match goal with
          | |- context [if ?c then _ else _] => destruct c
          end;
          eexists; (split; [reflexivity|]); cbn; repeat split; lia.
    + destruct (Z.ltb_spec 0 (sockfd w)); [|lia].
      destruct (sys w (sys_ix w) =? -1);
        eexists; (split; [reflexivity|]); cbn; repeat split; lia.
  - exists w. split; [reflexivity|]. repeat split; try reflexivity. lia.
Qed.

(** On a socket that only times out the write loop makes no progress:
    whatever the number of turns allowed, it has not ended. *)
Lemma disconnect_loop_timeouts (fuel : nat) :
  forall (b : list Z) (w : world),
    0 < sockfd w -> b <> [] -> (forall i, net w i = PollTimeout) ->
    disconnect_loop fuel b 0 w = OutOfFuel.
Proof.
  induction fuel as [|fuel IH]; intros b w Hfd Hb Hnet; [reflexivity|].
  cbn [disconnect_loop].
  assert (Hlen : 0 < Z.of_nat (length b))
    by (destruct b; [congruence | simpl; lia]).
  destruct (Z.ltb_spec 0 (Z.of_nat (length b))) as [_|]; [|lia].
  unfold bind at 1.
  unfold vws_socket_write, vws_socket_write_body, bind, vws_success,
    vws_socket_is_connected, vws_error, poll_write, modify, gets, ret.
  cbn [sockfd set_e_code].
  destruct (Z.ltb_spec 0 (sockfd w)) as [_|]; [|lia]. cbn [negb].
  destruct (Z.eqb_spec (Z.of_nat (length b) - 0) 0) as [|_]; [lia|].
  cbn [net net_ix set_e_code]. rewrite Hnet.
  change (0 <? 0) with false. cbv iota.
  change (u64 (0 + 0)) with 0.
  apply IH; [exact Hfd | exact Hb | exact Hnet].
Qed.

Lemma vws_disconnect_closed (disconnect : option (M unit)) (fuel : nat)
  (w : world) :
  sockfd w <= 0 ->
  vws_disconnect disconnect fuel w = Done tt (set_e_code VE_SOCKET w).
Proof.
  intro H. unfold vws_disconnect, bind.
  now rewrite (vws_cnx_is_connected_closed w H).
Qed.

(** C9, as stated, fails: after a first [vws_disconnect] the last error is
    clear, and the second call, which does return at once, leaves SOCKET as
    the thread's last error: the state after it is not the state before
    it. *)
Lemma C9_counterexample :
  exists w1 w2,
    vws_disconnect None 9 idle_world = Done tt w1 /\
    vws_disconnect None 9 w1 = Done tt w2 /\
    e_code w1 = VE_NONE /\ e_code w2 = VE_SOCKET /\ w2 <> w1.
Proof.
  eexists. eexists.
  split; [vm_compute; reflexivity|].
  split; [vm_compute; reflexivity|].
  split; [reflexivity|]. split; [reflexivity|].
  intro H. apply (f_equal e_code) in H. discriminate.
Qed.

Lemma close_frame_bytes_length (k : key4) :
  length (close_frame_bytes k) = 8%nat.
Proof. destruct k as [[[? ?] ?] ?]. reflexivity. Qed.

(** C9, amended.  On a connected connection [vws_disconnect] runs the
    registered disconnect callback, sets the flags to CLOSED, writes to the
    socket a serialized CLOSE frame with the status 1000 on two big-endian
    bytes, and closes the socket.  The frame goes out in one call of
    [vws_socket_write] for each event of the network, every call with what
    the calls before it have left of the frame, and what these calls take
    is, put together, the frame.  A second call returns at once: it runs no
    callback and writes nothing, and the one thing it changes is the thread's
    last error, which the connection test sets to SOCKET.  (The callback is
    taken to return with the socket open, the random generator to deliver
    the masking key, and the network to deliver the eight bytes: polls may
    time out and writes may be short, but none fails.) *)
Theorem C9_disconnect (disconnect : option (M unit)) (fuel : nat)
  (w w1 : world) (k : key4) (evs : list net_event) :
  0 < sockfd w ->
  run_hook disconnect w = Done tt w1 ->
  0 < sockfd w1 ->
  rand w1 (rand_ix w1) = Some k ->
  delivers (Z.of_nat (length (close_frame_bytes k))) evs ->
  (forall j, (j < length evs)%nat ->
             net w1 (net_ix w1 + j) = nth j evs PollFailed) ->
  (length evs < fuel)%nat ->
  exists w',
    vws_disconnect disconnect fuel w = Done tt w' /\
    flags w' = CNX_CLOSED /\ sockfd w' <= 0 /\
    written w' = written w1 ++ offered (close_frame_bytes k) 0 evs /\
    concat (map taken (offered (close_frame_bytes k) 0 evs))
    = close_frame_bytes k /\
    (exists payload,
       serialized_frame (close_frame_bytes k) CLOSE_FRAME payload /\
       length payload = 2%nat /\ be_value payload = 1000) /\
    queue w' = queue w1 /\ buffer w' = buffer w1 /\
    forall fuel2,
      vws_disconnect disconnect fuel2 w'
      = Done tt (set_e_code VE_SOCKET w').
Proof.
  intros Hfd Hhook Hfd1 Hk Hd Hnet Hfuel.
  set (buf := close_frame_bytes k) in *.
  set (w2 := set_flags CNX_CLOSED w1).
  assert (Hk2 : rand w2 (rand_ix w2) = Some k) by exact Hk.
  pose proof (vws_serialize_masked
                (vws_frame_new (htons WS_CLOSE_NORMAL) 2 CLOSE_FRAME) k w2
                eq_refl Hk2) as Hgen.
  fold (close_frame_bytes k) in Hgen. fold buf in Hgen.
  set (w3 := serialized_world _ _) in Hgen.
  assert (Hlen : length buf = 8%nat) by apply close_frame_bytes_length.
  assert (Hfd3 : 0 < sockfd w3) by exact Hfd1.
  assert (Hnet3 : forall j, (j < length evs)%nat ->
                    net w3 (net_ix w3 + j) = nth j evs PollFailed)
    by exact Hnet.
  assert (Hd3 : delivers (Z.of_nat (length buf) - 0) evs)
    by (rewrite Z.sub_0_r; exact Hd).
  destruct (disconnect_loop_delivers evs buf 0 w3 fuel Hfd3) as
    (w4 & Hloop & Hlog & Hcat & Hfr & Hsame & _);
    [rewrite Hlen; lia | rewrite Hlen; pow64; lia | exact Hd3 | exact Hnet3
     | exact Hfuel |].
  destruct (vws_socket_disconnect_spec w4) as
    (w5 & Hdis & Hfd5 & Hfl5 & Hq5 & Hb5 & Hw5 & Hfr5).
  destruct Hsame as (Hs1 & Hs2 & Hs3 & Hs4 & Hs5 & Hs6).
  exists w5.
  split.
  { unfold vws_disconnect, bind.
    rewrite (vws_cnx_is_connected_open w Hfd). cbn [negb].
    fold (run_hook disconnect). rewrite Hhook.
    unfold modify at 1. fold w2.
    unfold vws_generate_close_frame. rewrite Hgen. cbn [deref ret].
    rewrite Hloop. exact Hdis. }
  split; [rewrite Hfl5, Hs4; reflexivity|].
  split; [assumption|].
  split; [rewrite Hw5, Hlog; reflexivity|].
  split; [exact Hcat|].
  split.
  { exists (htons WS_CLOSE_NORMAL). split; [|split; reflexivity].
    apply (masked_frame_new_serialized (htons WS_CLOSE_NORMAL) CLOSE_FRAME k).
    - unfold CLOSE_FRAME. lia.
    - simpl. lia. }
  split; [rewrite Hq5, Hs5; reflexivity|].
  split; [rewrite Hb5, Hs3; reflexivity|].
  intro fuel2. now apply vws_disconnect_closed.
Qed.

Lemma C9_disconnect_witness :
  exists w',
    vws_disconnect (Some note_disconnect) 9 hesitant_world = Done tt w' /\
    flags w' = CNX_CLOSED /\ sockfd w' <= 0 /\
    written w'
    = written (set_buffer [] hesitant_world)
      ++ offered (close_frame_bytes (1, 2, 3, 4)) 0
           [PollTimeout; PollReady POLLOUT 3; PollReady POLLOUT 5] /\
    concat (map taken
              (offered (close_frame_bytes (1, 2, 3, 4)) 0
                 [PollTimeout; PollReady POLLOUT 3; PollReady POLLOUT 5]))
    = close_frame_bytes (1, 2, 3, 4) /\
    (exists payload,
       serialized_frame (close_frame_bytes (1, 2, 3, 4)) CLOSE_FRAME
         payload /\
       length payload = 2%nat /\ be_value payload = 1000) /\
    queue w' = queue (set_buffer [] hesitant_world) /\
    buffer w' = buffer (set_buffer [] hesitant_world) /\
    forall fuel2,
      vws_disconnect (Some note_disconnect) fuel2 w'
      = Done tt (set_e_code VE_SOCKET w').
Proof.
  apply (C9_disconnect (Some note_disconnect) 9 hesitant_world
           (set_buffer [] hesitant_world) (1, 2, 3, 4)
           [PollTimeout; PollReady POLLOUT 3; PollReady POLLOUT 5]).
  - simpl. lia.
  - reflexivity.
  - simpl. lia.
  - reflexivity.
  - cbn [delivers close_frame_bytes]. split; [discriminate|].
    split; [pow64; lia|]. cbn. split; [discriminate|].
    split; [pow64; lia | reflexivity].
  - intros j Hj. destruct j as [|[|[|j]]]; try reflexivity.
    simpl in Hj. lia.
  - simpl. lia.
Defined.

(** * Further properties *)

(** ** The codec on unmasked frames and on streams *)

Lemma deserialize_plain (b0 b1 : Z) (ext payload rest : list Z)
  (f0 : vws_frame) (c0 n : Z) :
  n = Z.of_nat (length payload) -> n < 2 ^ 63 ->
  Z.land (Z.shiftr b1 7) 1 = 0 ->
  length_coded b1 ext n ->
  let d := b0 :: b1 :: ext ++ payload ++ rest in
  vws_deserialize d (Z.of_nat (length d)) f0 c0
  = Some (FRAME_COMPLETE,
          mk_frame (Z.land (Z.shiftr b0 7) 1) (Z.land b0 15) 0
            (2 + Z.of_nat (length ext)) n payload,
          2 + Z.of_nat (length ext) + n).
Proof.
  intros Hn Hlim Hm Hc d.
  assert (Hlen : Z.of_nat (length d)
                 = 2 + Z.of_nat (length ext) + n + Z.of_nat (length rest)).
  { subst d. cbn [length]. rewrite !length_app. lia. }
  pow64.
  unfold vws_deserialize.
  destruct (Z.ltb_spec (Z.of_nat (length d)) 2) as [Hlt|_]; [lia|].
  frame_fields.
  change (nth 0 d 0) with b0. change (nth 1 d 0) with b1.
  rewrite Hm.
  destruct Hc as [(Hl & Hle & ->)
                 | [(Hl & Hex & Hby & Hv) | (Hl & Hex & Hby & Hv)]];
    rewrite Hl.
  - destruct (Z.eqb_spec n 126) as [|_]; [lia|].
    destruct (Z.eqb_spec n 127) as [|_]; [lia|].
    cbn [length] in *. change (Z.of_nat 0) with 0 in *.
    destruct (Z.ltb_spec (Z.of_nat (length d)) (2 + 0)) as [|_]; [lia|].
    change (0 <? 0) with false. cbv iota. frame_fields.
    change (negb (0 =? 0)) with false. cbv iota.
    rewrite u64_small by (pow64; lia).
    destruct (Z.ltb_spec (Z.of_nat (length d)) (2 + 0 + n)) as [|_]; [lia|].
    destruct (Z.leb_spec (2 + 0 + n) (Z.of_nat (length d))) as [_|]; [|lia].
    subst d. cbn [app].
    change (Z.to_nat (2 + 0)) with 2%nat. cbn [skipn].
    rewrite Hn, Nat2Z.id, firstn_length_app.
    unfold set_data, set_offset; frame_fields.
    apply f_equal. apply f_equal2; [reflexivity | lia].
  - destruct (ext_2 ext Hex) as (e1 & e2 & ->).
    assert (Hr : read_length [e1; e2] = n)
      by (rewrite read_length_be; [assumption | assumption | simpl; lia]).
    pose proof (be_value_bounds _ Hby) as Hpos.
    change (126 =? 126) with true. cbv iota.
    cbn [length] in *. change (Z.of_nat 2) with 2 in *.
    destruct (Z.ltb_spec (Z.of_nat (length d)) (2 + 2)) as [|_]; [lia|].
    change (0 <? 2) with true. cbv iota.
    change (Z.to_nat 2) with 2%nat.
    replace (firstn 2 (skipn 2 d)) with [e1; e2] by reflexivity.
    rewrite Hr. frame_fields.
    change (negb (0 =? 0)) with false. cbv iota.
    rewrite u64_small by (pow64; lia).
    destruct (Z.ltb_spec (Z.of_nat (length d)) (2 + 2 + n)) as [|_]; [lia|].
    destruct (Z.leb_spec (2 + 2 + n) (Z.of_nat (length d))) as [_|]; [|lia].
    subst d. cbn [app].
    change (Z.to_nat (2 + 2)) with 4%nat. cbn [skipn].
    rewrite Hn, Nat2Z.id, firstn_length_app.
    unfold set_data, set_offset; frame_fields.
    apply f_equal. apply f_equal2; [reflexivity | lia].
  - destruct (ext_8 ext Hex) as (e1 & e2 & e3 & e4 & e5 & e6 & e7 & e8 & ->).
    assert (Hr : read_length [e1; e2; e3; e4; e5; e6; e7; e8] = n)
      by (rewrite read_length_be; [assumption | assumption | simpl; lia]).
    pose proof (be_value_bounds _ Hby) as Hpos.
    change (127 =? 126) with false. change (127 =? 127) with true. cbv iota.
    cbn [length] in *. change (Z.of_nat 8) with 8 in *.
    destruct (Z.ltb_spec (Z.of_nat (length d)) (2 + 8)) as [|_]; [lia|].
    change (0 <? 8) with true. cbv iota.
    change (Z.to_nat 8) with 8%nat.
    replace (firstn 8 (skipn 2 d)) with [e1; e2; e3; e4; e5; e6; e7; e8]
      by reflexivity.
    rewrite Hr. frame_fields.
    change (negb (0 =? 0)) with false. cbv iota.
    rewrite u64_small by (pow64; lia).
    destruct (Z.ltb_spec (Z.of_nat (length d)) (2 + 8 + n)) as [|_]; [lia|].
    destruct (Z.leb_spec (2 + 8 + n) (Z.of_nat (length d))) as [_|]; [|lia].
    subst d. cbn [app].
    change (Z.to_nat (2 + 8)) with 10%nat. cbn [skipn].
    rewrite Hn, Nat2Z.id, firstn_length_app.
    unfold set_data, set_offset; frame_fields.
    apply f_equal. apply f_equal2; [reflexivity | lia].
Qed.

(** Parsing the wire bytes of a frame, whatever follows them. *)
Lemma roundtrip_wire (f : vws_frame) (k : key4) (rest : list Z)
  (f0 : vws_frame) (c0 : Z) :
  frame_wf f ->
  vws_deserialize (wire f k ++ rest)
    (Z.of_nat (length (wire f k ++ rest))) f0 c0
  = Some (FRAME_COMPLETE, received f, Z.of_nat (length (wire f k))).
Proof.
  intros Hwf.
  destruct (frame_header_shape f Hwf)
    as (b1 & ext & Hh & H1 & H2 & H3 & _ & Hc).
  unfold wire, received.
  destruct (wf_mask f Hwf) as [Hm | Hm]; rewrite Hm.
  - change (0 =? 0) with true. cbv iota.
    unfold plain_frame_data.
    rewrite (frame_payload_wf f Hwf), Hh.
    cbn [app]. rewrite <- !app_assoc.
    rewrite (deserialize_plain _ b1 ext (data f) rest f0 c0 (size f)).
    + rewrite H1, H2. cbn [length]. rewrite !length_app.
      rewrite (wf_size f Hwf).
      apply f_equal. apply f_equal2; [f_equal; f_equal; lia | lia].
    + exact (wf_size f Hwf).
    + exact (wf_bound f Hwf).
    + now rewrite H3.
    + apply length_canonical_coded. exact Hc.
  - change (1 =? 0) with false. cbv iota.
    pose proof (roundtrip_masked f k rest f0 c0 Hwf Hm) as H.
    cbv zeta in H. rewrite H.
    unfold masked_frame_data. rewrite Hh, (frame_payload_wf f Hwf).
    assert (Hk : length (key_bytes k) = 4%nat)
      by (destruct k as [[[? ?] ?] ?]; reflexivity).
    cbn [length app]. rewrite !length_app, Hk, xor_loop_length.
    rewrite (wf_size f Hwf).
    apply f_equal. apply f_equal2; [f_equal; f_equal; lia | reflexivity].
Qed.

Lemma wire_length (f : vws_frame) (k : key4) :
  frame_wf f ->
  Z.of_nat (length (wire f k)) = offset (received f) + size f /\
  2 <= offset (received f) <= 14.
Proof.
  intros Hwf.
  destruct (frame_header_shape f Hwf)
    as (b1 & ext & Hh & _ & _ & _ & _ & Hc).
  assert (Hk : length (key_bytes k) = 4%nat)
    by (destruct k as [[[? ?] ?] ?]; reflexivity).
  assert (He : (length ext <= 8)%nat).
  { destruct Hc as [(_ & _ & ->) | [(_ & _ & -> & _) | (_ & _ & -> & _)]];
      simpl; lia. }
  unfold wire, received, plain_frame_data, masked_frame_data.
  cbn [offset]. rewrite (frame_payload_wf f Hwf), Hh.
  destruct (wf_mask f Hwf) as [Hm | Hm]; rewrite Hm; cbn [Z.eqb];
    cbn [length app]; rewrite ?length_app, ?Hk, ?xor_loop_length;
    rewrite (wf_size f Hwf); lia.
Qed.

(** X1.  The parser reads back the wire bytes of every frame of the data
    model, masked with any key or unmasked, whatever bytes follow them: it
    completes with the frame's [fin], [opcode], [mask], [size] and [data],
    sets the payload offset to the length of header and key, and reports as
    consumed the length of the frame alone. *)
Theorem X1_first_frame_of_stream (f : vws_frame) (k : key4)
  (rest : list Z) (f0 : vws_frame) (c0 : Z) :
  frame_wf f ->
  exists f',
    vws_deserialize (wire f k ++ rest)
      (Z.of_nat (length (wire f k ++ rest))) f0 c0
    = Some (FRAME_COMPLETE, f', Z.of_nat (length (wire f k))) /\
    fin f' = fin f /\ opcode f' = opcode f /\ mask f' = mask f /\
    size f' = size f /\ data f' = data f /\
    offset f' + size f' = Z.of_nat (length (wire f k)).
Proof.
  intros Hwf. exists (received f).
  split; [apply roundtrip_wire; assumption|].
  repeat split.
  destruct (wire_length f k Hwf) as [H _]. cbn [size received] in *.
  lia.
Qed.

Lemma X1_first_frame_of_stream_witness :
  exists f',
    vws_deserialize (wire text_ab (1, 2, 3, 4) ++ [129])
      (Z.of_nat (length (wire text_ab (1, 2, 3, 4) ++ [129])))
      (vws_frame_new [] 0 TEXT_FRAME) 0
    = Some (FRAME_COMPLETE, f',
            Z.of_nat (length (wire text_ab (1, 2, 3, 4)))) /\
    fin f' = fin text_ab /\ opcode f' = opcode text_ab /\
    mask f' = mask text_ab /\
    size f' = size text_ab /\ data f' = data text_ab /\
    offset f' + size f' = Z.of_nat (length (wire text_ab (1, 2, 3, 4))).
Proof.
  apply (X1_first_frame_of_stream text_ab (1, 2, 3, 4) [129]).
  concrete_frame_wf.
Defined.

(** The wire bytes of a frame: the two fixed bytes, the extended length and
    a tail of 4 key bytes, when masked, and the payload. *)
Lemma wire_shape (f : vws_frame) (k : key4) :
  frame_wf f ->
  exists b0 b1 ext tail,
    wire f k = b0 :: b1 :: ext ++ tail /\
    Z.land (Z.shiftr b1 7) 1 = mask f /\
    length_canonical (Z.land b1 127) ext (size f) /\
    Z.of_nat (length tail) = 4 * mask f + size f.
Proof.
  intros Hwf.
  destruct (frame_header_shape f Hwf)
    as (b1 & ext & Hh & _ & _ & H3 & _ & Hc).
  assert (Hk : length (key_bytes k) = 4%nat)
    by (destruct k as [[[? ?] ?] ?]; reflexivity).
  unfold wire, plain_frame_data, masked_frame_data.
  rewrite (frame_payload_wf f Hwf), Hh.
  destruct (wf_mask f Hwf) as [Hm | Hm]; rewrite Hm in *; cbn [Z.eqb].
  - exists (Z.lor (Z.shiftl (fin f) 7) (opcode f)), b1, ext, (data f).
    repeat split; try assumption. rewrite (wf_size f Hwf). lia.
  - exists (Z.lor (Z.shiftl (fin f) 7) (opcode f)), b1, ext,
      (key_bytes k ++ xor_loop k 0 (data f)).
    repeat split; try assumption.
    rewrite length_app, Hk, xor_loop_length, (wf_size f Hwf). lia.
Qed.

Lemma wire_prefix_incomplete (f : vws_frame) (k : key4) (n : nat)
  (f0 : vws_frame) (c0 : Z) :
  frame_wf f -> (n < length (wire f k))%nat ->
  exists f',
    vws_deserialize (firstn n (wire f k))
      (Z.of_nat (length (firstn n (wire f k)))) f0 c0
    = Some (FRAME_INCOMPLETE, f', c0).
Proof.
  intros Hwf Hn.
  destruct (wire_shape f k Hwf) as (b0 & b1 & ext & tail & Hw & Hm & Hc & Ht).
  rewrite Hw in *. cbn [length] in Hn. rewrite length_app in Hn.
  destruct n as [|[|m]].
  - exists f0. apply deserialize_no_header. simpl. lia.
  - exists f0. apply deserialize_no_header. simpl. lia.
  - cbn [firstn]. rewrite firstn_app.
    destruct (Nat.lt_ge_cases m (length ext)) as [Hlt|Hge].
    + replace (m - length ext)%nat with 0%nat by lia.
      cbn [firstn]. rewrite app_nil_r.
      apply deserialize_short_header.
      rewrite length_firstn.
      destruct Hc as [(_ & _ & He) | [(_ & Hl & He & _) | (_ & Hl & He & _)]].
      * subst ext. simpl in Hlt. lia.
      * left. split; [assumption | lia].
      * right. split; [assumption | lia].
    + rewrite firstn_all2 by lia.
      apply (deserialize_short_payload b0 b1 ext
               (firstn (m - length ext) tail) f0 c0 (size f) (mask f)).
      * apply length_canonical_coded. exact Hc.
      * pose proof (wf_bound f Hwf). pose proof (wf_size f Hwf). lia.
      * exact Hm.
      * exact (wf_mask f Hwf).
      * rewrite length_firstn. lia.
Qed.

(** X2.  Every proper prefix of the wire bytes of a frame, masked or not, is
    incomplete for the parser, which leaves [*consumed] as it was: a frame
    cut at any place by a short read is never taken for a whole one. *)
Theorem X2_prefix_incomplete (f : vws_frame) (k : key4) (n : nat)
  (f0 : vws_frame) (c0 : Z) :
  frame_wf f -> (n < length (wire f k))%nat ->
  exists f',
    vws_deserialize (firstn n (wire f k))
      (Z.of_nat (length (firstn n (wire f k)))) f0 c0
    = Some (FRAME_INCOMPLETE, f', c0).
Proof.
  exact (wire_prefix_incomplete f k n f0 c0).
Qed.

Lemma X2_prefix_incomplete_witness :
  exists f',
    vws_deserialize (firstn 7 (wire hello_frame (1, 2, 3, 4)))
      (Z.of_nat (length (firstn 7 (wire hello_frame (1, 2, 3, 4)))))
      (vws_frame_new [] 0 TEXT_FRAME) 0
    = Some (FRAME_INCOMPLETE, f', 0).
Proof.
  apply (X2_prefix_incomplete hello_frame (1, 2, 3, 4) 7).
  - exact hello_frame_wf.
  - vm_compute. lia.
Defined.

(** ** What the parser hands on *)

Ltac frame_fields_in H :=
  cbn [fin opcode mask offset size data
       set_fin set_opcode set_mask set_offset set_size set_data] in H.

Lemma land_1_cases (x : Z) : Z.land x 1 = 0 \/ Z.land x 1 = 1.
Proof.
  assert (H : Z.land x (Z.ones 1) = x mod 2 ^ 1)
    by (apply Z.land_ones; lia).
  change (Z.ones 1) with 1 in H. change (2 ^ 1) with 2 in H. rewrite H.
  pose proof (Z.mod_pos_bound x 2 eq_refl). lia.
Qed.

Lemma land_15_range (x : Z) : 0 <= Z.land x 15 < 16.
Proof.
  change 15 with (Z.ones 4). rewrite Z.land_ones by lia.
  apply Z.mod_pos_bound. reflexivity.
Qed.

Lemma land_127_range (x : Z) : 0 <= Z.land x 127 < 128.
Proof.
  change 127 with (Z.ones 7). rewrite Z.land_ones by lia.
  apply Z.mod_pos_bound. reflexivity.
Qed.

Lemma read_length_range (bs : list Z) : 0 <= read_length bs < 2 ^ 64.
Proof.
  unfold read_length.
  assert (H : forall acc, 0 <= acc < 2 ^ 64 ->
            0 <= fold_left (fun a b => u64 (Z.lor (Z.shiftl a 8) b)) bs acc
            < 2 ^ 64).
  { induction bs as [|b bs IH]; intros acc Hacc; cbn [fold_left];
      [assumption|].
    apply IH. unfold u64. apply Z.mod_pos_bound. reflexivity. }
  apply H. split; [lia | reflexivity].
Qed.

Lemma payload_slice_length (d : list Z) (off sz : Z) :
  0 <= off -> 0 <= sz -> off + sz <= Z.of_nat (length d) ->
  Z.of_nat (length (firstn (Z.to_nat sz) (skipn (Z.to_nat off) d))) = sz.
Proof.
  intros Ho Hs Hle. rewrite length_firstn, length_skipn. lia.
Qed.

(** A frame the parser reports complete, read off the code. *)
Lemma complete_frame_shape (d : list Z) (f0 f : vws_frame) (c0 c : Z) :
  Z.of_nat (length d) < 2 ^ 64 ->
  vws_deserialize d (Z.of_nat (length d)) f0 c0
  = Some (FRAME_COMPLETE, f, c) ->
  (fin f = 0 \/ fin f = 1) /\ 0 <= opcode f < 16 /\
  (mask f = 0 \/ mask f = 1) /\
  size f = Z.of_nat (length (data f)) /\
  2 <= offset f <= 14 /\
  c = offset f + size f /\ 2 <= c <= Z.of_nat (length d).
Proof.
  intros Hlen H. pow64.
  unfold vws_deserialize in H.
  destruct (Z.ltb_spec (Z.of_nat (length d)) 2) as [|Hge2]; [discriminate|].
  frame_fields_in H.
  set (d0 := nth 0 d 0) in *. set (d1 := nth 1 d 0) in *.
  pose proof (land_1_cases (Z.shiftr d0 7)) as Hfin.
  pose proof (land_15_range d0) as Hop.
  pose proof (land_1_cases (Z.shiftr d1 7)) as Hmask.
  pose proof (land_127_range d1) as Hsf.
  set (sb := if Z.land d1 127 =? 126 then 2
             else if Z.land d1 127 =? 127 then 8 else 0) in *.
  assert (Hsb : sb = 0 \/ sb = 2 \/ sb = 8).
  { subst sb. destruct (Z.land d1 127 =? 126); [auto|].
    destruct (Z.land d1 127 =? 127); auto. }
  destruct (Z.ltb_spec (Z.of_nat (length d)) (2 + sb)) as [|Hgesb];
    [discriminate|].
  assert (Hg : exists sz,
             0 <= sz < 18446744073709551616 /\
             (if 0 <? sb
              then set_size (read_length (firstn (Z.to_nat sb) (skipn 2 d)))
                     (set_size (Z.land d1 127)
                        (set_mask (Z.land (Z.shiftr d1 7) 1)
                           (set_opcode (Z.land d0 15)
                              (set_fin (Z.land (Z.shiftr d0 7) 1) f0))))
              else set_size (Z.land d1 127)
                     (set_mask (Z.land (Z.shiftr d1 7) 1)
                        (set_opcode (Z.land d0 15)
                           (set_fin (Z.land (Z.shiftr d0 7) 1) f0))))
             = mk_frame (Z.land (Z.shiftr d0 7) 1) (Z.land d0 15)
                 (Z.land (Z.shiftr d1 7) 1) (offset f0) sz (data f0)).
  { destruct (0 <? sb).
    - eexists. split; [|reflexivity].
      pose proof (read_length_range (firstn (Z.to_nat sb) (skipn 2 d))).
      pow64. lia.
    - eexists. split; [|reflexivity]. lia. }
  destruct Hg as (sz & Hsz & Hg). rewrite Hg in H. clear Hg.
  frame_fields_in H.
  clearbody sb d0 d1.
  remember (2 + sb) as off eqn:Hoff.
  destruct Hmask as [Hm | Hm]; rewrite Hm in H;
    [change (negb (0 =? 0)) with false in H
    | change (negb (1 =? 0)) with true in H]; cbv iota in H.
  - (* unmasked *)
    destruct (Z.ltb_spec (Z.of_nat (length d)) (u64 (off + sz)));
      [discriminate|].
    destruct (Z.leb_spec (off + sz) (Z.of_nat (length d))) as [Hle|];
      [|discriminate].
    rewrite u64_small in H by (pow64; lia).
    injection H as <- <-. unfold set_data, set_offset.
    cbv beta iota delta [fin opcode mask offset size data].
    rewrite payload_slice_length by lia.
    repeat split; try lia; auto.
  - (* masked *)
    destruct (Z.ltb_spec (Z.of_nat (length d)) (u64 (off + u64 (4 + sz))));
      [discriminate|].
    remember (off + 4) as off4 eqn:Hoff4.
    destruct (Z.leb_spec (off4 + sz) (Z.of_nat (length d))) as [Hle|];
      [|discriminate].
    assert (Hc : u64 (off + u64 (4 + sz)) = off4 + sz).
    { rewrite (u64_small (4 + sz)) by (pow64; lia).
      rewrite u64_small by (pow64; lia). lia. }
    rewrite Hc in H.
    injection H as <- <-. unfold set_data, set_offset.
    cbv beta iota delta [fin opcode mask offset size data].
    rewrite xor_loop_length, payload_slice_length by lia.
    repeat split; try lia; auto.
Qed.

(** X3.  Whatever bytes the parser is given, a frame it reports complete
    obeys the data model: [fin] and [mask] are 0 or 1, the opcode is below
    16, [size] is the length of [data], the payload offset lies between 2 and
    14, and the count of consumed bytes is offset plus size, at least 2 and
    at most what was given. *)
Theorem X3_complete_frame_wf (d : list Z) (f0 f : vws_frame) (c0 c : Z) :
  Z.of_nat (length d) < 2 ^ 64 ->
  vws_deserialize d (Z.of_nat (length d)) f0 c0
  = Some (FRAME_COMPLETE, f, c) ->
  (fin f = 0 \/ fin f = 1) /\ 0 <= opcode f < 16 /\
  (mask f = 0 \/ mask f = 1) /\
  size f = Z.of_nat (length (data f)) /\
  2 <= offset f <= 14 /\
  c = offset f + size f /\ 2 <= c <= Z.of_nat (length d).
Proof.
  exact (complete_frame_shape d f0 f c0 c).
Qed.

Lemma X3_complete_frame_wf_witness :
  let d := wire hello_frame (1, 2, 3, 4) in
  let f := received hello_frame in
  (fin f = 0 \/ fin f = 1) /\ 0 <= opcode f < 16 /\
  (mask f = 0 \/ mask f = 1) /\
  size f = Z.of_nat (length (data f)) /\
  2 <= offset f <= 14 /\
  11 = offset f + size f /\ 2 <= 11 <= Z.of_nat (length d).
Proof.
  apply (X3_complete_frame_wf (wire hello_frame (1, 2, 3, 4))
           (vws_frame_new [] 0 TEXT_FRAME) (received hello_frame) 0 11).
  - vm_compute. reflexivity.
  - vm_compute. reflexivity.
Defined.

(** ** The ingress loop on any buffer *)

Lemma process_frame_ends (f : vws_frame) (w : world) :
  process_frame f w = Fault \/ exists w', process_frame f w = Done tt w'.
Proof.
  destruct (Z.eq_dec (opcode f) CLOSE_FRAME) as [Hc|Hc].
  { destruct (rand w (rand_ix w)) as [k|] eqn:Hk.
    - destruct (process_frame_close f w k Hc Hk) as (n & w' & Hrun & _).
      right. eauto.
    - left. exact (process_frame_no_key f w (or_intror Hc) Hk). }
  destruct (Z.eq_dec (opcode f) PING_FRAME) as [Hp|Hp].
  { destruct (rand w (rand_ix w)) as [k|] eqn:Hk.
    - destruct (process_frame_ping f w k Hp Hk) as (n & w' & Hrun & _).
      right. eauto.
    - left. exact (process_frame_no_key f w (or_introl Hp) Hk). }
  right.
  destruct (Z.eq_dec (opcode f) TEXT_FRAME) as [Ht|Ht].
  { eexists. exact (process_frame_data f w (or_introl Ht)). }
  destruct (Z.eq_dec (opcode f) BINARY_FRAME) as [Hb|Hb].
  { eexists. exact (process_frame_data f w (or_intror (or_introl Hb))). }
  destruct (Z.eq_dec (opcode f) CONTINUATION_FRAME) as [Hn|Hn].
  { eexists. exact (process_frame_data f w (or_intror (or_intror Hn))). }
  eexists. exact (process_frame_other f w Hc Ht Hb Hn Hp).
Qed.

Lemma drained_length (c : Z) (b : list Z) :
  0 < c ->
  (drained c b = [] /\ Z.of_nat (length b) <= c) \/
  (drained c b = skipn (Z.to_nat c) b /\ c < Z.of_nat (length b)
   /\ drained c b <> []).
Proof.
  intro Hc. unfold drained.
  destruct b as [|x b]; [left; simpl; split; [reflexivity | lia]|].
  remember (x :: b) as l eqn:Hl.
  destruct (Z.geb_spec c (Z.of_nat (length l))) as [Hge|Hlt].
  - left. split; [reflexivity | lia].
  - right. split; [reflexivity|]. split; [lia|].
    intro E. apply (f_equal (@length Z)) in E.
    rewrite length_skipn in E. cbn [length] in E. lia.
Qed.

Lemma ingress_loop_step (process : vws_frame -> M unit) (fuel : nat)
  (t : Z) (w : world) :
  ingress_loop process (S fuel) t w
  = if Z.of_nat (length (buffer w)) =? 0 then (vws_success ;; ret t) w
    else
      match vws_deserialize (buffer w) (Z.of_nat (length (buffer w)))
              (vws_frame_new [] 0 TEXT_FRAME) 0 with
      | None => Fault
      | Some (FRAME_ERROR, frame, _) =>
          (vws_error VE_WARN ;; vws_frame_free frame ;; ret 0) w
      | Some (FRAME_INCOMPLETE, frame, _) => (vws_frame_free frame ;; ret 0) w
      | Some (FRAME_COMPLETE, frame, consumed) =>
          (process frame ;;
           vws_buffer_drain consumed ;;
           ingress_loop process fuel (u64 (t + consumed))) w
      end.
Proof.
  cbn [ingress_loop]. unfold bind at 1, gets.
  destruct (Z.of_nat (length (buffer w)) =? 0); [reflexivity|].
  destruct (vws_deserialize _ _ _ _) as [[[[| |] f] c]|]; reflexivity.
Qed.

(** The ingress loop with [process_frame], on any buffer and with more turns
    than the buffer has bytes. *)
Lemma ingress_loop_result (fuel : nat) :
  forall (t : Z) (w : world),
    (length (buffer w) < fuel)%nat ->
    0 <= t -> t + Z.of_nat (length (buffer w)) < 2 ^ 64 ->
    ingress_loop process_frame fuel t w = Fault \/
    exists n w',
      ingress_loop process_frame fuel t w = Done n w' /\
      ((buffer w' = [] /\ n = t + Z.of_nat (length (buffer w))) \/
       (n = 0 /\ buffer w' <> [] /\
        exists k, buffer w' = skipn k (buffer w))).
Proof.
  induction fuel as [|fuel IH]; intros t w Hfuel Ht Hlim; [lia|].
  rewrite (ingress_loop_step process_frame fuel t w).
  destruct (buffer w) as [|x b] eqn:Hb.
  - right. cbn [length]. change (Z.of_nat 0 =? 0) with true. cbv iota.
    eexists. eexists. split; [reflexivity|]. left. cbn.
    split; [assumption | lia].
  - destruct (Z.eqb_spec (Z.of_nat (length (x :: b))) 0) as [E|_];
      [simpl in E; lia|].
    destruct (vws_deserialize (x :: b) (Z.of_nat (length (x :: b)))
                (vws_frame_new [] 0 TEXT_FRAME) 0)
      as [[[rc f] c]|] eqn:Hdes; [|left; reflexivity].
    destruct rc.
    + (* complete *)
      assert (Hl64 : Z.of_nat (length (x :: b)) < 2 ^ 64) by lia.
      destruct (complete_frame_shape _ _ _ _ _ Hl64 Hdes)
        as (_ & _ & _ & _ & _ & _ & Hc).
      unfold bind.
      destruct (process_frame_ends f w) as [Hf | (w1 & Hf)]; rewrite Hf;
        [left; reflexivity|].
      pose proof (process_frame_buffer f w w1 Hf) as Hb1.
      destruct (vws_buffer_drain_buffer c w1) as (w2 & Hdr & Hb2 & _).
      rewrite Hdr. rewrite Hb1, Hb in Hb2.
      assert (Hu : u64 (t + c) = t + c) by (apply u64_small; lia).
      rewrite Hu.
      destruct (drained_length c (x :: b) ltac:(lia))
        as [(Hd & Hle) | (Hd & Hlt & Hne)].
      * rewrite Hd in Hb2.
        destruct (IH (t + c) w2) as [Hr | (n & w' & Hr & Hres)];
          [rewrite Hb2; simpl; lia | lia | rewrite Hb2; simpl; lia
          | left; exact Hr |].
        right. exists n, w'. split; [exact Hr|].
        rewrite Hb2 in Hres. cbn [length] in Hres.
        destruct Hres as [(He & Hn) | (Hn & Hne & k & Hk)].
        -- left. split; [assumption|]. lia.
        -- rewrite skipn_nil in Hk. contradiction.
      * rewrite Hd in Hb2.
        assert (Hl2 : length (buffer w2)
                      = (length (x :: b) - Z.to_nat c)%nat)
          by (rewrite Hb2; apply length_skipn).
        destruct (IH (t + c) w2) as [Hr | (n & w' & Hr & Hres)];
          [lia | lia | lia | left; exact Hr |].
        right. exists n, w'. split; [exact Hr|].
        destruct Hres as [(He & Hn) | (Hn & Hne' & k & Hk)].
        -- left. split; [assumption|]. lia.
        -- right. split; [assumption|]. split; [assumption|].
           exists (Z.to_nat c + k)%nat.
           rewrite Hk, Hb2, skipn_skipn. f_equal. lia.
    + (* incomplete *)
      right. eexists. eexists. split; [reflexivity|]. right. cbn.
      split; [reflexivity|]. rewrite Hb. split; [discriminate|].
      exists 0%nat. reflexivity.
    + (* error *)
      right. eexists. eexists. split; [reflexivity|]. right. cbn.
      split; [reflexivity|]. rewrite Hb. split; [discriminate|].
      exists 0%nat. reflexivity.
Qed.

(** X4.  On any receive buffer [vws_cnx_ingress] with [process_frame] comes
    to an end within as many turns as the buffer has bytes, by a fault (a
    read past the buffer, a NULL reply buffer) or by a return.  When it
    returns, either the buffer is empty and the value returned is the number
    of bytes the buffer held, or the value is 0 and what is left in the
    buffer is a non-empty tail of what it held. *)
Theorem X4_ingress_ends (fuel : nat) (w : world) :
  (length (buffer w) < fuel)%nat ->
  Z.of_nat (length (buffer w)) < 2 ^ 64 ->
  vws_cnx_ingress process_frame fuel w = Fault \/
  exists n w',
    vws_cnx_ingress process_frame fuel w = Done n w' /\
    ((buffer w' = [] /\ n = Z.of_nat (length (buffer w))) \/
     (n = 0 /\ buffer w' <> [] /\
      exists k, buffer w' = skipn k (buffer w))).
Proof.
  intros Hfuel Hlim. unfold vws_cnx_ingress.
  destruct (ingress_loop_result fuel 0 w Hfuel (Z.le_refl 0))
    as [H | (n & w' & H & Hres)]; [lia | left; exact H |].
  right. exists n, w'. split; [exact H|].
  destruct Hres as [(He & Hn) | Hres]; [left; split; [assumption | lia]|].
  right. exact Hres.
Qed.

Lemma X4_ingress_ends_witness :
  vws_cnx_ingress process_frame 4 frame_and_a_byte = Fault \/
  exists n w',
    vws_cnx_ingress process_frame 4 frame_and_a_byte = Done n w' /\
    ((buffer w' = [] /\ n = Z.of_nat (length (buffer frame_and_a_byte))) \/
     (n = 0 /\ buffer w' <> [] /\
      exists k, buffer w' = skipn k (buffer frame_and_a_byte))).
Proof.
  apply (X4_ingress_ends 4 frame_and_a_byte).
  - simpl. lia.
  - vm_compute. reflexivity.
Defined.

(** ** The ingress loop on a run of data frames *)

Lemma wire_not_nil (f : vws_frame) (k : key4) : wire f k <> [].
Proof.
  unfold wire, plain_frame_data, masked_frame_data, frame_header.
  destruct (length_field (size f)) as [h ext].
  destruct (mask f =? 0); discriminate.
Qed.

Lemma drained_app (a rest : list Z) :
  a <> [] -> drained (Z.of_nat (length a)) (a ++ rest) = rest.
Proof.
  intro Ha. unfold drained.
  destruct (a ++ rest) as [|x l] eqn:E.
  - apply app_eq_nil in E. destruct E. contradiction.
  - rewrite <- E. rewrite length_app.
    destruct (Z.geb_spec (Z.of_nat (length a))
                (Z.of_nat (length a + length rest))) as [Hge|Hlt].
    + destruct rest; [reflexivity | simpl in Hge; lia].
    + rewrite Nat2Z.id, skipn_app, skipn_all, Nat.sub_diag. reflexivity.
Qed.

Lemma parsed_stream (fs : list (vws_frame * key4)) (tail : list Z) :
  Forall (fun fk => frame_wf (fst fk)) fs -> incomplete_rest tail ->
  parsed (stream fs ++ tail) (reported fs) tail.
Proof.
  intros Hwf Ht. induction fs as [|[f k] fs IH].
  - apply parsed_rest. exact Ht.
  - inversion Hwf as [|? ? Hf Hfs]; subst. cbn [fst] in Hf.
    unfold stream, reported. cbn [map concat fst snd].
    fold (stream fs). fold (reported fs). rewrite <- app_assoc.
    apply parsed_frame.
    + intro E. apply app_eq_nil in E. destruct E as [E _].
      exact (wire_not_nil f k E).
    + apply roundtrip_wire. exact Hf.
    + rewrite drained_app by apply wire_not_nil. apply IH. exact Hfs.
Qed.

Lemma dispatch_all_data (fs : list (vws_frame * key4)) :
  Forall (fun fk => data_frame (fst fk)) fs ->
  forall w,
  exists w1,
    dispatch_all process_frame (reported fs) w = Done tt w1 /\
    queue w1 = rev (map (fun fk => received (fst fk)) fs) ++ queue w /\
    written w1 = written w /\ freed w1 = freed w /\ flags w1 = flags w /\
    sockfd w1 = sockfd w.
Proof.
  induction fs as [|[f k] fs IH]; intros Hd w.
  - exists w. repeat split; reflexivity.
  - inversion Hd as [|? ? Hf Hfs]; subst. cbn [fst] in Hf.
    unfold reported. cbn [map dispatch_all fst snd]. fold (reported fs).
    unfold bind.
    assert (Hr : data_frame (received f)) by exact Hf.
    rewrite (process_frame_data (received f) w Hr).
    destruct (vws_buffer_drain_buffer
                (Z.of_nat (length (wire f k)))
                (set_e_code VE_NONE (set_queue (received f :: queue w) w)))
      as (w2 & Hdr & _ & Hw2 & Hf2 & Hq2 & Hfl2 & Hs2 & _).
    rewrite Hdr.
    destruct (IH Hfs w2) as (w1 & Hrun & Hq & Hw & Hfr & Hfl & Hs).
    exists w1. split; [exact Hrun|].
    rewrite Hq, Hw, Hfr, Hfl, Hs, Hq2, Hw2, Hf2, Hfl2, Hs2. cbn.
    rewrite <- app_assoc. repeat split; reflexivity.
Qed.

Lemma consumed_total_stream (fs : list (vws_frame * key4)) :
  forall t,
    0 <= t -> t + Z.of_nat (length (stream fs)) < 2 ^ 64 ->
    consumed_total t (reported fs) = t + Z.of_nat (length (stream fs)).
Proof.
  induction fs as [|[f k] fs IH]; intros t Ht Hlim.
  - simpl. lia.
  - unfold stream, reported in *. cbn [map concat fst snd] in *.
    fold (stream fs) in *. fold (reported fs) in *.
    rewrite length_app in Hlim.
    unfold consumed_total. cbn [fold_left snd].
    fold (consumed_total
            (u64 (t + Z.of_nat (length (wire f k)))) (reported fs)).
    rewrite u64_small by lia.
    rewrite IH by lia. rewrite length_app. lia.
Qed.

Lemma ingress_data_frames (fs : list (vws_frame * key4))
  (tail : list Z) (fuel : nat) (w : world) :
  Forall (fun fk => frame_wf (fst fk) /\ data_frame (fst fk)) fs ->
  incomplete_rest tail ->
  buffer w = stream fs ++ tail ->
  Z.of_nat (length (stream fs)) < 2 ^ 64 ->
  (length fs < fuel)%nat ->
  exists w',
    vws_cnx_ingress process_frame fuel w
    = Done (match tail with
            | [] => Z.of_nat (length (stream fs))
            | _ => 0
            end) w' /\
    buffer w' = tail /\
    queue w' = rev (map (fun fk => received (fst fk)) fs) ++ queue w /\
    written w' = written w /\ flags w' = flags w /\ sockfd w' = sockfd w.
Proof.
  intros Hfs Ht Hb Hlim Hfuel.
  assert (Hwf : Forall (fun fk => frame_wf (fst fk)) fs)
    by (eapply Forall_impl; [|exact Hfs]; intros a [H _]; exact H).
  assert (Hd : Forall (fun fk => data_frame (fst fk)) fs)
    by (eapply Forall_impl; [|exact Hfs]; intros a [_ H]; exact H).
  destruct (dispatch_all_data fs Hd w)
    as (w1 & Hrun & Hq & Hw & _ & Hfl & Hs).
  assert (Hlen : (length (reported fs) < fuel)%nat)
    by (unfold reported; rewrite length_map; exact Hfuel).
  destruct (vws_cnx_ingress_parsed _ _ _ fuel w w1
              (parsed_stream fs tail Hwf Ht) Hb Hrun Hlen)
    as (w' & Hres & Hb' & Hq' & Hw' & Hfl' & He & Hn).
  exists w'. split.
  - rewrite Hres. f_equal. destruct tail; [|reflexivity].
    rewrite consumed_total_stream; lia.
  - rewrite Hb', Hq', Hw', Hfl', Hq, Hw, Hfl.
    split; [reflexivity|]. split; [reflexivity|]. split; [reflexivity|].
    split; [reflexivity|]. rewrite <- Hs.
    destruct tail as [|x t].
    + rewrite (He eq_refl). reflexivity.
    + destruct Hn as (g & ->); [discriminate | reflexivity].
Qed.

(** X5.  When the receive buffer holds the wire bytes of a run of data
    frames (TEXT, BINARY, CONTINUATION; each masked or not), followed by a
    rest in which the parser finds no whole frame, [vws_cnx_ingress] puts
    every frame on the queue in the order of arrival, writes nothing, leaves
    exactly the rest in the buffer, and returns the number of bytes of the
    run when the rest is empty and 0 when it is not. *)
Theorem X5_ingress_data_frames (fs : list (vws_frame * key4))
  (tail : list Z) (fuel : nat) (w : world) :
  Forall (fun fk => frame_wf (fst fk) /\ data_frame (fst fk)) fs ->
  incomplete_rest tail ->
  buffer w = stream fs ++ tail ->
  Z.of_nat (length (stream fs)) < 2 ^ 64 ->
  (length fs < fuel)%nat ->
  exists w',
    vws_cnx_ingress process_frame fuel w
    = Done (match tail with
            | [] => Z.of_nat (length (stream fs))
            | _ => 0
            end) w' /\
    buffer w' = tail /\
    queue w' = rev (map (fun fk => received (fst fk)) fs) ++ queue w /\
    written w' = written w /\ flags w' = flags w.
Proof.
  intros Hfs Ht Hb Hlim Hfuel.
  destruct (ingress_data_frames fs tail fuel w Hfs Ht Hb Hlim Hfuel)
    as (w' & H1 & H2 & H3 & H4 & H5 & _).
  exists w'. repeat split; assumption.
Qed.

Lemma X5_ingress_data_frames_witness :
  exists w',
    vws_cnx_ingress process_frame 3
      (set_buffer
         (stream [(text_ab, (1, 2, 3, 4)); (continuation_cd, (1, 2, 3, 4))]
          ++ [129]) idle_world)
    = Done 0 w' /\
    buffer w' = [129] /\
    queue w' = rev (map (fun fk => received (fst fk))
                      [(text_ab, (1, 2, 3, 4));
                       (continuation_cd, (1, 2, 3, 4))])
               ++ queue idle_world /\
    written w' = written idle_world /\ flags w' = flags idle_world.
Proof.
  apply (X5_ingress_data_frames
           [(text_ab, (1, 2, 3, 4)); (continuation_cd, (1, 2, 3, 4))]
           [129] 3
           (set_buffer
              (stream [(text_ab, (1, 2, 3, 4));
                       (continuation_cd, (1, 2, 3, 4))] ++ [129])
              idle_world)).
  - repeat (apply Forall_cons;
            [split; [concrete_frame_wf | vm_compute; auto]|]).
    apply Forall_nil.
  - right. split; [discriminate|]. eexists. eexists. reflexivity.
  - reflexivity.
  - vm_compute. reflexivity.
  - simpl. lia.
Defined.

(** ** Sending on an open connection *)

Lemma wire_length_nonzero (f : vws_frame) (k : key4) :
  Z.of_nat (length (wire f k)) <> 0.
Proof.
  pose proof (wire_not_nil f k) as H.
  destruct (wire f k); [contradiction | simpl; lia].
Qed.

Lemma vws_serialize_wire (f : vws_frame) (k : key4) (w : world) :
  mask f = 0 \/ mask f = 1 ->
  (mask f = 1 -> rand w (rand_ix w) = Some k) ->
  exists w1,
    vws_serialize (Some f) w = Done (Some (wire f k)) w1 /\
    freed w1 = freed w ++ [f] /\ written w1 = written w /\
    same_connection w w1 /\ net w1 = net w /\ net_ix w1 = net_ix w /\
    rand_ix w1 = (if mask f =? 0 then rand_ix w else S (rand_ix w)).
Proof.
  intros [Hm|Hm] Hk; unfold wire; rewrite Hm.
  - rewrite (vws_serialize_plain f w Hm). eexists. split; [reflexivity|].
    cbn. unfold same_connection. repeat split; reflexivity.
  - rewrite (vws_serialize_masked f k w Hm (Hk Hm)).
    eexists. split; [reflexivity|].
    cbn. unfold same_connection. repeat split; reflexivity.
Qed.

Lemma vws_frame_send_open (f : vws_frame) (k : key4) (w : world) :
  0 < sockfd w -> mask f = 0 \/ mask f = 1 ->
  (mask f = 1 -> rand w (rand_ix w) = Some k) ->
  exists w',
    vws_frame_send f w = Done (write_outcome (net w (net_ix w))) w' /\
    written w'
    = written w ++ [(wire f k, write_outcome (net w (net_ix w)))] /\
    freed w' = freed w ++ [f] /\
    e_code w' = VE_NONE /\ same_connection w w' /\
    net_ix w' = S (net_ix w).
Proof.
  intros Hc Hm Hk.
  destruct (vws_serialize_wire f k w Hm Hk)
    as (w1 & Hser & Hfr1 & Hwr1 & Hsc1 & Hnet1 & Hix1 & _).
  assert (Hc1 : 0 < sockfd w1)
    by (destruct Hsc1 as (E & _); rewrite E; exact Hc).
  destruct (vws_socket_write_connected (wire f k)
              (Z.of_nat (length (wire f k))) w1 Hc1
              (wire_length_nonzero f k))
    as (n & w2 & Hwrite & Hwr2 & Hfr2 & Hsc2 & _ & _ & _ & Hix2 & _).
  pose proof (write_outcome_connected _ _ _ _ _ Hc1
                (wire_length_nonzero f k) Hwrite) as Hn.
  rewrite Hnet1, Hix1 in Hn. subst n.
  assert (Hc2 : 0 < sockfd w2)
    by (destruct Hsc2 as (E & _); rewrite E; exact Hc1).
  exists (set_e_code VE_NONE w2). split.
  - unfold vws_frame_send, bind.
    rewrite (vws_cnx_is_connected_open w Hc). cbn [negb].
    rewrite Hser. cbn [deref]. unfold ret at 1.
    rewrite Hwrite, (vws_cnx_is_connected_open w2 Hc2). reflexivity.
  - cbn [written freed e_code net_ix set_e_code].
    rewrite Hwr2, Hfr2, Hwr1, Hfr1, Hix2, Hix1.
    split; [reflexivity|]. split; [reflexivity|]. split; [reflexivity|].
    split; [|reflexivity].
    apply (same_connection_trans w w1); [exact Hsc1|].
    destruct Hsc2 as (E1 & E2 & E3 & E4 & E5 & E6).
    unfold same_connection. cbn. repeat split; assumption.
Qed.

(** X6.  On an open connection [vws_frame_send] serializes the frame (with
    the key the random generator delivers when the frame is masked), makes
    one call of [vws_socket_write] with the serialized bytes, frees the frame
    and returns what the write returned: 0 when the poll timed out, -1 when
    it failed or the socket was not writable, the count of the [send]
    otherwise.  Whatever the write returned, the thread's last error is NONE
    afterwards: the error the write recorded is cleared. *)
Theorem X6_frame_send_open (f : vws_frame) (k : key4) (w : world) :
  0 < sockfd w -> mask f = 0 \/ mask f = 1 ->
  (mask f = 1 -> rand w (rand_ix w) = Some k) ->
  exists w',
    vws_frame_send f w = Done (write_outcome (net w (net_ix w))) w' /\
    written w'
    = written w ++ [(wire f k, write_outcome (net w (net_ix w)))] /\
    freed w' = freed w ++ [f] /\
    e_code w' = VE_NONE /\ same_connection w w' /\
    net_ix w' = S (net_ix w).
Proof.
  exact (vws_frame_send_open f k w).
Qed.

Lemma X6_frame_send_open_witness :
  exists w',
    vws_frame_send hello_frame idle_world
    = Done (write_outcome (net idle_world (net_ix idle_world))) w' /\
    written w'
    = written idle_world
      ++ [(wire hello_frame (1, 2, 3, 4),
           write_outcome (net idle_world (net_ix idle_world)))] /\
    freed w' = freed idle_world ++ [hello_frame] /\
    e_code w' = VE_NONE /\ same_connection idle_world w' /\
    net_ix w' = S (net_ix idle_world).
Proof.
  apply (X6_frame_send_open hello_frame (1, 2, 3, 4) idle_world).
  - cbn. lia.
  - right. reflexivity.
  - intros _. reflexivity.
Defined.

(** X7.  [vws_socket_write] on a socket that is not connected, or with
    nothing to write, returns -1 without polling the socket and leaves the
    connection as it is; the last error is RT when the socket is not
    connected and WARN when it is connected and the size is 0. *)
Theorem X7_socket_write_rejected (d : list Z) (sz : Z) (w : world) :
  sockfd w <= 0 \/ sz = 0 ->
  exists w',
    vws_socket_write d sz w = Done (-1) w' /\
    e_code w' = (if 0 <? sockfd w then VE_WARN else VE_RT) /\
    net_ix w' = net_ix w /\ same_connection w w'.
Proof.
  intro H.
  unfold vws_socket_write, vws_socket_write_body, bind, vws_success,
    vws_socket_is_connected, vws_error, modify, gets, ret, same_connection.
  cbn [sockfd set_e_code].
  destruct (Z.ltb_spec 0 (sockfd w)) as [Hc|Hc]; cbn [negb].
  - destruct H as [H|H]; [lia|]. subst sz. cbn [Z.eqb].
    eexists. split; [reflexivity|]. cbn. repeat split; reflexivity.
  - eexists. split; [reflexivity|]. cbn. repeat split; reflexivity.
Qed.

Lemma X7_socket_write_rejected_witness :
  exists w',
    vws_socket_write [1; 2] 0 idle_world = Done (-1) w' /\
    e_code w' = (if 0 <? sockfd idle_world then VE_WARN else VE_RT) /\
    net_ix w' = net_ix idle_world /\ same_connection idle_world w'.
Proof.
  apply (X7_socket_write_rejected [1; 2] 0 idle_world).
  right. reflexivity.
Defined.

(** ** What a message sent looks like to the peer *)

Lemma strlen_le (s : list Z) : (strlen s <= length s)%nat.
Proof.
  induction s as [|c s IH]; simpl; [lia|].
  destruct (c =? 0); simpl; lia.
Qed.

Lemma vws_frame_new_firstn (d : list Z) (n : nat) (oc : Z) :
  (n <= length d)%nat ->
  vws_frame_new d (Z.of_nat n) oc
  = vws_frame_new (firstn n d) (Z.of_nat (length (firstn n d))) oc.
Proof.
  intro H. unfold vws_frame_new.
  rewrite length_firstn, Nat.min_l by exact H.
  rewrite Nat2Z.id, firstn_firstn, Nat.min_id. reflexivity.
Qed.

(** What one write leaves on the wire of the bytes of a frame. *)
Lemma wire_whole_or_incomplete (f : vws_frame) (k : key4) (r : Z) :
  frame_wf f -> whole_or_incomplete (wire f k) r.
Proof.
  intro Hwf. split; [apply taken_whole|].
  intros Hr f0 c0. unfold taken. cbn [fst snd].
  apply wire_prefix_incomplete; [exact Hwf|].
  pose proof (wire_length_nonzero f k). lia.
Qed.

Lemma vws_frame_send_data_open (d : list Z) (n : nat) (oc : Z) (k : key4)
  (w : world) :
  0 < sockfd w -> rand w (rand_ix w) = Some k ->
  (n <= length d)%nat -> Z.of_nat n < 2 ^ 63 -> 0 <= oc < 16 ->
  exists w' buf,
    vws_frame_send_data d (Z.of_nat n) oc w
    = Done (write_outcome (net w (net_ix w))) w' /\
    written w' = written w ++ [(buf, write_outcome (net w (net_ix w)))] /\
    net_ix w' = S (net_ix w) /\ e_code w' = VE_NONE /\
    serialized_frame buf oc (firstn n d) /\
    whole_or_incomplete buf (write_outcome (net w (net_ix w))).
Proof.
  intros Hc Hk Hn Hlim Ho.
  unfold vws_frame_send_data. rewrite (vws_frame_new_firstn d n oc Hn).
  assert (Hl : Z.of_nat (length (firstn n d)) < 2 ^ 63)
    by (rewrite length_firstn, Nat.min_l by exact Hn; exact Hlim).
  destruct (vws_frame_new_wf (firstn n d) oc Ho Hl)
    as (Hwf & _ & Hm & _ & _).
  cbv zeta in Hm, Hwf.
  destruct (vws_frame_send_open _ k w Hc (or_intror Hm) (fun _ => Hk))
    as (w' & Hrun & Hwr & _ & He & _ & Hix).
  exists w', (wire (vws_frame_new (firstn n d)
                      (Z.of_nat (length (firstn n d))) oc) k).
  split; [exact Hrun|]. split; [exact Hwr|]. split; [exact Hix|].
  split; [exact He|]. split.
  - unfold wire. rewrite Hm. change (1 =? 0) with false. cbv iota.
    apply masked_frame_new_serialized; assumption.
  - apply wire_whole_or_incomplete. exact Hwf.
Qed.

(** X8.  On an open connection [vws_msg_send_text] offers the socket, in one
    call of [vws_socket_write] that polls it once, a buffer that the parser
    reads as one whole final TEXT frame whose payload is the characters of
    the string up to its terminator, and [vws_msg_send_binary] one that it
    reads as a final BINARY frame with the given bytes.  Either returns what
    the write returned and leaves NONE as the last error, without a second
    call: the frame is on the wire whole when the write took all of the
    buffer, and when it took less (a short [send], a timeout, a failure) the
    peer is left with bytes in which the parser finds no whole frame. *)
Theorem X8_message_on_the_wire (s d : list Z) (k : key4) (w : world) :
  0 < sockfd w -> rand w (rand_ix w) = Some k ->
  Z.of_nat (strlen s) < 2 ^ 63 -> Z.of_nat (length d) < 2 ^ 63 ->
  (exists w' buf,
     vws_msg_send_text s w = Done (write_outcome (net w (net_ix w))) w' /\
     written w' = written w ++ [(buf, write_outcome (net w (net_ix w)))] /\
     net_ix w' = S (net_ix w) /\ e_code w' = VE_NONE /\
     serialized_frame buf TEXT_FRAME (firstn (strlen s) s) /\
     whole_or_incomplete buf (write_outcome (net w (net_ix w)))) /\
  (exists w' buf,
     vws_msg_send_binary d (Z.of_nat (length d)) w
     = Done (write_outcome (net w (net_ix w))) w' /\
     written w' = written w ++ [(buf, write_outcome (net w (net_ix w)))] /\
     net_ix w' = S (net_ix w) /\ e_code w' = VE_NONE /\
     serialized_frame buf BINARY_FRAME d /\
     whole_or_incomplete buf (write_outcome (net w (net_ix w)))).
Proof.
  intros Hc Hk Hs Hd. split.
  - unfold vws_msg_send_text.
    apply (vws_frame_send_data_open s (strlen s) 1 k w Hc Hk
             (strlen_le s) Hs).
    lia.
  - unfold vws_msg_send_binary.
    assert (Ho : 0 <= 2 < 16) by lia.
    pose proof (vws_frame_send_data_open d (length d) 2 k w Hc Hk
                  (Nat.le_refl _) Hd Ho) as H.
    rewrite firstn_all in H. exact H.
Qed.

Lemma X8_message_on_the_wire_witness :
  (exists w' buf,
     vws_msg_send_text (lit "hello") idle_world
     = Done (write_outcome (net idle_world (net_ix idle_world))) w' /\
     written w'
     = written idle_world
       ++ [(buf, write_outcome (net idle_world (net_ix idle_world)))] /\
     net_ix w' = S (net_ix idle_world) /\ e_code w' = VE_NONE /\
     serialized_frame buf TEXT_FRAME
       (firstn (strlen (lit "hello")) (lit "hello")) /\
     whole_or_incomplete buf
       (write_outcome (net idle_world (net_ix idle_world)))) /\
  (exists w' buf,
     vws_msg_send_binary [1; 2; 3] (Z.of_nat (length [1; 2; 3])) idle_world
     = Done (write_outcome (net idle_world (net_ix idle_world))) w' /\
     written w'
     = written idle_world
       ++ [(buf, write_outcome (net idle_world (net_ix idle_world)))] /\
     net_ix w' = S (net_ix idle_world) /\ e_code w' = VE_NONE /\
     serialized_frame buf BINARY_FRAME [1; 2; 3] /\
     whole_or_incomplete buf
       (write_outcome (net idle_world (net_ix idle_world)))).
Proof.
  apply (X8_message_on_the_wire (lit "hello") [1; 2; 3] (1, 2, 3, 4)
           idle_world).
  - cbn. lia.
  - reflexivity.
  - vm_compute. reflexivity.
  - vm_compute. reflexivity.
Defined.

(** X9.  When [RAND_bytes] fails, nothing can be sent on an open connection:
    [vws_serialize] returns NULL for the masked frame, and both
    [vws_frame_send_data] (so every send of a message) and [vws_disconnect]
    go on to read through the NULL buffer. *)
Theorem X9_no_random_bytes (w : world) :
  0 < sockfd w -> rand w (rand_ix w) = None ->
  (forall d sz oc, vws_frame_send_data d sz oc w = Fault) /\
  (forall fuel, vws_disconnect None fuel w = Fault).
Proof.
  intros Hc Hk. split.
  - intros d sz oc. unfold vws_frame_send_data, vws_frame_send, bind.
    rewrite (vws_cnx_is_connected_open w Hc). cbn [negb].
    unfold vws_serialize. cbn [mask vws_frame_new].
    change (negb (1 =? 0)) with true. cbv iota.
    unfold bind, RAND_bytes. rewrite Hk. reflexivity.
  - intro fuel. unfold vws_disconnect, bind.
    rewrite (vws_cnx_is_connected_open w Hc). cbn [negb].
    unfold ret at 1, modify at 1.
    unfold vws_generate_close_frame, vws_serialize.
    cbn [mask vws_frame_new].
    change (negb (1 =? 0)) with true. cbv iota.
    unfold bind, RAND_bytes. cbn [rand rand_ix set_flags]. rewrite Hk.
    reflexivity.
Qed.

Lemma X9_no_random_bytes_witness :
  (forall d sz oc,
     vws_frame_send_data d sz oc
       (mk_world 3 false [] CNX_CLOSED [] None VE_NONE (fun _ => None) 0
          (fun _ => PollTimeout) 0 (fun _ => 0) 0 [] []) = Fault) /\
  (forall fuel,
     vws_disconnect None fuel
       (mk_world 3 false [] CNX_CLOSED [] None VE_NONE (fun _ => None) 0
          (fun _ => PollTimeout) 0 (fun _ => 0) 0 [] []) = Fault).
Proof.
  apply (X9_no_random_bytes
           (mk_world 3 false [] CNX_CLOSED [] None VE_NONE (fun _ => None) 0
              (fun _ => PollTimeout) 0 (fun _ => 0) 0 [] [])).
  - cbn. lia.
  - reflexivity.
Defined.

(** ** Receiving *)

Lemma vws_socket_read_arrives (c : list Z) (w : world) :
  c <> [] ->
  vws_socket_read (arrives c) w
  = Done (Z.of_nat (length c))
      (set_buffer (buffer w ++ c) (set_e_code VE_NONE w)).
Proof.
  intro Hc.
  assert (Hl : 0 < Z.of_nat (length c))
    by (destruct c; [contradiction | simpl; lia]).
  unfold vws_socket_read, arrives, bind, vws_success, vws_error, modify,
    gets, ret.
  change (negb (Z.land POLLIN POLLIN =? 0)) with true. cbv iota.
  cbn [ssl set_e_code].
  assert (Happ : vws_buffer_append (buffer w) c (Z.of_nat (length c))
                 = buffer w ++ c).
  { unfold vws_buffer_append. rewrite Nat2Z.id, firstn_all.
    destruct c; [contradiction | reflexivity]. }
  destruct (Z.ltb_spec 0 (Z.of_nat (length c))) as [_|]; [|lia].
  destruct (Z.eqb_spec (Z.of_nat (length c)) (-1)) as [|_]; [lia|].
  destruct (ssl w); cbn [buffer set_e_code]; rewrite Happ; reflexivity.
Qed.

Lemma vws_socket_read_timeout (w : world) :
  vws_socket_read ReadTimeout w = Done 0 (set_e_code VE_WARN w).
Proof. reflexivity. Qed.

(** X10.  On a connection that is not open, [vws_frame_recv] and
    [vws_msg_recv] return NULL and [socket_wait_for_frame] returns -1; none
    of them reads from the socket or touches the connection, and the last
    error they leave is SOCKET. *)
Theorem X10_receive_closed (process : vws_frame -> M unit) (fuel : nat)
  (evs : list read_event) (w : world) :
  sockfd w <= 0 ->
  vws_frame_recv process fuel evs w
  = Done (None, evs) (set_e_code VE_SOCKET w) /\
  vws_msg_recv process fuel evs w
  = Done (None, evs) (set_e_code VE_SOCKET w) /\
  socket_wait_for_frame process fuel evs w
  = Done (-1, evs) (set_e_code VE_SOCKET w).
Proof.
  intro H.
  assert (Hc : sockfd (set_e_code VE_NONE w) <= 0) by exact H.
  unfold vws_frame_recv, vws_msg_recv, socket_wait_for_frame, bind,
    vws_success, modify.
  rewrite (vws_cnx_is_connected_closed _ Hc).
  repeat split; reflexivity.
Qed.

Lemma X10_receive_closed_witness :
  vws_frame_recv process_frame 2 [ReadTimeout] closed_world
  = Done (None, [ReadTimeout]) (set_e_code VE_SOCKET closed_world) /\
  vws_msg_recv process_frame 2 [ReadTimeout] closed_world
  = Done (None, [ReadTimeout]) (set_e_code VE_SOCKET closed_world) /\
  socket_wait_for_frame process_frame 2 [ReadTimeout] closed_world
  = Done (-1, [ReadTimeout]) (set_e_code VE_SOCKET closed_world).
Proof.
  apply (X10_receive_closed process_frame 2 [ReadTimeout] closed_world).
  cbn. lia.
Defined.

Lemma frame_recv_loop_queued (process : vws_frame -> M unit) (fuel : nat)
  (turns : nat) (evs : list read_event) (w : world) (q : list vws_frame)
  (f : vws_frame) :
  queue w = q ++ [f] ->
  frame_recv_loop process fuel (S turns) evs w
  = Done (Some f, evs) (set_queue q w).
Proof.
  intro Hq. cbn [frame_recv_loop]. unfold bind, gets. rewrite Hq.
  destruct (Z.ltb_spec 0 (Z.of_nat (length (q ++ [f])))) as [_|H];
    [|rewrite length_app in H; simpl in H; lia].
  assert (Hr : rev (queue w) = f :: rev q)
    by (rewrite Hq, rev_app_distr; reflexivity).
  rewrite (sc_queue_del_last_rev w f (rev q) Hr), rev_involutive.
  reflexivity.
Qed.

(** X11.  While frames are queued, [vws_frame_recv] on an open connection
    returns the one at the tail of the queue, the oldest, without reading
    from the socket, and leaves the others queued. *)
Theorem X11_frame_recv_queued (process : vws_frame -> M unit) (fuel : nat)
  (evs : list read_event) (w : world) (q : list vws_frame) (f : vws_frame) :
  0 < sockfd w -> queue w = q ++ [f] ->
  vws_frame_recv process fuel evs w
  = Done (Some f, evs) (set_queue q (set_e_code VE_NONE w)).
Proof.
  intros Hc Hq.
  assert (Hc' : 0 < sockfd (set_e_code VE_NONE w)) by exact Hc.
  unfold vws_frame_recv, bind, vws_success, modify.
  rewrite (vws_cnx_is_connected_open _ Hc'). cbn [negb].
  apply frame_recv_loop_queued. exact Hq.
Qed.

Lemma X11_frame_recv_queued_witness :
  vws_frame_recv process_frame 2 [] two_fragments
  = Done (Some text_ab, [])
      (set_queue [continuation_cd] (set_e_code VE_NONE two_fragments)).
Proof.
  apply (X11_frame_recv_queued process_frame 2 [] two_fragments
           [continuation_cd] text_ab).
  - cbn. lia.
  - reflexivity.
Defined.

(** ** A frame that arrives in pieces *)

Lemma wait_loop_arrives (process : vws_frame -> M unit) (fuel : nat)
  (c : list Z) (evs : list read_event) (w : world) :
  c <> [] ->
  wait_loop process fuel (arrives c :: evs) w
  = (r <- vws_cnx_ingress process fuel ;;
     if 0 <? r then ret (Z.of_nat (length c), evs)
     else wait_loop process fuel evs)
      (set_buffer (buffer w ++ c) (set_e_code VE_NONE w)).
Proof.
  intro Hc. cbn [wait_loop]. unfold bind at 1.
  rewrite (vws_socket_read_arrives c w Hc).
  destruct (Z.leb_spec (Z.of_nat (length c)) 0) as [H|_]; [|reflexivity].
  destruct c; [contradiction | simpl in H; lia].
Qed.

Lemma ingress_incomplete (fuel : nat) (w : world) :
  buffer w <> [] -> incomplete_rest (buffer w) -> (0 < fuel)%nat ->
  exists g,
    vws_cnx_ingress process_frame fuel w
    = Done 0 (set_freed (freed w ++ [g]) w).
Proof.
  intros Hne Hinc Hfuel.
  destruct (vws_cnx_ingress_parsed (buffer w) [] (buffer w) fuel w w
              (parsed_rest _ Hinc) eq_refl eq_refl Hfuel)
    as (w' & Hres & _ & _ & _ & _ & _ & Hn).
  destruct (Hn Hne) as (g & ->). exists g.
  rewrite Hres. destruct (buffer w); [contradiction | reflexivity].
Qed.

Lemma wire_cut_incomplete (f : vws_frame) (k : key4) (a b : list Z) :
  frame_wf f -> a ++ b = wire f k -> a <> [] -> b <> [] ->
  incomplete_rest a.
Proof.
  intros Hwf Hab Ha Hb. right. split; [exact Ha|].
  assert (Hn : (length a < length (wire f k))%nat).
  { rewrite <- Hab, length_app. destruct b; [contradiction | simpl; lia]. }
  destruct (wire_prefix_incomplete f k (length a)
              (vws_frame_new [] 0 TEXT_FRAME) 0 Hwf Hn) as (f' & H).
  rewrite <- Hab, firstn_length_app in H.
  exists f', 0. exact H.
Qed.

Lemma wait_loop_chunks (f : vws_frame) (k : key4) (fuel : nat)
  (rest : list read_event) :
  frame_wf f -> data_frame f -> (1 < fuel)%nat ->
  forall (chunks : list (list Z)) (w : world),
    chunks <> [] -> Forall (fun c => c <> []) chunks ->
    buffer w ++ concat chunks = wire f k ->
    exists n w',
      wait_loop process_frame fuel (map arrives chunks ++ rest) w
      = Done (n, rest) w' /\
      0 < n /\ buffer w' = [] /\ queue w' = received f :: queue w /\
      sockfd w' = sockfd w /\ written w' = written w.
Proof.
  intros Hwf Hd Hfuel.
  induction chunks as [|c cs IH]; intros w Hne Hall Hcat; [contradiction|].
  inversion Hall as [|? ? Hc Hcs]; subst.
  cbn [map app]. rewrite (wait_loop_arrives _ _ c _ w Hc).
  set (w1 := set_buffer (buffer w ++ c) (set_e_code VE_NONE w)).
  assert (Hlen : 0 < Z.of_nat (length c))
    by (destruct c; [contradiction | simpl; lia]).
  destruct cs as [|c' cs'].
  - cbn [concat] in Hcat. rewrite app_nil_r in Hcat.
    assert (Hb : buffer w1 = stream [(f, k)] ++ []).
    { unfold stream. cbn [map concat fst snd buffer w1 set_buffer].
      rewrite !app_nil_r. exact Hcat. }
    assert (Hs : stream [(f, k)] = wire f k)
      by (unfold stream; cbn [map concat fst snd]; apply app_nil_r).
    assert (Hlim : Z.of_nat (length (stream [(f, k)])) < 2 ^ 64).
    { rewrite Hs. pose proof (wire_length f k Hwf).
      pose proof (wf_bound f Hwf). pow64. lia. }
    assert (Hone : Forall (fun fk => frame_wf (fst fk) /\ data_frame (fst fk))
                     [(f, k)])
      by (apply Forall_cons; [split; assumption | apply Forall_nil]).
    destruct (ingress_data_frames [(f, k)] [] fuel w1 Hone
                (or_introl eq_refl) Hb Hlim Hfuel)
      as (w2 & Hrun & Hb2 & Hq2 & Hw2 & _ & Hs2).
    unfold bind. rewrite Hrun.
    assert (Hpos : 0 < Z.of_nat (length (stream [(f, k)]))).
    { rewrite Hs. pose proof (wire_length_nonzero f k). lia. }
    destruct (Z.ltb_spec 0 (Z.of_nat (length (stream [(f, k)]))))
      as [_|]; [|lia].
    exists (Z.of_nat (length c)), w2.
    split; [reflexivity|]. split; [exact Hlen|]. split; [exact Hb2|].
    split; [rewrite Hq2; reflexivity|]. split; [exact Hs2 | exact Hw2].
  - assert (Hrest : concat ((c' :: cs')) <> []).
    { inversion Hcs as [|? ? Hc' _]; subst. cbn [concat].
      destruct c'; [contradiction | discriminate]. }
    assert (Hb1 : buffer w1 <> []).
    { cbn [buffer w1 set_buffer]. destruct (buffer w); [exact Hc|].
      discriminate. }
    assert (Hinc : incomplete_rest (buffer w1)).
    { apply (wire_cut_incomplete f k _ (concat (c' :: cs')) Hwf).
      - cbn [buffer w1 set_buffer]. rewrite <- app_assoc. exact Hcat.
      - exact Hb1.
      - exact Hrest. }
    destruct (ingress_incomplete fuel w1 Hb1 Hinc) as (g & Hrun); [lia|].
    unfold bind. rewrite Hrun. cbn [Z.ltb Z.compare].
    destruct (IH (set_freed (freed w1 ++ [g]) w1)) as (n & w' & Hw & Hrs).
    + discriminate.
    + exact Hcs.
    + cbn [buffer set_freed w1 set_buffer]. rewrite <- app_assoc.
      exact Hcat.
    + exists n, w'. split; [exact Hw | exact Hrs].
Qed.

(** X12.  A data frame may reach the socket cut into any number of pieces:
    when the receive buffer holds the start of the frame (or nothing) and the
    reads that follow deliver the rest piece by piece, [vws_frame_recv] on an
    open connection with an empty queue makes exactly these reads, returns
    the frame, and leaves the receive buffer and the queue empty, having
    written nothing. *)
Theorem X12_frame_recv_in_pieces (f : vws_frame) (k : key4) (fuel : nat)
  (chunks : list (list Z)) (rest : list read_event) (w : world) :
  frame_wf f -> data_frame f -> (1 < fuel)%nat ->
  0 < sockfd w -> queue w = [] ->
  chunks <> [] -> Forall (fun c => c <> []) chunks ->
  buffer w ++ concat chunks = wire f k ->
  exists w',
    vws_frame_recv process_frame fuel (map arrives chunks ++ rest) w
    = Done (Some (received f), rest) w' /\
    buffer w' = [] /\ queue w' = [] /\ written w' = written w.
Proof.
  intros Hwf Hd Hfuel Hc Hq Hne Hall Hcat.
  set (w0 := set_e_code VE_NONE w).
  assert (Hc0 : 0 < sockfd w0) by exact Hc.
  destruct (wait_loop_chunks f k fuel rest Hwf Hd Hfuel chunks w0 Hne Hall
              Hcat) as (n & w1 & Hwait & Hn & Hb1 & Hq1 & Hs1 & Hw1).
  exists (set_queue [] w1). split.
  - unfold vws_frame_recv, bind at 1, vws_success, modify. fold w0.
    unfold bind at 1. rewrite (vws_cnx_is_connected_open w0 Hc0).
    cbn [negb length]. cbn [frame_recv_loop]. unfold bind at 1, gets.
    replace (queue w0) with (@nil vws_frame) by (symmetry; exact Hq).
    cbn [length Z.of_nat Z.ltb Z.compare].
    unfold bind at 1, socket_wait_for_frame, bind at 1, vws_success, modify.
    assert (Hw0 : set_e_code VE_NONE w0 = w0) by reflexivity.
    rewrite Hw0. unfold bind at 1.
    rewrite (vws_cnx_is_connected_open w0 Hc0). cbn [negb].
    rewrite Hwait. cbn [fst snd].
    destruct (Z.leb_spec n 0) as [|_]; [lia|].
    destruct chunks as [|c cs]; [contradiction|].
    cbn [map app length].
    apply (frame_recv_loop_queued process_frame fuel _ rest w1 []
             (received f)).
    rewrite Hq1. replace (queue w0) with (@nil vws_frame)
      by (symmetry; exact Hq). reflexivity.
  - cbn [buffer queue written set_queue]. rewrite Hb1, Hw1.
    repeat split; reflexivity.
Qed.

Lemma X12_frame_recv_in_pieces_witness :
  exists w',
    vws_frame_recv process_frame 2
      (map arrives [[1]; [2; 97]; [98]] ++ [ReadTimeout]) idle_world
    = Done (Some (received text_ab), [ReadTimeout]) w' /\
    buffer w' = [] /\ queue w' = [] /\ written w' = written idle_world.
Proof.
  apply (X12_frame_recv_in_pieces text_ab (1, 2, 3, 4) 2
           [[1]; [2; 97]; [98]] [ReadTimeout] idle_world).
  - concrete_frame_wf.
  - vm_compute. auto.
  - lia.
  - cbn. lia.
  - reflexivity.
  - discriminate.
  - repeat (apply Forall_cons; [discriminate|]). apply Forall_nil.
  - vm_compute. reflexivity.
Defined.

(** ** A frame that arrives with the start of the next *)

Lemma stream_one (f : vws_frame) (k : key4) : stream [(f, k)] = wire f k.
Proof. unfold stream. cbn [map concat fst snd]. apply app_nil_r. Qed.

Lemma wire_length_limit (f : vws_frame) (k : key4) :
  frame_wf f -> Z.of_nat (length (wire f k)) < 2 ^ 64.
Proof.
  intro Hwf. pose proof (wire_length f k Hwf).
  pose proof (wf_bound f Hwf). pow64. lia.
Qed.

(** X13.  When one read delivers a whole data frame together with the start
    of the next frame, the ingress loop queues the first frame but reports
    nothing consumed, so [socket_wait_for_frame] reads again; if that poll
    times out, [vws_frame_recv] returns NULL with WARN as the last error,
    though the frame it was asked for sits in the queue. *)
Theorem X13_frame_recv_stalls (f : vws_frame) (k : key4) (fuel : nat)
  (tail : list Z) (rest : list read_event) (w : world) :
  frame_wf f -> data_frame f -> (1 < fuel)%nat ->
  0 < sockfd w -> queue w = [] -> buffer w = [] ->
  tail <> [] -> incomplete_rest tail ->
  exists w',
    vws_frame_recv process_frame fuel
      (arrives (wire f k ++ tail) :: ReadTimeout :: rest) w
    = Done (None, rest) w' /\
    queue w' = [received f] /\ buffer w' = tail /\ e_code w' = VE_WARN.
Proof.
  intros Hwf Hd Hfuel Hc Hq Hb Ht Hinc.
  set (w0 := set_e_code VE_NONE w).
  assert (Hc0 : 0 < sockfd w0) by exact Hc.
  assert (Hne : wire f k ++ tail <> []).
  { intro E. apply app_eq_nil in E. destruct E as [_ E]. contradiction. }
  set (w1 := set_buffer (buffer w0 ++ wire f k ++ tail)
               (set_e_code VE_NONE w0)).
  assert (Hone : Forall (fun fk => frame_wf (fst fk) /\ data_frame (fst fk))
                   [(f, k)])
    by (apply Forall_cons; [split; assumption | apply Forall_nil]).
  assert (Hb1 : buffer w1 = stream [(f, k)] ++ tail).
  { rewrite stream_one. cbn [buffer w1 set_buffer w0 set_e_code].
    rewrite Hb. reflexivity. }
  assert (Hlim : Z.of_nat (length (stream [(f, k)])) < 2 ^ 64)
    by (rewrite stream_one; apply wire_length_limit; exact Hwf).
  destruct (ingress_data_frames [(f, k)] tail fuel w1 Hone Hinc Hb1 Hlim
              Hfuel) as (w2 & Hrun & Hb2 & Hq2 & _ & _ & _).
  assert (Hwait : wait_loop process_frame fuel
                    (arrives (wire f k ++ tail) :: ReadTimeout :: rest) w0
                  = Done (0, rest) (set_e_code VE_WARN w2)).
  { rewrite (wait_loop_arrives _ _ _ _ w0 Hne). fold w1.
    unfold bind at 1. rewrite Hrun.
    destruct tail as [|x t]; [contradiction|].
    cbn [Z.ltb Z.compare wait_loop]. unfold bind.
    rewrite vws_socket_read_timeout. reflexivity. }
  exists (set_e_code VE_WARN w2). split.
  - unfold vws_frame_recv, bind at 1, vws_success, modify. fold w0.
    unfold bind at 1. rewrite (vws_cnx_is_connected_open w0 Hc0).
    cbn [negb length frame_recv_loop]. unfold bind at 1, gets.
    replace (queue w0) with (@nil vws_frame) by (symmetry; exact Hq).
    cbn [length Z.of_nat Z.ltb Z.compare].
    unfold bind at 1, socket_wait_for_frame, bind at 1, vws_success, modify.
    assert (Hw0 : set_e_code VE_NONE w0 = w0) by reflexivity.
    rewrite Hw0. unfold bind at 1.
    rewrite (vws_cnx_is_connected_open w0 Hc0). cbn [negb].
    rewrite Hwait. reflexivity.
  - cbn [queue buffer e_code set_e_code]. rewrite Hq2, Hb2.
    cbn [map rev fst app w1 queue set_buffer set_e_code w0].
    rewrite Hq. repeat split; reflexivity.
Qed.

Lemma X13_frame_recv_stalls_witness :
  exists w',
    vws_frame_recv process_frame 2
      (arrives (wire text_ab (1, 2, 3, 4) ++ [129]) :: ReadTimeout :: [])
      idle_world
    = Done (None, []) w' /\
    queue w' = [received text_ab] /\ buffer w' = [129] /\
    e_code w' = VE_WARN.
Proof.
  apply (X13_frame_recv_stalls text_ab (1, 2, 3, 4) 2 [129] [] idle_world).
  - concrete_frame_wf.
  - vm_compute. auto.
  - lia.
  - cbn. lia.
  - reflexivity.
  - reflexivity.
  - discriminate.
  - right. split; [discriminate|]. eexists. eexists. reflexivity.
Defined.

(** ** A fragmented message, from the socket to the caller *)

Lemma vws_msg_pop_empty (w : world) :
  queue w = [] -> vws_msg_pop w = Done None w.
Proof.
  intro Hq. unfold vws_msg_pop, bind, has_complete_message, gets.
  rewrite Hq. reflexivity.
Qed.

Lemma vws_msg_pop_complete (pre : list vws_frame) (f : vws_frame)
  (post : list vws_frame) (w : world) :
  rev (queue w) = pre ++ f :: post ->
  Forall (fun g => (fin g =? 1) = false) pre -> fin f = 1 ->
  Forall queued_ok (pre ++ [f]) ->
  vws_msg_pop w
  = Done (Some (collect (mk_msg 100 []) (pre ++ [f])))
      (set_freed (freed w ++ pre ++ [f]) (set_queue (rev post) w)).
Proof.
  intros Hq Hpre Hf Hok.
  unfold vws_msg_pop, bind, has_complete_message, gets.
  assert (He : existsb (fun g => fin g =? 1) (queue w) = true).
  { rewrite <- existsb_rev, Hq, existsb_app. cbn [existsb].
    rewrite Hf. cbn [Z.eqb Pos.eqb]. rewrite orb_true_l, orb_true_r.
    reflexivity. }
  rewrite He. cbn [negb].
  assert (Hl : (length pre < S (length (queue w)))%nat).
  { rewrite <- (length_rev (queue w)), Hq, length_app. simpl. lia. }
  rewrite (msg_pop_loop_spec pre f post _ (mk_msg 100 []) w Hq Hpre Hf Hok
             Hl).
  reflexivity.
Qed.

(** X14.  A message that reaches the socket in one read as a run of data
    frames, all but the last without [fin], is handed to the caller of
    [vws_msg_recv] whole: the opcode is that of the first frame and the data
    are the payloads in order of arrival; the queue and the receive buffer
    are empty afterwards. *)
Theorem X14_msg_recv_fragments (pre : list (vws_frame * key4))
  (l : vws_frame) (kl : key4) (fuel : nat) (rest : list read_event)
  (w : world) :
  Forall (fun fk => frame_wf (fst fk) /\ data_frame (fst fk)) pre ->
  Forall (fun fk => fin (fst fk) = 0) pre ->
  frame_wf l -> data_frame l -> fin l = 1 ->
  (length pre + 1 < fuel)%nat ->
  Z.of_nat (length (stream (pre ++ [(l, kl)]))) < 2 ^ 64 ->
  0 < sockfd w -> queue w = [] -> buffer w = [] ->
  exists m w',
    vws_msg_recv process_frame fuel
      (arrives (stream (pre ++ [(l, kl)])) :: rest) w
    = Done (Some m, rest) w' /\
    m_opcode m = opcode (fst (hd (l, kl) pre)) /\
    m_data m = concat (map (fun fk => data (fst fk)) (pre ++ [(l, kl)])) /\
    queue w' = [] /\ buffer w' = [].
Proof.
  intros Hpre Hfin Hwf Hd Hf Hfuel Hlim Hc Hq Hb.
  set (fs := pre ++ [(l, kl)]) in *.
  set (w0 := set_e_code VE_NONE w).
  assert (Hc0 : 0 < sockfd w0) by exact Hc.
  assert (Hall : Forall (fun fk => frame_wf (fst fk) /\ data_frame (fst fk))
                   fs).
  { unfold fs. rewrite Forall_app. split; [exact Hpre|].
    apply Forall_cons; [split; assumption | apply Forall_nil]. }
  assert (Hne : stream fs <> []).
  { unfold fs, stream. rewrite map_app, concat_app. cbn [map concat fst snd].
    intro E. apply app_eq_nil in E. destruct E as [_ E].
    apply app_eq_nil in E. destruct E as [E _].
    exact (wire_not_nil l kl E). }
  set (w1 := set_buffer (buffer w0 ++ stream fs) (set_e_code VE_NONE w0)).
  assert (Hb1 : buffer w1 = stream fs ++ []).
  { cbn [buffer w1 set_buffer w0 set_e_code]. rewrite Hb, app_nil_r.
    reflexivity. }
  assert (Hlen : (length fs < fuel)%nat)
    by (unfold fs; rewrite length_app; simpl; lia).
  destruct (ingress_data_frames fs [] fuel w1 Hall (or_introl eq_refl) Hb1
              Hlim Hlen) as (w2 & Hrun & Hb2 & Hq2 & _ & _ & _).
  assert (Hpos : 0 < Z.of_nat (length (stream fs)))
    by (destruct (stream fs); [contradiction | simpl; lia]).
  assert (Hwait : wait_loop process_frame fuel
                    (arrives (stream fs) :: rest) w0
                  = Done (Z.of_nat (length (stream fs)), rest) w2).
  { rewrite (wait_loop_arrives _ _ _ _ w0 Hne). fold w1.
    unfold bind at 1. rewrite Hrun.
    destruct (Z.ltb_spec 0 (Z.of_nat (length (stream fs)))) as [_|]; [|lia].
    reflexivity. }
  assert (Hrev : rev (queue w2)
                 = map (fun fk => received (fst fk)) pre
                   ++ received l :: []).
  { rewrite Hq2. cbn [queue w1 set_buffer set_e_code w0]. rewrite Hq.
    rewrite app_nil_r, rev_involutive. unfold fs. rewrite map_app.
    reflexivity. }
  assert (Hnofin : Forall (fun g => (fin g =? 1) = false)
                     (map (fun fk => received (fst fk)) pre)).
  { rewrite Forall_map. eapply Forall_impl; [|exact Hfin].
    intros a Ha. cbn [fin received]. rewrite Ha. reflexivity. }
  assert (Hok : Forall queued_ok
                  (map (fun fk => received (fst fk)) pre ++ [received l])).
  { change [received l]
      with (map (fun fk : vws_frame * key4 => received (fst fk)) [(l, kl)]).
    rewrite <- map_app. fold fs. rewrite Forall_map.
    eapply Forall_impl; [|exact Hall].
    intros a [Ha _]. unfold queued_ok. cbn [opcode size data received].
    pose proof (wf_opcode _ Ha). pose proof (wf_size _ Ha).
    split; [lia | assumption]. }
  pose proof (vws_msg_pop_complete _ (received l) [] w2 Hrev Hnofin Hf Hok)
    as Hpop.
  eexists. eexists. split.
  - unfold vws_msg_recv, bind at 1, vws_success, modify. fold w0.
    unfold bind at 1. rewrite (vws_cnx_is_connected_open w0 Hc0).
    cbn [negb length msg_recv_loop]. unfold bind at 1.
    rewrite (vws_msg_pop_empty w0 Hq).
    unfold bind at 1, socket_wait_for_frame, bind at 1, vws_success, modify.
    assert (Hw0 : set_e_code VE_NONE w0 = w0) by reflexivity.
    rewrite Hw0. unfold bind at 1.
    rewrite (vws_cnx_is_connected_open w0 Hc0). cbn [negb].
    rewrite Hwait. cbn [fst snd].
    destruct (Z.leb_spec (Z.of_nat (length (stream fs))) 0) as [|_]; [lia|].
    unfold bind at 1. rewrite Hpop. reflexivity.
  - cbn [m_opcode m_data collect queue buffer set_freed set_queue rev
         Z.eqb app].
    rewrite Hb2. split; [|split; [|split; reflexivity]].
    + destruct pre as [|[p kp] pre']; reflexivity.
    + change [received l]
        with (map (fun fk : vws_frame * key4 => received (fst fk))
                [(l, kl)]).
      rewrite <- map_app, map_map. reflexivity.
Qed.

Lemma X14_msg_recv_fragments_witness :
  exists m w',
    vws_msg_recv process_frame 3
      (arrives (stream ([(text_ab, (1, 2, 3, 4))]
                        ++ [(continuation_cd, (1, 2, 3, 4))])) :: [])
      idle_world
    = Done (Some m, []) w' /\
    m_opcode m = opcode (fst (hd (continuation_cd, (1, 2, 3, 4))
                                [(text_ab, (1, 2, 3, 4))])) /\
    m_data m = concat (map (fun fk => data (fst fk))
                         ([(text_ab, (1, 2, 3, 4))]
                          ++ [(continuation_cd, (1, 2, 3, 4))])) /\
    queue w' = [] /\ buffer w' = [].
Proof.
  apply (X14_msg_recv_fragments [(text_ab, (1, 2, 3, 4))] continuation_cd
           (1, 2, 3, 4) 3 [] idle_world).
  - apply Forall_cons; [|apply Forall_nil].
    split; [concrete_frame_wf | vm_compute; auto].
  - apply Forall_cons; [reflexivity | apply Forall_nil].
  - concrete_frame_wf.
  - vm_compute. auto.
  - reflexivity.
  - simpl. lia.
  - vm_compute. reflexivity.
  - cbn. lia.
  - reflexivity.
  - reflexivity.
Defined.

(** ** URLs *)

Lemma free_of_cons (c : Z) (cs s : list Z) :
  free_of (c :: cs) s -> ~ In c s /\ free_of cs s.
Proof.
  intro H. split; [apply H; now left|].
  intros d Hd. apply H. now right.
Qed.

Lemma not_in_app (c : Z) (a b : list Z) :
  ~ In c a -> ~ In c b -> ~ In c (a ++ b).
Proof.
  intros Ha Hb Hin. apply in_app_or in Hin. tauto.
Qed.

Lemma is_prefix_app (p s : list Z) : is_prefix p (p ++ s) = true.
Proof.
  induction p as [|x p IH]; [reflexivity|].
  cbn [is_prefix app]. rewrite Z.eqb_refl. exact IH.
Qed.

Lemma strstr_prefix (s sep : list Z) :
  is_prefix sep s = true -> strstr s sep = Some 0%nat.
Proof.
  intro H. destruct s; cbn [strstr]; rewrite H; reflexivity.
Qed.

Lemma strstr_first (a b : list Z) (c : Z) (sep : list Z) :
  ~ In c a ->
  strstr (a ++ (c :: sep) ++ b) (c :: sep) = Some (length a).
Proof.
  induction a as [|x a IH]; intro Hc.
  - apply strstr_prefix. exact (is_prefix_app (c :: sep) b).
  - assert (Hx : c <> x) by (intro E; apply Hc; now left).
    assert (Ha : ~ In c a) by (intro E; apply Hc; now right).
    rewrite <- app_comm_cons. cbn [strstr is_prefix length].
    destruct (Z.eqb_spec c x) as [|_]; [contradiction|].
    cbn [andb]. rewrite (IH Ha). reflexivity.
Qed.

Lemma strstr_none (s : list Z) (c : Z) (sep : list Z) :
  ~ In c s -> strstr s (c :: sep) = None.
Proof.
  induction s as [|x s IH]; intro Hc; [reflexivity|].
  assert (Hx : c <> x) by (intro E; apply Hc; now left).
  assert (Hs : ~ In c s) by (intro E; apply Hc; now right).
  cbn [strstr is_prefix].
  destruct (Z.eqb_spec c x) as [|_]; [contradiction|].
  cbn [andb]. rewrite (IH Hs). reflexivity.
Qed.

Lemma strlen_app_cstring (a r : list Z) :
  cstring a -> strlen (a ++ r) = (length a + strlen r)%nat.
Proof.
  unfold cstring. induction a as [|x a IH]; intro H; [reflexivity|].
  cbn [app strlen length].
  destruct (Z.eqb_spec x 0) as [->|_]; [elim H; now left|].
  rewrite IH; [reflexivity|]. intro Hin. apply H. now right.
Qed.

Lemma strncpy_prefix (a r : list Z) :
  cstring a -> strncpy (a ++ r) (length a) = a.
Proof.
  intro H. unfold strncpy. rewrite (strlen_app_cstring a r H).
  rewrite firstn_firstn, Nat.min_l by lia.
  rewrite firstn_length_app, Nat.sub_diag. apply app_nil_r.
Qed.

Lemma url_extract_part_first (a b : list Z) (c : Z) (sep : list Z) :
  cstring a -> ~ In c a -> cstring (c :: sep) ->
  url_extract_part (a ++ (c :: sep) ++ b) (c :: sep) = Some (a, b).
Proof.
  intros Ha Hc Hsep. unfold url_extract_part.
  rewrite (strstr_first a b c sep Hc), (strncpy_prefix a _ Ha).
  rewrite (strlen_cstring _ Hsep).
  rewrite skipn_app, skipn_all2 by lia.
  replace (length a + length (c :: sep) - length a)%nat
    with (length (c :: sep)) by lia.
  rewrite skipn_app, skipn_all, Nat.sub_diag. reflexivity.
Qed.

Lemma url_extract_part_none (s : list Z) (c : Z) (sep : list Z) :
  ~ In c s -> url_extract_part s (c :: sep) = None.
Proof.
  intro H. unfold url_extract_part. now rewrite (strstr_none s c sep H).
Qed.

Lemma strchr_first (a b : list Z) (c : Z) :
  ~ In c a -> strchr (a ++ c :: b) c = Some (length a).
Proof.
  induction a as [|x a IH]; intro Hc.
  - cbn [app strchr length]. now rewrite Z.eqb_refl.
  - assert (Hx : x <> c) by (intro E; apply Hc; now left).
    assert (Ha : ~ In c a) by (intro E; apply Hc; now right).
    cbn [app strchr length].
    destruct (Z.eqb_spec x c) as [|_]; [contradiction|].
    rewrite (IH Ha). reflexivity.
Qed.

Lemma strchr_none (s : list Z) (c : Z) : ~ In c s -> strchr s c = None.
Proof.
  induction s as [|x s IH]; intro Hc; [reflexivity|].
  assert (Hx : x <> c) by (intro E; apply Hc; now left).
  assert (Hs : ~ In c s) by (intro E; apply Hc; now right).
  cbn [strchr]. destruct (Z.eqb_spec x c) as [|_]; [contradiction|].
  now rewrite (IH Hs).
Qed.

Lemma vrtql_url_extract_port_text (h : list Z) (p : option (list Z)) :
  ~ In 58 h -> vrtql_url_extract_port (h ++ port_text p) = (p, h).
Proof.
  intro Hh. unfold vrtql_url_extract_port, port_text.
  destruct p as [p|].
  - change (lit ":" ++ p) with (58 :: p).
    rewrite (strchr_first h p 58 Hh).
    change (S (length h)) with (1 + length h)%nat.
    rewrite <- skipn_skipn, skipn_app, skipn_all, Nat.sub_diag.
    rewrite firstn_length_app. reflexivity.
  - rewrite app_nil_r, (strchr_none h 58 Hh). reflexivity.
Qed.

Lemma vrtql_url_build_text (parts : vrtql_url) :
  opt_cstring (url_scheme parts) -> opt_cstring (url_host parts) ->
  opt_cstring (url_port parts) -> opt_cstring (url_path parts) ->
  opt_cstring (url_query parts) -> opt_cstring (url_fragment parts) ->
  vrtql_url_build parts = url_text parts.
Proof.
  destruct parts as [sc ho po pa qu fr].
  unfold vrtql_url_build, url_text, opt_cstring, port_text, snprintf.
  cbn [url_scheme url_host url_port url_path url_query url_fragment].
  change (lit "://") with [58; 47; 47]. change (lit ":") with [58].
  change (lit "?") with [63]. change (lit "#") with [35].
  intros H1 H2 H3 H4 H5 H6.
  destruct sc as [sc|], ho as [ho|], po as [po|], pa as [pa|], qu as [qu|],
    fr as [fr|];
    cbn [opt_strlen];
    rewrite ?(strlen_cstring sc H1), ?(strlen_cstring ho H2),
      ?(strlen_cstring po H3), ?(strlen_cstring pa H4),
      ?(strlen_cstring qu H5), ?(strlen_cstring fr H6);
    repeat (rewrite firstn_all2
              by (rewrite ?length_app; cbn [length]; lia));
    rewrite <- ?app_assoc; cbn [app]; rewrite ?app_nil_r; reflexivity.
Qed.

(** X15.  [vrtql_url_build] never cuts a component short: for components
    that are C strings, whichever of them are present, the buffer it sizes
    takes them all and the result is the scheme with [://], the host, the
    port after [:], the path, the query after [?] and the fragment after
    [#], in this order. *)
Theorem X15_url_build_text (parts : vrtql_url) :
  opt_cstring (url_scheme parts) -> opt_cstring (url_host parts) ->
  opt_cstring (url_port parts) -> opt_cstring (url_path parts) ->
  opt_cstring (url_query parts) -> opt_cstring (url_fragment parts) ->
  vrtql_url_build parts = url_text parts.
Proof.
  exact (vrtql_url_build_text parts).
Qed.

Lemma X15_url_build_text_witness :
  vrtql_url_build
    (mk_vrtql_url (Some (lit "ws")) (Some (lit "host")) (Some (lit "80"))
       (Some (lit "/a")) (Some (lit "q")) None)
  = url_text
      (mk_vrtql_url (Some (lit "ws")) (Some (lit "host")) (Some (lit "80"))
         (Some (lit "/a")) (Some (lit "q")) None).
Proof.
  apply (X15_url_build_text
           (mk_vrtql_url (Some (lit "ws")) (Some (lit "host"))
              (Some (lit "80")) (Some (lit "/a")) (Some (lit "q")) None));
    cbn [opt_cstring url_scheme url_host url_port url_path url_query
         url_fragment]; try exact I;
    unfold cstring; vm_compute; intuition discriminate.
Defined.

Lemma free_of_in (cs s : list Z) (c : Z) :
  free_of cs s -> In c cs -> ~ In c s.
Proof. intros H Hc. exact (H c Hc). Qed.

Ltac free_of_solve :=
  repeat apply not_in_app;
  try (eapply free_of_in; [eassumption | simpl; tauto]);
  try (simpl; intuition discriminate).

Lemma vrtql_url_parse_plain (s h pa : list Z) (p : option (list Z))
  (w : world) :
  free_of [0; 58] s -> free_of [0; 58; 47; 35; 63] h ->
  free_of [0; 47; 35; 63] (port_text p) -> free_of [0; 35; 63] pa ->
  nth 0 pa 0 <> 47 ->
  vrtql_url_parse (s ++ lit "://" ++ h ++ port_text p ++ lit "/" ++ pa) w
  = Done (mk_vrtql_url (Some s) (Some h) p (Some (lit "/" ++ pa)) None None)
      w.
Proof.
  intros Hs Hh Hp Hpa Hslash.
  assert (Hpt : cstring (h ++ port_text p))
    by (unfold cstring; free_of_solve).
  unfold vrtql_url_parse.
  change (lit "://") with [58; 47; 47]. change (lit "/") with [47].
  change (lit "#") with [35]. change (lit "?") with [63].
  replace (h ++ port_text p ++ [47] ++ pa)
    with ((h ++ port_text p) ++ [47] ++ pa) by (now rewrite <- app_assoc).
  rewrite (url_extract_part_first s _ 58 [47; 47]);
    [|unfold cstring; free_of_solve | free_of_solve
     |unfold cstring; simpl; intuition discriminate].
  cbv beta iota zeta.
  rewrite (url_extract_part_none _ 35 []) by free_of_solve.
  cbv beta iota zeta.
  rewrite (url_extract_part_none _ 63 []) by free_of_solve.
  cbv beta iota zeta.
  rewrite (url_extract_part_first (h ++ port_text p) pa 47 []);
    [|exact Hpt | free_of_solve
     |unfold cstring; simpl; intuition discriminate].
  cbv beta iota zeta.
  rewrite (vrtql_url_extract_port_text h p) by free_of_solve.
  destruct (Z.eqb_spec (nth 0 pa 0) 47) as [|_]; [contradiction|].
  reflexivity.
Qed.

(** X16.  A URL written as scheme, [://], host, an optional [:port], [/] and
    a path with neither [?] nor [#] is taken apart by [vrtql_url_parse] into
    just these components, the path with its leading [/], and
    [vrtql_url_build] puts the same URL together again from them. *)
Theorem X16_url_round_trip (s h pa : list Z) (p : option (list Z))
  (w : world) :
  free_of [0; 58] s -> free_of [0; 58; 47; 35; 63] h ->
  free_of [0; 47; 35; 63] (port_text p) -> free_of [0; 35; 63] pa ->
  nth 0 pa 0 <> 47 ->
  vrtql_url_parse (s ++ lit "://" ++ h ++ port_text p ++ lit "/" ++ pa) w
  = Done (mk_vrtql_url (Some s) (Some h) p (Some (lit "/" ++ pa)) None None)
      w /\
  vrtql_url_build
    (mk_vrtql_url (Some s) (Some h) p (Some (lit "/" ++ pa)) None None)
  = s ++ lit "://" ++ h ++ port_text p ++ lit "/" ++ pa.
Proof.
  intros Hs Hh Hp Hpa Hslash. split.
  - exact (vrtql_url_parse_plain s h pa p w Hs Hh Hp Hpa Hslash).
  - rewrite vrtql_url_build_text.
    + unfold url_text.
      cbn [url_scheme url_host url_port url_path url_query url_fragment].
      rewrite <- !app_assoc, !app_nil_r. reflexivity.
    + unfold opt_cstring, cstring. cbn [url_scheme]. free_of_solve.
    + unfold opt_cstring, cstring. cbn [url_host]. free_of_solve.
    + unfold opt_cstring, cstring. cbn [url_port].
      destruct p as [p|]; [|exact I].
      intro Hin. apply (Hp 0); [simpl; tauto|].
      unfold port_text. apply in_or_app. now right.
    + unfold opt_cstring, cstring. cbn [url_path].
      change (lit "/") with [47]. free_of_solve.
    + exact I.
    + exact I.
Qed.

Lemma X16_url_round_trip_witness :
  vrtql_url_parse
    (lit "ws" ++ lit "://" ++ lit "host" ++ port_text (Some (lit "8181"))
     ++ lit "/" ++ lit "a/b") idle_world
  = Done (mk_vrtql_url (Some (lit "ws")) (Some (lit "host"))
            (Some (lit "8181")) (Some (lit "/" ++ lit "a/b")) None None)
      idle_world /\
  vrtql_url_build
    (mk_vrtql_url (Some (lit "ws")) (Some (lit "host"))
       (Some (lit "8181")) (Some (lit "/" ++ lit "a/b")) None None)
  = lit "ws" ++ lit "://" ++ lit "host" ++ port_text (Some (lit "8181"))
    ++ lit "/" ++ lit "a/b".
Proof.
  apply (X16_url_round_trip (lit "ws") (lit "host") (lit "a/b")
           (Some (lit "8181")) idle_world);
    try (intros c Hc; vm_compute in Hc; vm_compute; intuition congruence).
  vm_compute. discriminate.
Defined.

(** X17.  What [vrtql_url_parse] files as the fragment is the text between
    [://] and the first [#], and as the query the text between that [#] and
    the first [?], not the texts that follow these marks: the URL
    [s://x#q?u] parses as [s://u] does, with [x] as the fragment and [q] as
    the query. *)
Theorem X17_url_fragment_and_query (s x q u : list Z) (w : world) :
  free_of [0; 58] s -> free_of [0; 35] x -> free_of [0; 35; 63] q ->
  free_of [0; 35; 63] u ->
  vrtql_url_parse (s ++ lit "://" ++ x ++ lit "#" ++ q ++ lit "?" ++ u) w
  = (r <- vrtql_url_parse (s ++ lit "://" ++ u) ;;
     ret (with_query (Some q) (with_fragment (Some x) r))) w.
Proof.
  intros Hs Hx Hq Hu.
  assert (Hcs : cstring s) by (unfold cstring; free_of_solve).
  assert (Hns : ~ In 58 s) by free_of_solve.
  assert (Hsep : cstring [58; 47; 47])
    by (unfold cstring; simpl; intuition discriminate).
  assert (Hh : cstring [35])
    by (unfold cstring; simpl; intuition discriminate).
  assert (Hm : cstring [63])
    by (unfold cstring; simpl; intuition discriminate).
  unfold vrtql_url_parse, bind.
  change (lit "://") with [58; 47; 47]. change (lit "/") with [47].
  change (lit "#") with [35]. change (lit "?") with [63].
  rewrite !(url_extract_part_first s _ 58 [47; 47] Hcs Hns Hsep).
  cbv beta iota zeta.
  rewrite (url_extract_part_first x (q ++ [63] ++ u) 35 []);
    [|unfold cstring; free_of_solve | free_of_solve | exact Hh].
  rewrite (url_extract_part_none u 35 []) by free_of_solve.
  cbv beta iota zeta.
  rewrite (url_extract_part_first q u 63 []);
    [|unfold cstring; free_of_solve | free_of_solve | exact Hm].
  rewrite (url_extract_part_none u 63 []) by free_of_solve.
  cbv beta iota zeta.
  destruct (url_extract_part u [47]) as [[h r']|]; [|reflexivity].
  cbv beta iota zeta. destruct (vrtql_url_extract_port h).
  reflexivity.
Qed.

Lemma X17_url_fragment_and_query_witness :
  vrtql_url_parse (lit "ws" ++ lit "://" ++ lit "frag" ++ lit "#"
                   ++ lit "k=v" ++ lit "?" ++ lit "host/p") idle_world
  = (r <- vrtql_url_parse (lit "ws" ++ lit "://" ++ lit "host/p") ;;
     ret (with_query (Some (lit "k=v"))
            (with_fragment (Some (lit "frag")) r))) idle_world.
Proof.
  apply (X17_url_fragment_and_query (lit "ws") (lit "frag") (lit "k=v")
           (lit "host/p") idle_world);
    intros c Hc; vm_compute in Hc; vm_compute; intuition congruence.
Defined.

(** X18.  A URL with nothing after the host, as in [ws://host:8181], has no
    [/] for [vrtql_url_parse] to end the host at: the code then copies the
    text into the host, frees it and goes on to measure and copy the freed
    text as the path. *)
Theorem X18_url_without_path (s h : list Z) (w : world) :
  free_of [0; 58] s -> free_of [47; 35; 63] h ->
  vrtql_url_parse (s ++ lit "://" ++ h) w = Fault.
Proof.
  intros Hs Hh. unfold vrtql_url_parse.
  change (lit "://") with [58; 47; 47]. change (lit "/") with [47].
  change (lit "#") with [35]. change (lit "?") with [63].
  rewrite (url_extract_part_first s h 58 [47; 47]);
    [|unfold cstring; free_of_solve | free_of_solve
     |unfold cstring; simpl; intuition discriminate].
  cbv beta iota zeta.
  rewrite (url_extract_part_none h 35 []) by free_of_solve.
  cbv beta iota zeta.
  rewrite (url_extract_part_none h 63 []) by free_of_solve.
  cbv beta iota zeta.
  rewrite (url_extract_part_none h 47 []) by free_of_solve.
  reflexivity.
Qed.

Lemma X18_url_without_path_witness :
  vrtql_url_parse (lit "ws" ++ lit "://" ++ lit "host:8181") idle_world
  = Fault.
Proof.
  apply (X18_url_without_path (lit "ws") (lit "host:8181") idle_world);
    intros c Hc; vm_compute in Hc; vm_compute; intuition congruence.
Defined.

(** ** Keys and identifiers *)

Lemma base64_char_alphabet (i : Z) : 0 <= i -> base64_alphabet (base64_char i).
Proof.
  intro H. unfold base64_alphabet, base64_char.
  repeat match goal with
         | |- context [?a <? ?b] => destruct (Z.ltb_spec a b)
         | |- context [?a =? ?b] => destruct (Z.eqb_spec a b)
         end; lia.
Qed.

Lemma uuid_char_alphabet (c : Z) : base64_alphabet c -> uuid_char c = c.
Proof.
  unfold base64_alphabet, uuid_char. intro H.
  destruct (Z.eqb_spec c 61); [lia|]. destruct (Z.eqb_spec c 10); [lia|].
  destruct (Z.eqb_spec c 13); [lia|]. destruct (Z.eqb_spec c 45); [lia|].
  reflexivity.
Qed.

Ltac bits_nonneg :=
  repeat match goal with
         | |- 0 <= Z.lor _ _ => apply Z.lor_nonneg; split
         | |- 0 <= Z.shiftl _ _ => apply Z.shiftl_nonneg
         | |- 0 <= Z.shiftr _ _ => apply Z.shiftr_nonneg
         | |- 0 <= Z.land _ _ => apply Z.land_nonneg; right; lia
         end; try assumption; try lia.

(** The encoding of 3n + 1 bytes: 4n + 2 digits and two padding
    characters. *)
Lemma vws_base64_encode_shape (n : nat) :
  forall d,
    length d = (3 * n + 1)%nat -> Forall (fun b => 0 <= b) d ->
    exists idx,
      length idx = (4 * n + 2)%nat /\ Forall (fun i => 0 <= i) idx /\
      vws_base64_encode d = map base64_char idx ++ [61; 61].
Proof.
  induction n as [|n IH]; intros d Hl Hd.
  - destruct d as [|a [|? ?]]; try discriminate Hl.
    inversion Hd as [|? ? Ha _]; subst.
    exists [Z.shiftr a 2; Z.shiftl (Z.land a 3) 4].
    split; [reflexivity|]. split; [|reflexivity].
    apply Forall_cons; [bits_nonneg|].
    apply Forall_cons; [bits_nonneg | apply Forall_nil].
  - destruct d as [|a [|b [|c d]]]; try (simpl in Hl; lia).
    inversion Hd as [|? ? Ha Hd1]; subst.
    inversion Hd1 as [|? ? Hb Hd2]; subst.
    inversion Hd2 as [|? ? Hc Hd3]; subst.
    destruct (IH d) as (idx & Hlen & Hidx & Henc);
      [simpl in Hl; lia | exact Hd3 |].
    exists (Z.shiftr a 2
            :: Z.lor (Z.shiftl (Z.land a 3) 4) (Z.shiftr b 4)
            :: Z.lor (Z.shiftl (Z.land b 15) 2) (Z.shiftr c 6)
            :: Z.land c 63 :: idx).
    split; [simpl; lia|]. split.
    + repeat (apply Forall_cons; [bits_nonneg|]). exact Hidx.
    + cbn [vws_base64_encode map app]. rewrite Henc. reflexivity.
Qed.

Lemma store_length (buf : list Z) (off : nat) (bytes : list Z) :
  (off + length bytes <= length buf)%nat ->
  length (store buf off bytes) = length buf.
Proof.
  intro H. unfold store.
  rewrite !length_app, length_firstn, length_skipn. lia.
Qed.

Lemma store_Forall (P : Z -> Prop) (buf : list Z) (off : nat)
  (bytes : list Z) :
  Forall P buf -> Forall P bytes -> Forall P (store buf off bytes).
Proof.
  intros Hb Hy. unfold store. rewrite !Forall_app.
  rewrite Forall_forall in Hb.
  repeat split; [|exact Hy|]; apply Forall_forall; intros x Hx; apply Hb.
  - rewrite <- (firstn_skipn off buf). apply in_or_app. now left.
  - rewrite <- (firstn_skipn (off + length bytes) buf).
    apply in_or_app. now right.
Qed.

(** X19.  From 16 random bytes [generate_websocket_key] makes a key of 24
    characters, 22 Base64 digits and the padding [==], and
    [vrtql_generate_uuid] an identifier of 22 Base64 digits followed by
    [__]: of the four characters its loop replaces, only the padding [=] can
    occur. *)
Theorem X19_key_and_uuid (r : list Z) :
  length r = 16%nat -> Forall is_byte r ->
  (exists k,
     generate_websocket_key (Some r) = Some (k ++ lit "==") /\
     length k = 22%nat /\ Forall base64_alphabet k) /\
  (exists u,
     vrtql_generate_uuid (Some r) = Some (u ++ lit "__") /\
     length u = 22%nat /\ Forall base64_alphabet u).
Proof.
  intros Hl Hr.
  assert (Hnn : Forall (fun b => 0 <= b) r).
  { eapply Forall_impl; [|exact Hr]. unfold is_byte. intros; lia. }
  assert (Halpha : forall idx, Forall (fun i => 0 <= i) idx ->
                     Forall base64_alphabet (map base64_char idx)).
  { intros idx H. rewrite Forall_map. eapply Forall_impl; [|exact H].
    intros i Hi. apply base64_char_alphabet. exact Hi. }
  split.
  - destruct (vws_base64_encode_shape 5 r Hl Hnn) as (idx & Hlen & Hidx & He).
    exists (map base64_char idx). unfold generate_websocket_key.
    rewrite He. split; [reflexivity|].
    split; [rewrite length_map; exact Hlen | exact (Halpha idx Hidx)].
  - unfold vrtql_generate_uuid.
    set (r1 := store r 6 [Z.lor (Z.land (nth 6 r 0) 15) 64]).
    set (r2 := store r1 8 [Z.lor (Z.land (nth 8 r1 0) 63) 128]).
    assert (Hl1 : length r1 = 16%nat)
      by (unfold r1; rewrite store_length; [exact Hl | rewrite Hl; simpl; lia]).
    assert (Hl2 : length r2 = 16%nat)
      by (unfold r2; rewrite store_length;
          [exact Hl1 | rewrite Hl1; simpl; lia]).
    assert (Hn1 : Forall (fun b => 0 <= b) r1).
    { unfold r1. apply store_Forall; [exact Hnn|].
      apply Forall_cons; [bits_nonneg | apply Forall_nil]. }
    assert (Hn2 : Forall (fun b => 0 <= b) r2).
    { unfold r2. apply store_Forall; [exact Hn1|].
      apply Forall_cons; [bits_nonneg | apply Forall_nil]. }
    destruct (vws_base64_encode_shape 5 r2 Hl2 Hn2)
      as (idx & Hlen & Hidx & He).
    rewrite He.
    assert (Hcs : cstring (map base64_char idx ++ [61; 61])).
    { unfold cstring. intro Hin. apply in_app_or in Hin.
      destruct Hin as [Hin | Hin].
      - apply in_map_iff in Hin. destruct Hin as (i & Hi & Hin).
        rewrite Forall_forall in Hidx.
        pose proof (base64_char_pos i (Hidx i Hin)). lia.
      - simpl in Hin. intuition discriminate. }
    rewrite (strlen_cstring _ Hcs), firstn_all, skipn_all, app_nil_r.
    rewrite map_app.
    exists (map uuid_char (map base64_char idx)).
    split; [reflexivity|].
    split; [rewrite !length_map; exact Hlen|].
    rewrite Forall_map. eapply Forall_impl; [|exact (Halpha idx Hidx)].
    intros c Hc. rewrite (uuid_char_alphabet c Hc). exact Hc.
Qed.

Lemma X19_key_and_uuid_witness :
  (exists k,
     generate_websocket_key (Some (repeat 7 16)) = Some (k ++ lit "==") /\
     length k = 22%nat /\ Forall base64_alphabet k) /\
  (exists u,
     vrtql_generate_uuid (Some (repeat 7 16)) = Some (u ++ lit "__") /\
     length u = 22%nat /\ Forall base64_alphabet u).
Proof.
  apply (X19_key_and_uuid (repeat 7 16)).
  - reflexivity.
  - apply Forall_forall. intros x Hx. apply repeat_spec in Hx. subst x.
    unfold is_byte. lia.
Defined.

(** ** Reading from the socket *)

(** X20.  Whenever [vws_socket_read] returns (it does unless [poll] reports
    an event other than POLLIN), the thread's last error is NONE exactly
    when the value returned is positive; a value that is not positive comes
    with the receive buffer as it was; the socket, the queue and the flags
    are never touched and nothing is written. *)
Theorem X20_socket_read_result (ev : read_event) (w : world) :
  match ev with
  | ReadReady revents _ _ => Z.land revents POLLIN <> 0
  | _ => True
  end ->
  exists n w',
    vws_socket_read ev w = Done n w' /\
    (0 < n <-> e_code w' = VE_NONE) /\
    (n <= 0 -> buffer w' = buffer w) /\
    sockfd w' = sockfd w /\ queue w' = queue w /\ flags w' = flags w /\
    written w' = written w.
Proof.
  intro Hev. unfold vws_socket_read, bind, vws_success, vws_error, modify,
    gets, ret.
  destruct ev as [| |revents n received].
  - do 2 eexists. split; [reflexivity|]. cbn.
    repeat split; try reflexivity; try lia; discriminate.
  - do 2 eexists. split; [reflexivity|]. cbn.
    repeat split; try reflexivity; try lia; discriminate.
  - destruct (Z.eqb_spec (Z.land revents POLLIN) 0) as [|_];
      [contradiction|].
    cbn [negb ssl set_e_code].
    destruct (ssl w); destruct (Z.ltb_spec 0 n) as [Hn|Hn];
      try (destruct (Z.eqb_spec n (-1)) as [Hm|Hm]; [try lia|]);
      (do 2 eexists; split; [reflexivity|]; cbn;
       repeat split; try reflexivity; try lia; try discriminate).
Qed.

Lemma X20_socket_read_result_witness :
  exists n w',
    vws_socket_read (ReadReady POLLIN (-1) []) idle_world = Done n w' /\
    (0 < n <-> e_code w' = VE_NONE) /\
    (n <= 0 -> buffer w' = buffer idle_world) /\
    sockfd w' = sockfd idle_world /\ queue w' = queue idle_world /\
    flags w' = flags idle_world /\ written w' = written idle_world.
Proof.
  apply (X20_socket_read_result (ReadReady POLLIN (-1) []) idle_world).
  vm_compute. discriminate.
Defined.

(** ** The defaults of [cnx_connect] *)

(** X21.  For a URL without a port, [cnx_connect] connects with TLS to port
    443 when the protocol is exactly [wss], and without TLS to port 80 for
    every other protocol, whatever it is. *)
Theorem X21_cnx_connect_defaults (connect : list Z -> Z -> bool -> M bool)
  (u : vws_url_data) (h : list Z) (w : world) :
  url w = Some u -> host u = Some h -> port u = None ->
  cstring (protocol u) ->
  (protocol u = lit "wss" -> cnx_connect connect w = connect h 443 true w) /\
  (protocol u <> lit "wss" -> cnx_connect connect w = connect h 80 false w).
Proof.
  intros Hu Hh Hp Hc.
  assert (Hw : cstring (lit "wss"))
    by (unfold cstring; vm_compute; intuition discriminate).
  pose proof (strcmp_eq (protocol u) (lit "wss") Hc Hw) as Heq.
  unfold cnx_connect, bind, gets. rewrite Hu, Hh, Hp.
  split; intro H.
  - destruct (Z.eqb_spec (strcmp (protocol u) (lit "wss")) 0) as [_|Hn];
      [reflexivity | elim Hn; apply Heq; exact H].
  - destruct (Z.eqb_spec (strcmp (protocol u) (lit "wss")) 0) as [Hz|_];
      [elim H; apply Heq; exact Hz | reflexivity].
Qed.

Lemma X21_cnx_connect_defaults_witness :
  (lit "ws" = lit "wss" ->
   cnx_connect connect_succeeds closed_with_url
   = connect_succeeds (lit "echo.example") 443 true closed_with_url) /\
  (lit "ws" <> lit "wss" ->
   cnx_connect connect_succeeds closed_with_url
   = connect_succeeds (lit "echo.example") 80 false closed_with_url).
Proof.
  apply (X21_cnx_connect_defaults connect_succeeds
           (mk_url (Some (lit "echo.example")) (lit "ws") None)
           (lit "echo.example") closed_with_url).
  - reflexivity.
  - reflexivity.
  - reflexivity.
  - unfold cstring. vm_compute. intuition discriminate.
Defined.

(** ** Closing on a socket that only times out *)

(** X22.  On an open socket whose every poll times out, [vws_disconnect]
    does not come to an end: a write that times out returns 0, which the
    loop over the CLOSE frame takes for progress of no bytes, so it offers
    the same bytes again, however many turns it is given. *)
Theorem X22_disconnect_timeouts (disconnect : option (M unit)) (fuel : nat)
  (w w1 : world) (k : key4) :
  0 < sockfd w ->
  run_hook disconnect w = Done tt w1 ->
  0 < sockfd w1 ->
  rand w1 (rand_ix w1) = Some k ->
  (forall i, net w1 i = PollTimeout) ->
  vws_disconnect disconnect fuel w = OutOfFuel.
Proof.
  intros Hc Hhook Hc1 Hk Hnet.
  set (f := vws_frame_new (htons WS_CLOSE_NORMAL) 2 CLOSE_FRAME).
  set (w2 := set_flags CNX_CLOSED w1).
  assert (Hk2 : rand w2 (rand_ix w2) = Some k) by exact Hk.
  assert (Hgen : vws_generate_close_frame w2
                 = Done (Some (masked_frame_data f k))
                     (serialized_world f (set_rand_ix (S (rand_ix w2)) w2)))
    by (unfold vws_generate_close_frame;
        exact (vws_serialize_masked f k w2 eq_refl Hk2)).
  assert (Hne : masked_frame_data f k <> []).
  { pose proof (wire_not_nil f k) as H. unfold wire in H.
    change (mask f =? 0) with false in H. exact H. }
  unfold vws_disconnect, bind.
  rewrite (vws_cnx_is_connected_open w Hc). cbn [negb].
  assert (Hrun : match disconnect with
                 | Some hook => hook
                 | None => ret tt
                 end w = Done tt w1) by exact Hhook.
  rewrite Hrun. unfold modify at 1. fold w2. rewrite Hgen.
  cbn [deref]. unfold ret at 1.
  rewrite disconnect_loop_timeouts; [reflexivity | exact Hc1 | exact Hne|].
  intro i. exact (Hnet i).
Qed.

Lemma X22_disconnect_timeouts_witness :
  vws_disconnect None 1000
    (mk_world 3 false [] CNX_CLOSED [] None VE_NONE
       (fun _ => Some (1, 2, 3, 4)) 0 (fun _ => PollTimeout) 0
       (fun _ => 0) 0 [] [])
  = OutOfFuel.
Proof.
  apply (X22_disconnect_timeouts None 1000
           (mk_world 3 false [] CNX_CLOSED [] None VE_NONE
              (fun _ => Some (1, 2, 3, 4)) 0 (fun _ => PollTimeout) 0
              (fun _ => 0) 0 [] [])
           (mk_world 3 false [] CNX_CLOSED [] None VE_NONE
              (fun _ => Some (1, 2, 3, 4)) 0 (fun _ => PollTimeout) 0
              (fun _ => 0) 0 [] [])
           (1, 2, 3, 4)).
  - cbn. lia.
  - reflexivity.
  - cbn. lia.
  - reflexivity.
  - intro i. reflexivity.
Defined.

(** ** Buffers and their allocation *)

Lemma times_one_and_a_half_ge (n : Z) :
  0 <= n -> n <= times_one_and_a_half n.
Proof.
  intro H. unfold times_one_and_a_half.
  assert (Hq : n <= n * 3 / 2) by (apply Z.div_le_lower_bound; lia).
  destruct ((n * 3 <? 2 ^ 53) || Z.even (n * 3) || Z.even (n * 3 / 2)); lia.
Qed.

Lemma realloc_length (junk : list Z) (blk : option (list Z)) (n : Z) :
  length (realloc junk blk n) = Z.to_nat n.
Proof.
  unfold realloc. rewrite length_firstn, !length_app, repeat_length. lia.
Qed.

Lemma realloc_prefix (junk : list Z) (l : list Z) (n : Z) (k : nat) :
  (k <= length l)%nat -> (k <= Z.to_nat n)%nat ->
  firstn k (realloc junk (Some l) n) = firstn k l.
Proof.
  intros Hk Hn. unfold realloc.
  rewrite firstn_firstn, Nat.min_l by exact Hn.
  rewrite firstn_app. replace (k - length l)%nat with 0%nat by lia.
  cbn [firstn]. apply app_nil_r.
Qed.

Lemma firstn_store (l : list Z) (off : nat) (bytes : list Z) :
  (off <= length l)%nat ->
  firstn (off + length bytes) (store l off bytes) = firstn off l ++ bytes.
Proof.
  intro H. unfold store.
  assert (Hl : length (firstn off l) = off)
    by (rewrite length_firstn; lia).
  rewrite firstn_app, Hl, firstn_all2 by lia.
  replace (off + length bytes - off)%nat with (length bytes) by lia.
  rewrite firstn_app, firstn_all, Nat.sub_diag. cbn [firstn].
  rewrite app_nil_r. reflexivity.
Qed.

(** X23.  [vrtql_buffer_append] keeps within its memory: on a buffer that
    obeys the invariant (no block and no content, or a block of [allocated]
    bytes that holds the content) and a source of at least [size] bytes, the
    [memcpy] stays inside the block, grown to one and a half times the new
    size when that is needed; the invariant holds afterwards and the content
    is the old content followed by the first [size] bytes of the source. *)
Theorem X23_buffer_append (junk : list Z) (b : vrtql_buffer)
  (src : list Z) (sz : Z) :
  buffer_wf b -> 0 <= sz <= Z.of_nat (length src) ->
  b_size b + sz < 2 ^ 52 ->
  exists b',
    vrtql_buffer_append junk b (Some src) sz = Some b' /\
    buffer_wf b' /\
    content b' = vws_buffer_append (content b) src sz.
Proof.
  intros [Hs Hwf] Hsz Hlim.
  assert (Hm : 2 ^ 52 < 2 ^ 64) by (pow64; lia).
  assert (Ht : u64 (b_size b + sz) = b_size b + sz)
    by (apply u64_small; lia).
  assert (Hsrc : vws_buffer_append (content b) src sz
                 = content b ++ firstn (Z.to_nat sz) src).
  { unfold vws_buffer_append. destruct src; [|reflexivity].
    rewrite firstn_nil, app_nil_r. reflexivity. }
  rewrite Hsrc. unfold vrtql_buffer_append. rewrite Ht.
  assert (Hlen : length (firstn (Z.to_nat sz) src) = Z.to_nat sz)
    by (rewrite length_firstn; lia).
  assert (Hfin : forall l alloc,
            Z.of_nat (length l) = alloc -> b_size b + sz <= alloc ->
            firstn (Z.to_nat (b_size b)) l = content b ->
            exists b',
              (if (b_size b + sz <=? Z.of_nat (length l))
                  && (sz <=? Z.of_nat (length src))
               then
                 Some (mk_buffer
                         (Some (store l (Z.to_nat (b_size b))
                                  (firstn (Z.to_nat sz) src)))
                         alloc (b_size b + sz))
               else None) = Some b' /\
              buffer_wf b' /\
              content b' = content b ++ firstn (Z.to_nat sz) src).
  { intros l alloc Hl Ha Hc.
    destruct (Z.leb_spec (b_size b + sz) (Z.of_nat (length l))) as [_|];
      [|lia].
    destruct (Z.leb_spec sz (Z.of_nat (length src))) as [_|]; [|lia].
    cbn [andb]. eexists. split; [reflexivity|]. split.
    - unfold buffer_wf. cbn [b_size b_data b_allocated].
      rewrite store_length by (rewrite Hlen; lia). lia.
    - unfold content at 1. cbn [b_size b_data].
      replace (Z.to_nat (b_size b + sz))
        with (Z.to_nat (b_size b)
              + length (firstn (Z.to_nat sz) src))%nat
        by (rewrite Hlen; lia).
      rewrite firstn_store by lia. rewrite Hc. reflexivity. }
  destruct (Z.ltb_spec (b_allocated b) (b_size b + sz)) as [Hgrow|Hfits].
  - pose proof (times_one_and_a_half_ge (b_size b + sz)) as Hal.
    apply Hfin.
    + rewrite realloc_length. lia.
    + apply Hal. lia.
    + unfold content. destruct (b_data b) as [l|].
      * apply realloc_prefix; lia.
      * destruct Hwf as [Hz _]. rewrite Hz. reflexivity.
  - destruct (b_data b) as [l|] eqn:Hd.
    + apply Hfin; [lia | lia |].
      unfold content. rewrite Hd. reflexivity.
    + destruct Hwf as [Hz Ha].
      destruct (Z.eqb_spec sz 0) as [->|]; [|lia].
      eexists. split; [reflexivity|]. split.
      * unfold buffer_wf. cbn [b_size b_data b_allocated]. lia.
      * unfold content. cbn [b_data]. rewrite Hd. reflexivity.
Qed.

Lemma X23_buffer_append_witness :
  exists b',
    vrtql_buffer_append [9; 9] vrtql_buffer_new (Some [1; 2; 3]) 2
    = Some b' /\
    buffer_wf b' /\
    content b' = vws_buffer_append (content vrtql_buffer_new) [1; 2; 3] 2.
Proof.
  apply (X23_buffer_append [9; 9] vrtql_buffer_new [1; 2; 3] 2).
  - unfold buffer_wf. cbn. lia.
  - simpl. lia.
  - cbn. pow64. lia.
Defined.

(** X24.  [vrtql_buffer_drain] of at least one byte keeps within its memory
    too: on a buffer that obeys the invariant, the [memmove] and the store
    of the terminator stay inside the block; the invariant holds afterwards,
    and the content is what is left of the old content after its first
    [size] bytes, nothing when [size] is the whole content or more. *)
Theorem X24_buffer_drain (b : vrtql_buffer) (n : Z) :
  buffer_wf b -> 0 < n ->
  exists b',
    vrtql_buffer_drain b n = Some b' /\
    buffer_wf b' /\
    content b' = drained n (content b).
Proof.
  intros [Hs Hwf] Hn. unfold vrtql_buffer_drain, content.
  destruct (b_data b) as [l|] eqn:Hd.
  - destruct Hwf as [Hl Ha].
    assert (Hc : length (firstn (Z.to_nat (b_size b)) l)
                 = Z.to_nat (b_size b))
      by (rewrite length_firstn; lia).
    destruct (Z.geb_spec n (b_size b)) as [Hge|Hlt].
    + eexists. split; [reflexivity|]. split.
      * unfold buffer_wf. cbn. lia.
      * cbn [vrtql_buffer_clear b_data]. unfold drained.
        destruct (firstn (Z.to_nat (b_size b)) l) eqn:E; [reflexivity|].
        rewrite Hc.
        destruct (Z.geb_spec n (Z.of_nat (Z.to_nat (b_size b)))) as [_|];
          [reflexivity | lia].
    + destruct (Z.leb_spec (b_size b) (Z.of_nat (length l))) as [_|]; [|lia].
      set (m := Z.to_nat (b_size b - n)).
      assert (Hmv : length (firstn m (skipn (Z.to_nat n) l)) = m)
        by (rewrite length_firstn, length_skipn; lia).
      set (l1 := store l 0 (firstn m (skipn (Z.to_nat n) l))).
      assert (Hl1 : length l1 = length l)
        by (unfold l1; rewrite store_length; [reflexivity | rewrite Hmv; lia]).
      destruct (Z.ltb_spec (b_size b - n) (Z.of_nat (length l1))) as [_|];
        [|lia].
      eexists. split; [reflexivity|]. split.
      * unfold buffer_wf. cbn [b_size b_data b_allocated].
        rewrite store_length by (cbn [length]; lia). lia.
      * cbn [b_size b_data]. fold m.
        assert (Hst : firstn m (store l1 m [0]) = firstn m l1).
        { unfold store. rewrite firstn_app, length_firstn.
          replace (m - Nat.min m (length l1))%nat with 0%nat by lia.
          cbn [firstn]. rewrite app_nil_r, firstn_firstn, Nat.min_id.
          reflexivity. }
        rewrite Hst.
        assert (H1 : firstn m l1 = firstn m (skipn (Z.to_nat n) l)).
        { unfold l1. pose proof (firstn_store l 0
                                   (firstn m (skipn (Z.to_nat n) l))) as F.
          cbn [Nat.add firstn app] in F. rewrite Hmv in F.
          apply F. lia. }
        rewrite H1. unfold drained.
        destruct (firstn (Z.to_nat (b_size b)) l) eqn:E.
        { simpl in Hc. lia. }
        rewrite Hc, <- E.
        destruct (Z.geb_spec n (Z.of_nat (Z.to_nat (b_size b)))) as [|_];
          [lia|].
        rewrite skipn_firstn_comm. f_equal. lia.
  - eexists. split; [reflexivity|]. split.
    + unfold buffer_wf. rewrite Hd. split; [exact Hs | exact Hwf].
    + rewrite Hd. reflexivity.
Qed.

Lemma X24_buffer_drain_witness :
  exists b',
    vrtql_buffer_drain (mk_buffer (Some [1; 2; 3; 0]) 4 3) 1 = Some b' /\
    buffer_wf b' /\
    content b' = drained 1 (content (mk_buffer (Some [1; 2; 3; 0]) 4 3)).
Proof.
  apply (X24_buffer_drain (mk_buffer (Some [1; 2; 3; 0]) 4 3) 1).
  - unfold buffer_wf. cbn. lia.
  - lia.
Defined.

Lemma vrtql_buffer_drain_zero (b : vrtql_buffer) :
  buffer_wf b -> 0 < b_size b -> b_size b = b_allocated b ->
  vrtql_buffer_drain b 0 = None.
Proof.
  intros [Hs Hwf] Hpos Hfull. unfold vrtql_buffer_drain.
  destruct (b_data b) as [l|]; [|lia].
  destruct Hwf as [Hl Ha].
  destruct (Z.geb_spec 0 (b_size b)) as [|_]; [lia|].
  destruct (Z.leb_spec (b_size b) (Z.of_nat (length l))) as [_|]; [|lia].
  rewrite store_length
    by (rewrite length_firstn, length_skipn; cbn [length]; lia).
  destruct (Z.ltb_spec (b_size b - 0) (Z.of_nat (length l))) as [|_];
    [lia | reflexivity].
Qed.

(** X25.  A drain of no bytes can leave the block: when the content fills
    the block to its last byte, as it does after one byte has been appended
    to a new buffer (one and a half times 1 is rounded down to 1),
    [vrtql_buffer_drain] with [size] 0 moves the content onto itself and
    then stores the terminator at [data[size]], one byte past the block. *)
Theorem X25_buffer_drain_zero (junk : list Z) (b : vrtql_buffer) (x : Z) :
  buffer_wf b -> 0 < b_size b -> b_size b = b_allocated b ->
  vrtql_buffer_drain b 0 = None /\
  vrtql_buffer_append junk vrtql_buffer_new (Some [x]) 1
  = Some (mk_buffer (Some [x]) 1 1) /\
  vrtql_buffer_drain (mk_buffer (Some [x]) 1 1) 0 = None.
Proof.
  intros Hwf Hpos Hfull. split.
  - exact (vrtql_buffer_drain_zero b Hwf Hpos Hfull).
  - split; [destruct junk; reflexivity | reflexivity].
Qed.

Lemma X25_buffer_drain_zero_witness :
  vrtql_buffer_drain (mk_buffer (Some [1; 2]) 2 2) 0 = None /\
  vrtql_buffer_append [] vrtql_buffer_new (Some [7]) 1
  = Some (mk_buffer (Some [7]) 1 1) /\
  vrtql_buffer_drain (mk_buffer (Some [7]) 1 1) 0 = None.
Proof.
  apply (X25_buffer_drain_zero [] (mk_buffer (Some [1; 2]) 2 2) 7).
  - unfold buffer_wf. cbn. lia.
  - cbn. lia.
  - reflexivity.
Defined.
